(** * Universe raw collector: ranking, levels, scheduler, buffer

    A shallow embedding of [src/collector/universe_raw_collector.py] and of
    the retry helper of [src/collector/universe_export.py].

    Conventions of the embedding:
    - Python [int] is [Z]; Python [float] is an exact rational [Q] (the
      rounding of IEEE arithmetic is not modelled); [Optional[T]] is [option];
    - a [dict] that is only looked up and updated by key is a [gmap]; a
      [dict] that is iterated (the rankings map, [market_data]) is an
      association list in insertion order, the order Python iterates in;
    - a decoded JSON value of the order book is kept by what the code looks
      at: its kind (list, dict or other), its truth value and what [float]
      makes of it;
    - the object [self] is the record [Collector], threaded through every
      method; storage, clock and network are explicit inputs. *)

From Stdlib Require Import ZArith QArith Lqa List String Ascii Permutation Sorted Lia.
From stdpp Require Import gmap strings list fin_maps pretty sorting.

Close Scope Q_scope.
Open Scope Z_scope.

(** ** Constants *)

Definition LEVEL_A_INTERVAL_MS : Z := 250.
Definition LEVEL_B_INTERVAL_MS : Z := 2000.
Definition LEVEL_C_INTERVAL_MS : Z := 2000.
Definition LEVEL_D_INTERVAL_MS : Z := 2000.

Definition SPREAD_BPS_IGNORE_THRESHOLD : Q := 30%Q.
Definition SPREAD_BPS_NO_A_THRESHOLD : Q := 15%Q.

Definition SAFETY_ASSETS : list string := ["BTC"; "ETH"; "SOL"]%string.

(** ** Data model *)

(** The level strings ["A"], ["B"], ["C"], ["D"]. *)
Inductive Level := LvA | LvB | LvC | LvD.

Definition level_eqb (a b : Level) : bool :=
  match a, b with
  | LvA, LvA | LvB, LvB | LvC, LvC | LvD, LvD => true
  | _, _ => false
  end.

Inductive MarketType := SPOT | PERP.

Record MarketInfo := mkMarketInfo {
  base : string;
  quote : string;
  market_type : MarketType;
  variant : string;
  symbol_raw : string
}.

Record MarketRanking := mkMarketRanking {
  r_symbol_raw : string;
  rank : Z;
  score : Q;
  r_volume_24h_usd : option Q;
  r_open_interest_usd : option Q;
  r_spread_bps : option Q
}.

Record MarketSchedule := mkMarketSchedule {
  s_symbol_raw : string;
  level : Level;
  next_due_ms : Z;
  interval_ms : Z
}.

(** A row of [market_samples]. *)
Record MarketSample := mkMarketSample {
  ts_ms : Z;
  m_base : string;
  m_quote : string;
  m_market_type : MarketType;
  m_variant : string;
  m_symbol_raw : string;
  bid : option Q;
  ask : option Q;
  mid : option Q;
  spread_bps : option Q;
  mark_price : option Q;
  funding_rate : option Q;
  open_interest_usd : option Q;
  volume_24h_usd : option Q;
  m_level : Level;
  m_score : option Q;
  stale_flag : bool
}.

(** A per-asset context after [_parse_float] of its aliased keys. *)
Record MarketContext := mkMarketContext {
  ctx_mark_price : option Q;
  ctx_funding_rate : option Q;
  ctx_open_interest_usd : option Q;
  ctx_volume_24h_usd : option Q
}.

(** The mutable fields of [UniverseRawCollector] and of its [SampleMetrics]
    (the deque of insert durations, which only feeds a throughput figure, is
    left out). *)
Record Collector := mkCollector {
  markets : list MarketInfo;
  market_contexts : gmap string MarketContext;
  rankings : list (string * MarketRanking);
  schedules : gmap string MarketSchedule;
  promotion_counters : gmap string Z;
  demotion_counters : gmap string Z;
  last_promotions : list string;
  last_demotions : list string;
  last_window_start : Q;
  buffer : list MarketSample;
  rows_buffered : Z;
  rows_inserted : Z;
  inserts_count : Z;
  skipped_spread_gt_30 : Z;
  promotions_count : Z;
  demotions_count : Z
}.

Definition set_rankings (v : list (string * MarketRanking)) (c : Collector) : Collector :=
  mkCollector (markets c) (market_contexts c) v (schedules c)
    (promotion_counters c) (demotion_counters c) (last_promotions c)
    (last_demotions c) (last_window_start c) (buffer c) (rows_buffered c)
    (rows_inserted c) (inserts_count c) (skipped_spread_gt_30 c)
    (promotions_count c) (demotions_count c).

Definition set_schedules (v : gmap string MarketSchedule) (c : Collector) : Collector :=
  mkCollector (markets c) (market_contexts c) (rankings c) v
    (promotion_counters c) (demotion_counters c) (last_promotions c)
    (last_demotions c) (last_window_start c) (buffer c) (rows_buffered c)
    (rows_inserted c) (inserts_count c) (skipped_spread_gt_30 c)
    (promotions_count c) (demotions_count c).

Definition set_promotion_counters (v : gmap string Z) (c : Collector) : Collector :=
  mkCollector (markets c) (market_contexts c) (rankings c) (schedules c)
    v (demotion_counters c) (last_promotions c)
    (last_demotions c) (last_window_start c) (buffer c) (rows_buffered c)
    (rows_inserted c) (inserts_count c) (skipped_spread_gt_30 c)
    (promotions_count c) (demotions_count c).

Definition set_demotion_counters (v : gmap string Z) (c : Collector) : Collector :=
  mkCollector (markets c) (market_contexts c) (rankings c) (schedules c)
    (promotion_counters c) v (last_promotions c)
    (last_demotions c) (last_window_start c) (buffer c) (rows_buffered c)
    (rows_inserted c) (inserts_count c) (skipped_spread_gt_30 c)
    (promotions_count c) (demotions_count c).

Definition set_window (lp ld : list string) (start : Q) (c : Collector) : Collector :=
  mkCollector (markets c) (market_contexts c) (rankings c) (schedules c)
    (promotion_counters c) (demotion_counters c) lp ld start
    (buffer c) (rows_buffered c)
    (rows_inserted c) (inserts_count c) (skipped_spread_gt_30 c)
    (promotions_count c) (demotions_count c).

Definition set_transition_counts (p d : Z) (c : Collector) : Collector :=
  mkCollector (markets c) (market_contexts c) (rankings c) (schedules c)
    (promotion_counters c) (demotion_counters c) (last_promotions c)
    (last_demotions c) (last_window_start c) (buffer c) (rows_buffered c)
    (rows_inserted c) (inserts_count c) (skipped_spread_gt_30 c) p d.

Definition set_buffer (b : list MarketSample) (n : Z) (c : Collector) : Collector :=
  mkCollector (markets c) (market_contexts c) (rankings c) (schedules c)
    (promotion_counters c) (demotion_counters c) (last_promotions c)
    (last_demotions c) (last_window_start c) b n
    (rows_inserted c) (inserts_count c) (skipped_spread_gt_30 c)
    (promotions_count c) (demotions_count c).

Definition set_insert_metrics (rows cnt : Z) (c : Collector) : Collector :=
  mkCollector (markets c) (market_contexts c) (rankings c) (schedules c)
    (promotion_counters c) (demotion_counters c) (last_promotions c)
    (last_demotions c) (last_window_start c) (buffer c) (rows_buffered c)
    rows cnt (skipped_spread_gt_30 c)
    (promotions_count c) (demotions_count c).

Definition set_skipped_spread_gt_30 (n : Z) (c : Collector) : Collector :=
  mkCollector (markets c) (market_contexts c) (rankings c) (schedules c)
    (promotion_counters c) (demotion_counters c) (last_promotions c)
    (last_demotions c) (last_window_start c) (buffer c) (rows_buffered c)
    (rows_inserted c) (inserts_count c) n
    (promotions_count c) (demotions_count c).

(** ** Small helpers for Python idioms *)

(** [x > y] on floats. *)
Definition Qgtb (x y : Q) : bool := negb (Qle_bool x y).

(** [x < y] on floats. *)
Definition Qltb (x y : Q) : bool := negb (Qle_bool y x).

(** [d[k]] on a [defaultdict(int)]. *)
Definition counter_get (m : gmap string Z) (k : string) : Z := default 0 (m !! k).

(** [d.get(k)] and [k in d] on a dict kept in insertion order. *)
Fixpoint dict_get {V : Type} (d : list (string * V)) (k : string) : option V :=
  match d with
  | [] => None
  | (k', v) :: d' => if String.eqb k' k then Some v else dict_get d' k
  end.

Definition dict_mem {V : Type} (d : list (string * V)) (k : string) : bool :=
  match dict_get d k with Some _ => true | None => false end.

Definition dict_keys {V : Type} (d : list (string * V)) : list string := fst <$> d.

(** ** Level assignment *)

Definition _assign_level_from_rank (symbol_raw : string) (rank : Z) (spread_bps : option Q)
    : Level :=
  let blocked :=
    match spread_bps with
    | Some s => if Qgtb s SPREAD_BPS_NO_A_THRESHOLD then rank <=? 100 else false
    | None => rank <=? 100
    end in
  if blocked then LvB
  else if rank <=? 100 then LvA
  else if rank <=? 200 then LvB
  else if rank <=? 300 then LvC
  else if rank <=? 400 then LvD
  else LvD.

Definition _get_interval_for_level (l : Level) : Z :=
  match l with
  | LvA => LEVEL_A_INTERVAL_MS
  | LvB => LEVEL_B_INTERVAL_MS
  | LvC => LEVEL_C_INTERVAL_MS
  | LvD => LEVEL_D_INTERVAL_MS
  end.

(** [self.schedules.get(symbol_raw, MarketSchedule(symbol_raw, "D", 0, ...)).level] *)
Definition current_level_of (st : Collector) (symbol_raw : string) : Level :=
  level (default (mkMarketSchedule symbol_raw LvD 0 LEVEL_D_INTERVAL_MS)
                 (schedules st !! symbol_raw)).

(** The promotion test of the loop body:
    [rank <= 100 and (spread_bps is None or spread_bps <= 15)]. *)
Definition promotion_condition (rank : Z) (spread_bps : option Q) : bool :=
  (rank <=? 100) &&
  match spread_bps with
  | None => true
  | Some s => Qle_bool s SPREAD_BPS_NO_A_THRESHOLD
  end.

(** The state carried by the loop of [_update_levels_with_hysteresis]:
    the collector and the two local lists. *)
Record LoopState := mkLoop {
  ls_st : Collector;
  promotions_this_cycle : list string;
  demotions_this_cycle : list string
}.

(** The branch [if current_level != "A"]. *)
Definition promotion_branch (ls : LoopState) (sym : string) (current_level : Level)
    (rank : Z) (spread : option Q) : LoopState :=
  let st := ls_st ls in
  if promotion_condition rank spread then
    let pc := <[sym := counter_get (promotion_counters st) sym + 1]> (promotion_counters st) in
    if 3 <=? counter_get pc sym then
      let new_level := LvA in
      let promos :=
        if negb (level_eqb new_level current_level)
        then promotions_this_cycle ls ++ [sym] else promotions_this_cycle ls in
      let st1 := set_schedules
                   (<[sym := mkMarketSchedule sym new_level 0 LEVEL_A_INTERVAL_MS]> (schedules st))
                   st in
      let st2 := set_promotion_counters (<[sym := 0]> pc) st1 in
      mkLoop st2 promos (demotions_this_cycle ls)
    else
      mkLoop (set_promotion_counters pc st) (promotions_this_cycle ls) (demotions_this_cycle ls)
  else
    mkLoop (set_promotion_counters (<[sym := 0]> (promotion_counters st)) st)
           (promotions_this_cycle ls) (demotions_this_cycle ls).

(** The branch [elif current_level == "A"]. *)
Definition demotion_branch (ls : LoopState) (sym : string) (current_level : Level)
    (rank : Z) (spread : option Q) : LoopState :=
  let st := ls_st ls in
  let bump :=
    let dc := <[sym := counter_get (demotion_counters st) sym + 1]> (demotion_counters st) in
    (dc, 3 <=? counter_get dc sym) in
  let '(dc, should_demote) :=
    if 120 <? rank then bump
    else if match spread with Some s => Qgtb s 20%Q | None => false end then bump
    else (<[sym := 0]> (demotion_counters st), false) in
  let st1 := set_demotion_counters dc st in
  if should_demote then
    let new_level := _assign_level_from_rank sym rank spread in
    let demos :=
      if negb (level_eqb new_level current_level)
      then demotions_this_cycle ls ++ [sym] else demotions_this_cycle ls in
    let st2 := set_schedules
                 (<[sym := mkMarketSchedule sym new_level 0 (_get_interval_for_level new_level)]>
                    (schedules st1)) st1 in
    let st3 := set_demotion_counters (<[sym := 0]> dc) st2 in
    mkLoop st3 (promotions_this_cycle ls) demos
  else
    mkLoop st1 (promotions_this_cycle ls) (demotions_this_cycle ls).

(** The final [else] branch, "assign directly from rank (no hysteresis)". *)
Definition direct_branch (ls : LoopState) (sym : string) (rank : Z) (spread : option Q)
    : LoopState :=
  let st := ls_st ls in
  let new_level := _assign_level_from_rank sym rank spread in
  mkLoop (set_schedules
            (<[sym := mkMarketSchedule sym new_level 0 (_get_interval_for_level new_level)]>
               (schedules st)) st)
         (promotions_this_cycle ls) (demotions_this_cycle ls).

(** One iteration of [for symbol_raw, ranking in rankings.items()]. *)
Definition hysteresis_step (ls : LoopState) (item : string * MarketRanking) : LoopState :=
  let '(sym, ranking) := item in
  let current_level := current_level_of (ls_st ls) sym in
  let rk := rank ranking in
  let spread := r_spread_bps ranking in
  if negb (level_eqb current_level LvA) then
    promotion_branch ls sym current_level rk spread
  else if level_eqb current_level LvA then
    demotion_branch ls sym current_level rk spread
  else
    direct_branch ls sym rk spread.

(** [_update_levels_with_hysteresis]; [now] is [time.time()]. *)
Definition _update_levels_with_hysteresis (now : Q)
    (rks : list (string * MarketRanking)) (st : Collector) : Collector :=
  let st0 :=
    if Qle_bool 60%Q (now - last_window_start st)%Q
    then set_window [] [] now st else st in
  let ls := fold_left hysteresis_step rks (mkLoop st0 [] []) in
  let st1 := ls_st ls in
  let st2 := set_window (last_promotions st1 ++ promotions_this_cycle ls)
                        (last_demotions st1 ++ demotions_this_cycle ls)
                        (last_window_start st1) st1 in
  set_transition_counts
    (promotions_count st2 + Z.of_nat (length (promotions_this_cycle ls)))
    (demotions_count st2 + Z.of_nat (length (demotions_this_cycle ls))) st2.

(** ** Fallback safety *)

Definition is_safety_asset (m : MarketInfo) : bool :=
  existsb (String.eqb (base m)) SAFETY_ASSETS.

(** One iteration of [for market in self.markets] of [_apply_fallback_safety]
    (the state part; the flag and the reason only feed the log). *)
Definition fallback_step (st : Collector) (market : MarketInfo) : Collector :=
  if is_safety_asset market then
    let sym := symbol_raw market in
    match schedules st !! sym with
    | Some current_schedule =>
        match level current_schedule with
        | LvA | LvB => st
        | _ => set_schedules
                 (<[sym := mkMarketSchedule sym LvB 0 LEVEL_B_INTERVAL_MS]> (schedules st)) st
        end
    | None => st
    end
  else st.

Definition _apply_fallback_safety (rks : list (string * MarketRanking)) (st : Collector)
    : Collector :=
  fold_left fallback_step (markets st) st.

(** The value of [fallback_active] when [_apply_fallback_safety] logs. *)
Definition fallback_active (rks : list (string * MarketRanking)) (st : Collector) : bool :=
  (Z.of_nat (length rks) <? 10) ||
  existsb (fun m => is_safety_asset m && negb (dict_mem rks (symbol_raw m))) (markets st).

(** ** Sorting

    [sorted(xs)] and [xs.sort(key=..., reverse=True)] are stable sorts: the
    result is the unique ordered rearrangement that keeps elements the order
    does not separate in their input order. [stable_sort before] is that
    rearrangement, where [before y x] says that [y] goes strictly ahead of
    [x]. *)

Section StableSort.
Context {T : Type} (before : T -> T -> bool).

Fixpoint sort_insert (x : T) (l : list T) : list T :=
  match l with
  | [] => [x]
  | y :: l' => if before y x then y :: sort_insert x l' else x :: l
  end.

Fixpoint stable_sort (l : list T) : list T :=
  match l with
  | [] => []
  | x :: l' => sort_insert x (stable_sort l')
  end.
End StableSort.

(** ** Percentile rank *)

(** [sum(1 for v in l if p(v))] *)
Fixpoint count_if {T : Type} (p : T -> bool) (l : list T) : Z :=
  match l with
  | [] => 0
  | x :: l' => (if p x then 1 else 0) + count_if p l'
  end.

Definition _calculate_percentile_rank (value : Q) (all_values : list Q) : Q :=
  match all_values with
  | [] => 0%Q
  | _ =>
      let sorted_values := stable_sort Qltb all_values in
      let count_below := count_if (fun v => Qltb v value) sorted_values in
      let count_equal := count_if (fun v => Qeq_bool v value) sorted_values in
      ((inject_Z count_below + inject_Z count_equal / 2)
         / inject_Z (Z.of_nat (length sorted_values)))%Q
  end.

(** ** Rankings *)

(** [d[k] = v] on a dict kept in insertion order. *)
Fixpoint dict_set {V : Type} (d : list (string * V)) (k : string) (v : V)
    : list (string * V) :=
  match d with
  | [] => [(k, v)]
  | (k', v') :: d' =>
      if String.eqb k' k then (k', v) :: d' else (k', v') :: dict_set d' k v
  end.

(** In-place change of the value stored under [k] (keys are unique, so at
    most one entry is touched). *)
Definition dict_alter {V : Type} (f : V -> V) (k : string) (d : list (string * V))
    : list (string * V) :=
  (fun kv => if String.eqb (fst kv) k then (fst kv, f (snd kv)) else kv) <$> d.

(** The outcome of the session query of [_calculate_rankings]: the rows of
    the last five minutes, newest first, or an exception. *)
Inductive QueryResult :=
  | QueryRaised
  | QueryRows (latest_samples : list MarketSample).

(** "Group by symbol_raw and get most recent". *)
Definition group_latest (latest_samples : list MarketSample)
    : list (string * MarketSample) :=
  fold_left (fun market_data sample =>
               if dict_mem market_data (m_symbol_raw sample) then market_data
               else dict_set market_data (m_symbol_raw sample) sample)
            latest_samples [].

(** [[f(s) for s in xs if f(s) is not None]] *)
Definition collect_present {X : Type} (f : X -> option Q) (xs : list X) : list Q :=
  omap f xs.

Definition with_rank (r : Z) (mr : MarketRanking) : MarketRanking :=
  mkMarketRanking (r_symbol_raw mr) r (score mr) (r_volume_24h_usd mr)
    (r_open_interest_usd mr) (r_spread_bps mr).

Definition percentile_or_zero (x : Q) (xs : list Q) : Q :=
  match xs with
  | [] => 0%Q
  | _ => _calculate_percentile_rank x xs
  end.

(** The score of one sample against the three metric lists. *)
Definition sample_score (volumes ois spreads : list Q) (sample : MarketSample) : Q :=
  let volume := default 0%Q (volume_24h_usd sample) in
  let oi := default 0%Q (open_interest_usd sample) in
  let spread := default 0%Q (spread_bps sample) in
  let volume_norm := percentile_or_zero volume volumes in
  let oi_norm := percentile_or_zero oi ois in
  let spread_norm := percentile_or_zero spread spreads in
  ((6 # 10) * volume_norm + (3 # 10) * oi_norm - (1 # 10) * spread_norm)%Q.

(** The loop that fills [rankings] and [market_scores]. *)
Definition score_step (volumes ois spreads : list Q)
    (acc : list (string * MarketRanking) * list (string * Q))
    (item : string * MarketSample) : list (string * MarketRanking) * list (string * Q) :=
  let '(symbol_raw, sample) := item in
  let sc := sample_score volumes ois spreads sample in
  (dict_set (fst acc) symbol_raw
     (mkMarketRanking symbol_raw 0 sc (volume_24h_usd sample)
        (open_interest_usd sample) (spread_bps sample)),
   snd acc ++ [(symbol_raw, sc)]).

(** [for rank, (symbol_raw, _) in enumerate(market_scores, start=1)] *)
Fixpoint assign_ranks (market_scores : list (string * Q)) (rank : Z)
    (rankings : list (string * MarketRanking)) : list (string * MarketRanking) :=
  match market_scores with
  | [] => rankings
  | (symbol_raw, _) :: rest =>
      assign_ranks rest (rank + 1)
        (if dict_mem rankings symbol_raw
         then dict_alter (with_rank rank) symbol_raw rankings
         else rankings)
  end.

(** [market_scores.sort(key=lambda x: x[1], reverse=True)]: the higher
    score goes first, equal scores keep their order. *)
Definition score_before (y x : string * Q) : bool := Qgtb (snd y) (snd x).

Definition rank_market_data (market_data : list (string * MarketSample))
    : list (string * MarketRanking) :=
  let volumes := collect_present volume_24h_usd (snd <$> market_data) in
  let ois := collect_present open_interest_usd (snd <$> market_data) in
  let spreads := collect_present spread_bps (snd <$> market_data) in
  let '(rankings, market_scores) :=
    fold_left (score_step volumes ois spreads) market_data ([], []) in
  assign_ranks (stable_sort score_before market_scores) 1 rankings.

Definition _calculate_rankings (q : QueryResult) : list (string * MarketRanking) :=
  match q with
  | QueryRaised => []
  | QueryRows latest_samples => rank_market_data (group_latest latest_samples)
  end.

(** ** Ranking refresh *)

(** "Initialize schedules for markets not yet scheduled". *)
Definition init_schedule_step (rks : list (string * MarketRanking)) (st : Collector)
    (market : MarketInfo) : Collector :=
  match schedules st !! symbol_raw market with
  | Some _ => st
  | None =>
      let level :=
        match dict_get rks (symbol_raw market) with
        | Some ranking =>
            _assign_level_from_rank (symbol_raw market) (rank ranking) (r_spread_bps ranking)
        | None => LvD
        end in
      set_schedules
        (<[symbol_raw market :=
             mkMarketSchedule (symbol_raw market) level 0 (_get_interval_for_level level)]>
           (schedules st)) st
  end.

(** The body of [_refresh_rankings] once [_calculate_rankings] returned [rks]. *)
Definition refresh_with (now : Q) (rks : list (string * MarketRanking)) (st : Collector)
    : Collector :=
  match rks with
  | [] => _apply_fallback_safety [] st
  | _ =>
      let st1 := set_rankings rks st in
      let st2 := _update_levels_with_hysteresis now rks st1 in
      let st3 := _apply_fallback_safety rks st2 in
      fold_left (init_schedule_step rks) (markets st3) st3
  end.

Definition _refresh_rankings (now : Q) (q : QueryResult) (st : Collector) : Collector :=
  refresh_with now (_calculate_rankings q) st.

(** ** Sampling *)

(** A Python value as [_best_price] looks at it: its truth value [bool(v)]
    and the result of [float(v)], [None] when that raises. *)
Record PyValue := mkPyValue {
  truthy : bool;
  as_float : option Q
}.

(** [None], the literal [0], a number, and a non-empty string that
    [float] reads as [x]. *)
Definition py_None : PyValue := mkPyValue false None.
Definition py_zero : PyValue := mkPyValue false (Some 0%Q).
Definition py_number (x : Q) : PyValue := mkPyValue (negb (Qeq_bool x 0)) (Some x).
Definition py_text (x : Q) : PyValue := mkPyValue true (Some x).

(** One level of a side of the book, a decoded JSON value: a list or
    tuple with its items, a dict with its (string) keys, or any other value
    with its truth value and what [level[0]] gives, [None] when that
    raises. *)
Inductive BookLevel :=
  | LevelSeq (items : list PyValue)
  | LevelDict (entries : gmap string PyValue)
  | LevelOther (truth : bool) (first : option PyValue).

(** What [fetch_orderbook_snapshot] and the unpacking of the payload
    deliver: an exception, a falsy snapshot, or the lists [bids] and [asks]
    of levels. *)
Inductive Snapshot :=
  | FetchRaised
  | NoSnapshot
  | Book (bids asks : list BookLevel).

(** [bool(level)] *)
Definition level_truth (lv : BookLevel) : bool :=
  match lv with
  | LevelSeq items => match items with [] => false | _ => true end
  | LevelDict entries => negb (Nat.eqb (size entries) 0)
  | LevelOther truth _ => truth
  end.

(** [level[0]]; [None] when it raises (a dict has no key [0]). *)
Definition level_first (lv : BookLevel) : option PyValue :=
  match lv with
  | LevelSeq items => head items
  | LevelDict _ => None
  | LevelOther _ first => first
  end.

(** [level.get(key)]; [None] when it raises (only a dict has [get]). *)
Definition level_get (lv : BookLevel) (key : string) : option PyValue :=
  match lv with
  | LevelDict entries => Some (default py_None (entries !! key))
  | _ => None
  end.

(** [a or b] *)
Definition py_or (a b : PyValue) : PyValue := if truthy a then a else b.

(** [[float(level[0]) for level in levels if level]]; [None] when an
    element raises. *)
Fixpoint seq_prices (levels : list BookLevel) : option (list Q) :=
  match levels with
  | [] => Some []
  | lv :: rest =>
      if level_truth lv then
        match level_first lv ≫= as_float, seq_prices rest with
        | Some p, Some ps => Some (p :: ps)
        | _, _ => None
        end
      else seq_prices rest
  end.

(** [[float(level.get("px") or level.get("price") or 0) for level in levels
      if level.get("px") or level.get("price")]]; [None] when an element
    raises. *)
Fixpoint dict_prices (levels : list BookLevel) : option (list Q) :=
  match levels with
  | [] => Some []
  | lv :: rest =>
      match level_get lv "px", level_get lv "price" with
      | Some px, Some price =>
          if truthy (py_or px price) then
            match as_float (py_or (py_or px price) py_zero), dict_prices rest with
            | Some p, Some ps => Some (p :: ps)
            | _, _ => None
            end
          else dict_prices rest
      | _, _ => None
      end
  end.

(** The prices [_best_price] reads off a non-empty side: the dispatch on
    the shape of the first level; [None] for an unknown shape ([else: return
    None]) and when reading raises ([except Exception: return None]). *)
Definition side_prices (levels : list BookLevel) : option (list Q) :=
  match levels with
  | LevelSeq (_ :: _) :: _ => seq_prices levels
  | LevelDict _ :: _ => dict_prices levels
  | _ => None
  end.

(** [max(prices) if reverse else min(prices)], after [if not prices:
    return None]. *)
Definition best_of (prices : list Q) (reverse : bool) : option Q :=
  match prices with
  | [] => None
  | p :: ps =>
      Some (fold_left
              (fun best x =>
                 if reverse then (if Qltb best x then x else best)
                 else (if Qltb x best then x else best))
              ps p)
  end.

Definition _best_price (levels : list BookLevel) (reverse : bool) : option Q :=
  match levels with
  | [] => None
  | _ => side_prices levels ≫= fun prices => best_of prices reverse
  end.

(** The values of [bid], [ask], [mid], [spread_bps] and [stale_flag] when
    the [try] block of [collect_sample] is left. *)
Record BookReading := mkBookReading {
  br_bid : option Q;
  br_ask : option Q;
  br_mid : option Q;
  br_spread_bps : option Q;
  br_stale_flag : bool
}.

Definition read_book (snapshot : Snapshot) : BookReading :=
  match snapshot with
  | FetchRaised => mkBookReading None None None None true
  | NoSnapshot => mkBookReading None None None None false
  | Book bids asks =>
      match _best_price bids true, _best_price asks false with
      | Some best_bid, Some best_ask =>
          if negb (Qeq_bool best_bid 0) && negb (Qeq_bool best_ask 0)
             && Qgtb best_bid 0 && Qgtb best_ask 0
          then
            let mid := ((best_bid + best_ask) / 2)%Q in
            mkBookReading (Some best_bid) (Some best_ask) (Some mid)
              (if Qgtb mid 0
               then Some (((best_ask - best_bid) / mid) * 10000)%Q else None)
              false
          else mkBookReading None None None None false
      | _, _ => mkBookReading None None None None false
      end
  end.

Definition collect_sample (now_ms : Z) (market : MarketInfo) (snapshot : Snapshot)
    (st : Collector) : option MarketSample * Collector :=
  let rd := read_book snapshot in
  let spread_bps := br_spread_bps rd in
  if match spread_bps with
     | Some s => Qgtb s SPREAD_BPS_IGNORE_THRESHOLD
     | None => false
     end
  then (None, set_skipped_spread_gt_30 (skipped_spread_gt_30 st + 1) st)
  else
    let ctx := market_contexts st !! base market in
    let mark_price :=
      match market_type market with PERP => ctx ≫= ctx_mark_price | SPOT => None end in
    let funding_rate :=
      match market_type market with PERP => ctx ≫= ctx_funding_rate | SPOT => None end in
    let open_interest_usd :=
      match market_type market with PERP => ctx ≫= ctx_open_interest_usd | SPOT => None end in
    let volume_24h_usd := ctx ≫= ctx_volume_24h_usd in
    let stale_flag :=
      match br_bid rd, br_ask rd with
      | Some _, Some _ => br_stale_flag rd
      | _, _ => true
      end in
    let ranking := dict_get (rankings st) (symbol_raw market) in
    let level :=
      match ranking, schedules st !! symbol_raw market with
      | Some _, Some schedule => level schedule
      | _, _ => LvD
      end in
    (Some (mkMarketSample now_ms (base market) (quote market) (market_type market)
             (variant market) (symbol_raw market) (br_bid rd) (br_ask rd) (br_mid rd)
             spread_bps mark_price funding_rate open_interest_usd volume_24h_usd
             level (score <$> ranking) stale_flag),
     st).

(** ** Buffer and persistence *)

Definition add_to_buffer (sample : MarketSample) (st : Collector) : Collector :=
  let b := buffer st ++ [sample] in
  set_buffer b (Z.of_nat (length b)) st.

(** The part of a tick of [run] that handles one due market:
    [collect_sample], then [add_to_buffer] if a sample came back. *)
Definition sample_and_buffer (now_ms : Z) (market : MarketInfo) (snapshot : Snapshot)
    (st : Collector) : Collector :=
  match collect_sample now_ms market snapshot st with
  | (Some sample, st') => add_to_buffer sample st'
  | (None, st') => st'
  end.

(** The outcome of [session.add_all(samples); session.commit()] on the
    transactional store: all rows are inserted, or none is. *)
Inductive InsertOutcome := Committed | InsertRaised.

Definition record_insert (rows : Z) (st : Collector) : Collector :=
  set_insert_metrics (rows_inserted st + rows) (inserts_count st + 1) st.

(** [flush_buffer]. [db] is the table [market_samples]; [newer] are the
    samples producers append between the swap and the end of the insert. *)
Definition flush_buffer (outcome : InsertOutcome) (newer : list MarketSample)
    (st : Collector) (db : list MarketSample) : Z * Collector * list MarketSample :=
  match buffer st with
  | [] => (0, st, db)
  | _ =>
      let samples := buffer st in
      let st1 := set_buffer newer (Z.of_nat (length newer)) st in
      match outcome with
      | Committed =>
          let rows := Z.of_nat (length samples) in
          (rows, record_insert rows st1, db ++ samples)
      | InsertRaised =>
          let b := buffer st1 ++ samples in
          (0, record_insert 0 (set_buffer b (Z.of_nat (length b)) st1), db)
      end
  end.

(** ** Storage reads *)

(** One attempt at a storage call: a value, or an exception with its text. *)
Inductive Attempt (X : Type) :=
  | Returned (x : X)
  | Raised (msg : string).
Arguments Returned {X} x.
Arguments Raised {X} msg.

(** What a read does: the value it returns or the error it lets through
    ([None]: it returns [None]), the sleeps it made and the calls it made. *)
Record ReadTrace (X : Type) := mkReadTrace {
  rt_result : option (Attempt X);
  rt_sleeps : list Q;
  rt_calls : nat
}.
Arguments mkReadTrace {X}.
Arguments rt_result {X}.
Arguments rt_sleeps {X}.
Arguments rt_calls {X}.

Definition ascii_lower (c : ascii) : ascii :=
  let n := nat_of_ascii c in
  if (65 <=? n)%nat && (n <=? 90)%nat then ascii_of_nat (n + 32) else c.

(** [str.lower()], on ASCII text. *)
Fixpoint lower (s : string) : string :=
  match s with
  | EmptyString => EmptyString
  | String c s' => String (ascii_lower c) (lower s')
  end.

(** [needle in hay] *)
Fixpoint contains (needle hay : string) : bool :=
  String.prefix needle hay ||
  match hay with
  | EmptyString => false
  | String _ hay' => contains needle hay'
  end.

Definition is_locked_error (msg : string) : bool :=
  let error_str := lower msg in
  contains "locked" error_str || contains "database is locked" error_str.

(** The loop [for attempt in range(max_retries)] of [_retry_on_lock], from
    [attempt] on with [remaining] iterations left; [func k] is what the
    [k]-th call of [func] does. *)
Fixpoint retry_loop {X : Type} (func : nat -> Attempt X) (max_retries : Z)
    (delays : list Q) (remaining : nat) (attempt : nat) (slept : list Q) : ReadTrace X :=
  match remaining with
  | O => mkReadTrace None slept attempt
  | S remaining' =>
      match func attempt with
      | Returned x => mkReadTrace (Some (Returned x)) slept (S attempt)
      | Raised msg =>
          if is_locked_error msg then
            if Z.of_nat attempt <? max_retries - 1 then
              match delays !! Nat.min attempt (length delays - 1) with
              | Some delay =>
                  retry_loop func max_retries delays remaining' (S attempt) (slept ++ [delay])
              | None =>
                  mkReadTrace (Some (Raised "list index out of range")) slept (S attempt)
              end
            else mkReadTrace (Some (Raised msg)) slept (S attempt)
          else mkReadTrace (Some (Raised msg)) slept (S attempt)
      end
  end.

Definition _retry_on_lock {X : Type} (func : nat -> Attempt X) (max_retries : Z)
    (delays : list Q) : ReadTrace X :=
  retry_loop func max_retries delays (Z.to_nat max_retries) 0 [].

Definition default_max_retries : Z := 3.
Definition default_delays : list Q := [(2 # 10)%Q; (5 # 10)%Q; 1%Q].

(** [get_db_rows_24h]: one count query inside [try]; any exception gives 0. *)
Definition get_db_rows_24h (count_query : nat -> Attempt Z) : ReadTrace Z :=
  match count_query O with
  | Returned count => mkReadTrace (Some (Returned count)) [] 1
  | Raised _ => mkReadTrace (Some (Returned 0)) [] 1
  end.

(** ** Scheduler *)

Definition due_step (now_ms : Z) (acc : Collector * list MarketInfo) (market : MarketInfo)
    : Collector * list MarketInfo :=
  let '(st, due_markets) := acc in
  match schedules st !! symbol_raw market with
  | None => (st, due_markets ++ [market])
  | Some schedule =>
      if next_due_ms schedule <=? now_ms then
        (set_schedules
           (<[symbol_raw market :=
                mkMarketSchedule (s_symbol_raw schedule) (level schedule)
                  (now_ms + interval_ms schedule) (interval_ms schedule)]>
              (schedules st)) st,
         due_markets ++ [market])
      else (st, due_markets)
  end.

Definition _get_markets_due_for_sampling (now_ms : Z) (st : Collector)
    : Collector * list MarketInfo :=
  fold_left (due_step now_ms) (markets st) (st, []).

(** ** Views and sample inputs used by the statements *)

(** What the level machine keeps for one market. *)
Definition market_state (st : Collector) (sym : string)
    : option MarketSchedule * option Z * option Z :=
  (schedules st !! sym, promotion_counters st !! sym, demotion_counters st !! sym).

(** A collector right after [__init__]. *)
Definition empty_collector : Collector :=
  mkCollector [] ∅ [] ∅ ∅ ∅ [] [] 0%Q [] 0 0 0 0 0 0.

Definition with_markets (ms : list MarketInfo) (c : Collector) : Collector :=
  mkCollector ms (market_contexts c) (rankings c) (schedules c)
    (promotion_counters c) (demotion_counters c) (last_promotions c)
    (last_demotions c) (last_window_start c) (buffer c) (rows_buffered c)
    (rows_inserted c) (inserts_count c) (skipped_spread_gt_30 c)
    (promotions_count c) (demotions_count c).

Definition perp (sym : string) : MarketInfo := mkMarketInfo sym "USD" PERP "USDC" sym.

(** A level as the exchange sends it: a dict with the price as text. *)
Definition quoted (px : Q) : BookLevel :=
  LevelDict {[ "px" := py_text px; "sz" := py_text 1%Q ]}.

(** A stored perp sample with the given volume and spread. *)
Definition row (sym : string) (volume : Q) (spread : option Q) : MarketSample :=
  mkMarketSample 0 sym "USD" PERP "USDC" sym None None None spread None None None
    (Some volume) LvD None false.

Definition scheduled (sym : string) (l : Level) : Collector :=
  set_schedules {[ sym := mkMarketSchedule sym l 0 (_get_interval_for_level l) ]}
    empty_collector.

Definition ranked (sym : string) (rk : Z) (spread : option Q)
    : list (string * MarketRanking) :=
  [(sym, mkMarketRanking sym rk (1 # 2)%Q None None spread)].

(** [n] ranking cycles with the same rankings map. *)
Fixpoint cycles (n : nat) (rks : list (string * MarketRanking)) (st : Collector)
    : Collector :=
  match n with
  | O => st
  | S n' => _update_levels_with_hysteresis 0%Q rks (cycles n' rks st)
  end.

(** A catalog of BTC and 349 other perps, and one fresh sample of each in
    which BTC has the lowest volume. *)
Definition other_symbol (i : nat) : string := String "M" (pretty i).

Definition big_catalog : list MarketInfo :=
  perp "BTC" :: ((fun i => perp (other_symbol i)) <$> seq 1 349).

Definition big_rows : list MarketSample :=
  row "BTC" 0%Q (Some 5%Q)
  :: ((fun i => row (other_symbol i) (inject_Z (Z.of_nat i)) (Some 5%Q)) <$> seq 1 349).

(** The eligibility test for promotion as the specification words it:
    [rank <= 100] and the spread present and at most 15. *)
Definition spec_eligible (rank : Z) (spread_bps : option Q) : bool :=
  (rank <=? 100) &&
  match spread_bps with
  | Some s => Qle_bool s SPREAD_BPS_NO_A_THRESHOLD
  | None => false
  end.

(** [v] occurs in [S] and is strictly greater than every other element. *)
Definition strict_maximum_of (v : Q) (S : list Q) : Prop :=
  exists l1 l2, S = l1 ++ v :: l2 /\ Forall (fun s => (s < v)%Q) (l1 ++ l2).

(** The entries the scoring loop adds for one item of [market_data]. *)
Definition initial_ranking (volumes ois spreads : list Q) (item : string * MarketSample)
    : string * MarketRanking :=
  (item.1,
   mkMarketRanking item.1 0 (sample_score volumes ois spreads item.2)
     (volume_24h_usd item.2) (open_interest_usd item.2) (spread_bps item.2)).

Definition scored (volumes ois spreads : list Q) (item : string * MarketSample)
    : string * Q :=
  (item.1, sample_score volumes ois spreads item.2).

(** [market_scores] before and after the sort, for a given [market_data]. *)
Definition market_scores_of (market_data : list (string * MarketSample))
    : list (string * Q) :=
  scored (collect_present volume_24h_usd (snd <$> market_data))
         (collect_present open_interest_usd (snd <$> market_data))
         (collect_present spread_bps (snd <$> market_data)) <$> market_data.

Definition sorted_scores (market_data : list (string * MarketSample)) : list (string * Q) :=
  stable_sort score_before (market_scores_of market_data).

(** Whether a market is due at [now_ms] under the schedules of [st], and
    what selecting it does to its schedule. *)
Definition due_now (now_ms : Z) (st : Collector) (market : MarketInfo) : bool :=
  match schedules st !! symbol_raw market with
  | None => true
  | Some schedule => next_due_ms schedule <=? now_ms
  end.

Definition advance_if_due (now_ms : Z) (schedule : MarketSchedule) : MarketSchedule :=
  if next_due_ms schedule <=? now_ms
  then mkMarketSchedule (s_symbol_raw schedule) (level schedule)
         (now_ms + interval_ms schedule) (interval_ms schedule)
  else schedule.

(** The distinct elements of [l] that are not in [seen], in the order of
    their first occurrence. *)
Fixpoint first_seen (seen l : list string) : list string :=
  match l with
  | [] => []
  | k :: l' =>
      if bool_decide (k ∈ seen) then first_seen seen l'
      else k :: first_seen (seen ++ [k]) l'
  end.

Definition query_rows (q : QueryResult) : list MarketSample :=
  match q with
  | QueryRaised => []
  | QueryRows latest_samples => latest_samples
  end.

(** A stored perp sample taken at [ts], with the given volume and spread. *)
Definition row_at (ts : Z) (sym : string) (volume : Q) (spread : option Q) : MarketSample :=
  mkMarketSample ts sym "USD" PERP "USDC" sym None None None spread None None None
    (Some volume) LvD None false.

(** What the fallback does to the schedule of a safety asset. *)
Definition lift_to_B (sym : string) (sc : MarketSchedule) : MarketSchedule :=
  match level sc with
  | LvA | LvB => sc
  | _ => mkMarketSchedule sym LvB 0 LEVEL_B_INTERVAL_MS
  end.

(** Whether the catalog lists a safety asset under the symbol [sym]. *)
Definition safety_symbol (ms : list MarketInfo) (sym : string) : bool :=
  existsb (fun m => is_safety_asset m && String.eqb (symbol_raw m) sym) ms.


(** ** Further views used by the statements *)

(** The demotion test of the loop body:
    [rank > 120], or [spread_bps is not None and spread_bps > 20]. *)
Definition demotion_condition (rank : Z) (spread_bps : option Q) : bool :=
  (120 <? rank) || match spread_bps with Some s => Qgtb s 20%Q | None => false end.

(** Every schedule entry is stored under its own symbol and carries the
    interval of its level. *)
Definition map_wf (m : gmap string MarketSchedule) : Prop :=
  forall k sc, m !! k = Some sc ->
    s_symbol_raw sc = k /\ interval_ms sc = _get_interval_for_level (level sc).

Definition schedules_wf (st : Collector) : Prop := map_wf (schedules st).


(** The sampling part of a tick of [run]: [collect_sample] for every due
    market (each with the clock reading and the snapshot it gets), then
    [add_to_buffer] for every sample that came back, in the order of the
    due list. *)
Definition gather_step (acc : Collector * list (option MarketSample))
    (task : Z * MarketInfo * Snapshot) : Collector * list (option MarketSample) :=
  let '(now_ms, market, snapshot) := task in
  let r := collect_sample now_ms market snapshot acc.1 in
  (r.2, acc.2 ++ [r.1]).

Definition buffer_step (st : Collector) (sample : option MarketSample) : Collector :=
  match sample with
  | Some s => add_to_buffer s st
  | None => st
  end.

Definition collect_due (tasks : list (Z * MarketInfo * Snapshot)) (st : Collector)
    : Collector :=
  match tasks with
  | [] => st
  | _ =>
      let gathered := fold_left gather_step tasks (st, []) in
      fold_left buffer_step gathered.2 gathered.1
  end.

Definition is_rejected (r : option MarketSample) : bool :=
  match r with Some _ => false | None => true end.


(** ** Retention and status *)

(** [int(x)] on a float: truncation toward zero. *)
Definition py_int (x : Q) : Z := Z.quot (Qnum x) (Z.pos (Qden x)).

(** [int((now - 24 * 3600) * 1000)] *)
Definition cutoff_24h_ms (now : Q) : Z := py_int ((now - 24 * 3600) * 1000)%Q.

(** The outcome of the delete statement and its commit. *)
Inductive DeleteOutcome := Deleted | DeleteRaised.

(** [cleanup_old_data]: [now] is [time.time()], [last_cleanup_time] the
    field of that name and [db] the table; the result is the new value of
    the field and the table afterwards. *)
Definition cleanup_old_data (now cleanup_sec : Q) (outcome : DeleteOutcome)
    (last_cleanup_time : Q) (db : list MarketSample) : Q * list MarketSample :=
  if Qltb (now - last_cleanup_time)%Q cleanup_sec then (last_cleanup_time, db)
  else
    let cutoff_ms := cutoff_24h_ms now in
    match outcome with
    | Deleted => (now, List.filter (fun s => negb (ts_ms s <? cutoff_ms)) db)
    | DeleteRaised => (now, db)
    end.

(** The count query of [get_db_rows_24h] at time [now] against a table that
    answers. *)
Definition count_query_24h (now : Q) (db : list MarketSample) : nat -> Attempt Z :=
  fun _ =>
    Returned (Z.of_nat (length (List.filter (fun s => cutoff_24h_ms now <=? ts_ms s) db))).


(** A row of the leaderboard document. *)
Record LeaderboardRow := mkLeaderboardRow {
  lb_symbol_raw : string;
  lb_rank : Z;
  lb_score : Q;
  lb_level : Level
}.

(** [sorted(..., key=lambda r: r.rank)]: the lower rank goes first. *)
Definition rank_before (y x : MarketRanking) : bool := rank y <? rank x.

Definition top_400 (st : Collector) : list LeaderboardRow :=
  (fun r =>
     mkLeaderboardRow (r_symbol_raw r) (rank r) (score r)
       (level (default (mkMarketSchedule (r_symbol_raw r) LvD 0 0)
                       (schedules st !! r_symbol_raw r))))
  <$> take 400 (stable_sort rank_before (snd <$> rankings st)).

Definition truncated (st : Collector) : bool :=
  400 <? Z.of_nat (length (rankings st)).


(** ** Views of the retry helper *)


(** The attempt raised an error that [_retry_on_lock] takes for a lock. *)
Definition raises_locked {X : Type} (a : Attempt X) : bool :=
  match a with
  | Raised msg => is_locked_error msg
  | Returned _ => false
  end.


(** ** Insert metrics with their timings

    [SampleMetrics] with the deque of insert durations that the collector
    record above leaves out. *)
Module SampleMetrics.

Record t := mk {
  rows_inserted : Z;
  inserts_count : Z;
  insert_times : list Q
}.

(** [deque(maxlen=n).append(x)]: the oldest entries give way. *)
Definition deque_append (maxlen : nat) (d : list Q) (x : Q) : list Q :=
  drop (length (d ++ [x]) - maxlen) (d ++ [x]).

Definition record_insert (rows : Z) (duration : Q) (m : t) : t :=
  mk (rows_inserted m + rows) (inserts_count m + 1)
     (deque_append 100 (insert_times m) duration).

(** [sum(xs)] *)
Definition py_sum (xs : list Q) : Q := fold_left Qplus xs 0%Q.

Definition get_inserts_per_sec_avg (m : t) : Q :=
  match insert_times m with
  | [] => 0%Q
  | _ =>
      let total_rows :=
        py_sum ((fun ti =>
                   ti * (inject_Z (rows_inserted m) / inject_Z (Z.max (inserts_count m) 1)))%Q
                <$> insert_times m) in
      let total_time := py_sum (insert_times m) in
      if Qeq_bool total_time 0 then 0%Q
      else if Qgtb total_rows 0 then (total_rows / total_time)%Q else 0%Q
  end.

End SampleMetrics.


(** ** Snapshot export *)

(** [func.min(ts_ms)] and [func.max(ts_ms)] over the table; [None] on an
    empty table. *)
Definition min_ts (db : list MarketSample) : option Z :=
  match db with
  | [] => None
  | s :: db' => Some (fold_left (fun m x => Z.min m (ts_ms x)) db' (ts_ms s))
  end.

Definition max_ts (db : list MarketSample) : option Z :=
  match db with
  | [] => None
  | s :: db' => Some (fold_left (fun m x => Z.max m (ts_ms x)) db' (ts_ms s))
  end.

(** How [export_universe_snapshot] goes on after reading the two bounds. *)
Inductive ExportGate :=
  | SkippedNoData
  | SkippedWindowTooSmall (window_hours : Q)
  | Exporting (cutoff_24h_ms : Z) (window_hours : Q).

Definition export_gate (min_ts_ms max_ts_ms : option Z) (force : bool)
    (min_window_hours : Q) : ExportGate :=
  match min_ts_ms, max_ts_ms with
  | Some mn, Some mx =>
      let window_ms := mx - mn in
      let window_hours := (inject_Z window_ms / 3600000)%Q in
      if negb force && Qltb window_hours min_window_hours
      then SkippedWindowTooSmall window_hours
      else Exporting (mx - 24 * 3600 * 1000) window_hours
  | _, _ => SkippedNoData
  end.

(** [query.offset(offset).limit(limit).all()] on a query whose result is
    [result] each time it is run. *)
Definition query_page (result : list MarketSample) (offset limit : nat)
    : list MarketSample :=
  take limit (drop offset result).

(** The chunk loop of [_export_raw_csv]; [written] are the rows written so
    far, [fuel] bounds the number of rounds. *)
Fixpoint export_chunks (chunk_size fuel : nat) (result : list MarketSample)
    (offset : nat) (written : list MarketSample) : option (list MarketSample) :=
  match fuel with
  | O => None
  | S fuel' =>
      match query_page result offset chunk_size with
      | [] => Some written
      | chunk =>
          if (length chunk <? chunk_size)%nat then Some (written ++ chunk)
          else export_chunks chunk_size fuel' result (offset + chunk_size) (written ++ chunk)
      end
  end.

(** The rows [_export_raw_csv] writes, for the result of its query. *)
Definition _export_raw_csv (fuel : nat) (result : list MarketSample)
    : option (list MarketSample) :=
  export_chunks 1000 fuel result 0 [].

(** ** The report of the export *)

(** [x is None] *)
Definition is_none {A : Type} (x : option A) : bool :=
  match x with None => true | Some _ => false end.

(** [null_counts[field] += 1] on a [defaultdict(int)] *)
Definition bump (field : string) (null_counts : gmap string Z) : gmap string Z :=
  <[field := counter_get null_counts field + 1]> null_counts.

Definition bump_if (missing : bool) (field : string) (null_counts : gmap string Z)
    : gmap string Z :=
  if missing then bump field null_counts else null_counts.

(** The body of the loop over the samples in [_calculate_report_metrics]. *)
Definition null_step (null_counts : gmap string Z) (sample : MarketSample)
    : gmap string Z :=
  let c1 := bump_if (is_none (bid sample)) "bid" null_counts in
  let c2 := bump_if (is_none (ask sample)) "ask" c1 in
  let c3 := bump_if (is_none (mid sample)) "mid" c2 in
  let c4 := bump_if (is_none (spread_bps sample)) "spread_bps" c3 in
  let c5 := bump_if (is_none (volume_24h_usd sample)) "volume_24h_usd" c4 in
  let c6 := bump_if (is_none (open_interest_usd sample)) "open_interest_usd" c5 in
  bump_if (is_none (funding_rate sample)) "funding_rate" c6.

Definition null_counts (samples : list MarketSample) : gmap string Z :=
  fold_left null_step samples ∅.

(** [{field: (count / total if total > 0 else 0.0) for field, count in
    null_counts.items()}] *)
Definition null_rates (samples : list MarketSample) : gmap string Q :=
  let total := Z.of_nat (length samples) in
  (fun count => if 0 <? total then (inject_Z count / inject_Z total)%Q else 0%Q)
  <$> null_counts samples.

(** The column a report field stands for. *)
Definition column (field : string) (sample : MarketSample) : option (option Q) :=
  if String.eqb field "bid" then Some (bid sample)
  else if String.eqb field "ask" then Some (ask sample)
  else if String.eqb field "mid" then Some (mid sample)
  else if String.eqb field "spread_bps" then Some (spread_bps sample)
  else if String.eqb field "volume_24h_usd" then Some (volume_24h_usd sample)
  else if String.eqb field "open_interest_usd" then Some (open_interest_usd sample)
  else if String.eqb field "funding_rate" then Some (funding_rate sample)
  else None.

(** The sample has no value in the column of [field]. *)
Definition lacks (field : string) (sample : MarketSample) : bool :=
  match column field sample with
  | Some None => true
  | _ => false
  end.

(** ** One tick of the loop of [run], from sampling to flush

    [tasks] are the due markets with the clock reading and the snapshot
    each gets; the loop is the only producer, so nothing arrives in the
    buffer during the insert. *)
Definition sample_and_flush (tasks : list (Z * MarketInfo * Snapshot))
    (outcome : InsertOutcome) (st : Collector) (db : list MarketSample)
    : Collector * list MarketSample :=
  let st1 := collect_due tasks st in
  let buffer_size := Z.of_nat (length (buffer st1)) in
  if 50 <=? buffer_size then
    let r := flush_buffer outcome [] st1 db in (r.1.2, r.2)
  else (st1, db).

(** * Properties *)

(** ** The level machine, one market at a time *)

Lemma dict_mem_false_keys {V : Type} (d : list (string * V)) (k : string) :
  dict_mem d k = false <-> k ∉ dict_keys d.
Proof.
  unfold dict_mem, dict_keys. induction d as [|[k' v] d IH]; simpl.
  - split; [intros _; apply not_elem_of_nil | done].
  - rewrite not_elem_of_cons. destruct (String.eqb k' k) eqn:E.
    + apply String.eqb_eq in E. split; [done | intros [Hne _]; congruence].
    + apply String.eqb_neq in E. rewrite IH.
      split; [intros; split; [congruence | done] | tauto].
Qed.

(** An iteration for another symbol leaves a market's state alone. *)
Lemma hysteresis_step_other (ls : LoopState) (item : string * MarketRanking) (sym : string) :
  item.1 ≠ sym ->
  market_state (ls_st (hysteresis_step ls item)) sym = market_state (ls_st ls) sym.
Proof.
  destruct item as [k r]; simpl; intros Hne.
  unfold hysteresis_step, promotion_branch, demotion_branch, direct_branch, market_state.
  repeat case_match; simplify_eq/=; rewrite ?lookup_insert_ne by done; done.
Qed.

Lemma fold_hysteresis_other (rks : list (string * MarketRanking)) (ls : LoopState)
    (sym : string) :
  sym ∉ dict_keys rks ->
  market_state (ls_st (fold_left hysteresis_step rks ls)) sym = market_state (ls_st ls) sym.
Proof.
  revert ls. induction rks as [|item rks IH]; intros ls Hnot; simpl; [done|].
  unfold dict_keys in Hnot. simpl in Hnot. apply not_elem_of_cons in Hnot as [Hne Hnot].
  rewrite IH; [|done]. apply hysteresis_step_other. congruence.
Qed.

(** An iteration for a symbol reads and writes that symbol's state only. *)
Lemma hysteresis_step_local (ls1 ls2 : LoopState) (sym : string) (r : MarketRanking) :
  market_state (ls_st ls1) sym = market_state (ls_st ls2) sym ->
  market_state (ls_st (hysteresis_step ls1 (sym, r))) sym
  = market_state (ls_st (hysteresis_step ls2 (sym, r))) sym.
Proof.
  unfold market_state. intros H. injection H as Hs Hp Hd.
  unfold hysteresis_step, promotion_branch, demotion_branch, direct_branch,
    current_level_of, counter_get.
  simpl. rewrite !lookup_insert_eq, Hs, Hp, Hd.
  repeat case_match; simplify_eq/=; rewrite ?lookup_insert_eq, ?Hs, ?Hp, ?Hd; done.
Qed.

Lemma fold_hysteresis_at (rks : list (string * MarketRanking)) (sym : string)
    (r : MarketRanking) (ls : LoopState) :
  NoDup (dict_keys rks) -> (sym, r) ∈ rks ->
  market_state (ls_st (fold_left hysteresis_step rks ls)) sym
  = market_state (ls_st (hysteresis_step ls (sym, r))) sym.
Proof.
  revert ls. induction rks as [|[k r'] rks IH]; intros ls Hnd Hin; simpl.
  - by apply elem_of_nil in Hin.
  - unfold dict_keys in Hnd; simpl in Hnd. apply NoDup_cons in Hnd as [Hk Hnd].
    apply elem_of_cons in Hin as [Heq | Hin].
    + injection Heq as -> ->. by apply fold_hysteresis_other.
    + assert (k ≠ sym) as Hne.
      { intros ->. apply Hk. change sym with (fst (sym, r)).
        by apply list_elem_of_fmap_2. }
      rewrite IH by done. apply hysteresis_step_local.
      by apply (hysteresis_step_other ls (k, r') sym).
Qed.

(** A whole pass acts on a ranked market as one iteration from the state
    before the pass. *)
Lemma update_levels_at (now : Q) (rks : list (string * MarketRanking)) (st : Collector)
    (sym : string) (r : MarketRanking) :
  NoDup (dict_keys rks) -> (sym, r) ∈ rks ->
  market_state (_update_levels_with_hysteresis now rks st) sym
  = market_state (ls_st (hysteresis_step (mkLoop st [] []) (sym, r))) sym.
Proof.
  intros Hnd Hin. unfold _update_levels_with_hysteresis.
  match goal with
  | |- context [fold_left hysteresis_step rks ?l] =>
      transitivity (market_state (ls_st (fold_left hysteresis_step rks l)) sym);
      [done | rewrite (fold_hysteresis_at rks sym r l Hnd Hin)]
  end.
  apply hysteresis_step_local. by case_match.
Qed.

Lemma counter_get_insert (m : gmap string Z) (k : string) (v : Z) :
  counter_get (<[k := v]> m) k = v.
Proof. unfold counter_get. by rewrite lookup_insert_eq. Qed.

(** One pass over a ranked market that is not at level A (an unscheduled
    market counts as D): the schedule changes only by a promotion to A, on
    the pass that takes the counter to 3. *)
Lemma non_A_cycle (now : Q) (rks : list (string * MarketRanking)) (st : Collector)
    (sym : string) (r : MarketRanking) :
  NoDup (dict_keys rks) -> (sym, r) ∈ rks ->
  current_level_of st sym ≠ LvA ->
  let st' := _update_levels_with_hysteresis now rks st in
  let c := counter_get (promotion_counters st) sym in
  if promotion_condition (rank r) (r_spread_bps r) then
    if 3 <=? c + 1 then
      schedules st' !! sym = Some (mkMarketSchedule sym LvA 0 LEVEL_A_INTERVAL_MS)
      /\ promotion_counters st' !! sym = Some 0
    else
      schedules st' !! sym = schedules st !! sym
      /\ promotion_counters st' !! sym = Some (c + 1)
  else
    schedules st' !! sym = schedules st !! sym
    /\ promotion_counters st' !! sym = Some 0.
Proof.
  intros Hnd Hin Hlvl. simpl.
  pose proof (update_levels_at now rks st sym r Hnd Hin) as H.
  unfold market_state in H. injection H as Hs Hp _.
  rewrite Hs, Hp. clear Hs Hp.
  unfold hysteresis_step; simpl.
  destruct (current_level_of st sym) eqn:El; [done | | |]; simpl;
    unfold promotion_branch; simpl;
    (destruct (promotion_condition (rank r) (r_spread_bps r)); simpl;
     [ rewrite counter_get_insert;
       destruct (3 <=? counter_get (promotion_counters st) sym + 1); simpl;
       rewrite ?lookup_insert_eq; done
     | rewrite lookup_insert_eq; done ]).
Qed.

(** C10: a market whose symbol is not a key of the rankings map keeps its
    schedule entry, its promotion counter and its demotion counter through
    [_update_levels_with_hysteresis]; its streaks are not reset. *)
Theorem unranked_market_untouched (now : Q) (rks : list (string * MarketRanking))
    (st : Collector) (sym : string) :
  dict_mem rks sym = false ->
  let st' := _update_levels_with_hysteresis now rks st in
  schedules st' !! sym = schedules st !! sym
  /\ promotion_counters st' !! sym = promotion_counters st !! sym
  /\ demotion_counters st' !! sym = demotion_counters st !! sym.
Proof.
  intros Hmem. apply dict_mem_false_keys in Hmem. simpl.
  unfold _update_levels_with_hysteresis.
  match goal with
  | |- context [fold_left hysteresis_step rks ?l] =>
      pose proof (fold_hysteresis_other rks l sym Hmem) as H
  end.
  unfold market_state in H. simpl in H.
  assert (forall b : bool, market_state (if b then set_window [] [] now st else st) sym
                           = market_state st sym) as Hw by (by intros []).
  unfold market_state in Hw. rewrite Hw in H. injection H as Hs Hp Hd.
  simpl. by rewrite Hs, Hp, Hd.
Qed.

(** A market with two eligible passes behind it sits out a pass (it is not
    a key of the rankings map) and keeps its counter at 2. *)
Lemma unranked_market_untouched_witness :
  dict_mem (ranked "Y" 1 (Some 5%Q)) "X" = false
  /\ promotion_counters
       (_update_levels_with_hysteresis 0%Q (ranked "Y" 1 (Some 5%Q))
          (cycles 2 (ranked "X" 50 (Some 5%Q)) (scheduled "X" LvB))) !! "X"
     = Some 2.
Proof.
  split; [reflexivity|].
  destruct (unranked_market_untouched 0%Q (ranked "Y" 1 (Some 5%Q))
              (cycles 2 (ranked "X" 50 (Some 5%Q)) (scheduled "X" LvB)) "X" eq_refl)
    as (_ & Hp & _).
  rewrite Hp. vm_compute. reflexivity.
Defined.

(** X3: three passes in a row that meet the promotion test promote a
    market that starts with a clear counter below A, and not before the
    third. *)
Lemma three_passes_promote (now1 now2 now3 : Q)
    (rks1 rks2 rks3 : list (string * MarketRanking)) (st : Collector) (sym : string)
    (r1 r2 r3 : MarketRanking) (sc : MarketSchedule) :
  NoDup (dict_keys rks1) -> NoDup (dict_keys rks2) -> NoDup (dict_keys rks3) ->
  (sym, r1) ∈ rks1 -> (sym, r2) ∈ rks2 -> (sym, r3) ∈ rks3 ->
  promotion_condition (rank r1) (r_spread_bps r1) = true ->
  promotion_condition (rank r2) (r_spread_bps r2) = true ->
  promotion_condition (rank r3) (r_spread_bps r3) = true ->
  schedules st !! sym = Some sc -> level sc ≠ LvA ->
  counter_get (promotion_counters st) sym = 0 ->
  let st1 := _update_levels_with_hysteresis now1 rks1 st in
  let st2 := _update_levels_with_hysteresis now2 rks2 st1 in
  let st3 := _update_levels_with_hysteresis now3 rks3 st2 in
  schedules st1 !! sym = Some sc
  /\ schedules st2 !! sym = Some sc
  /\ schedules st3 !! sym = Some (mkMarketSchedule sym LvA 0 LEVEL_A_INTERVAL_MS)
  /\ promotion_counters st3 !! sym = Some 0.
Proof.
  intros Hn1 Hn2 Hn3 Hi1 Hi2 Hi3 He1 He2 He3 Hsc Hlvl Hc. cbv zeta.
  assert (forall st', schedules st' !! sym = Some sc -> current_level_of st' sym ≠ LvA) as Hcur.
  { intros st' Hs. unfold current_level_of. by rewrite Hs. }
  pose proof (non_A_cycle now1 rks1 st sym r1 Hn1 Hi1 (Hcur _ Hsc)) as H1.
  cbv zeta in H1. rewrite He1, Hc in H1.
  change (3 <=? 0 + 1) with false in H1. cbv iota in H1. destruct H1 as [Hs1 Hp1].
  rewrite Hsc in Hs1.
  set (st1 := _update_levels_with_hysteresis now1 rks1 st) in *.
  assert (counter_get (promotion_counters st1) sym = 1) as Hc1.
  { unfold counter_get. by rewrite Hp1. }
  pose proof (non_A_cycle now2 rks2 st1 sym r2 Hn2 Hi2 (Hcur _ Hs1)) as H2.
  cbv zeta in H2. rewrite He2, Hc1 in H2.
  change (3 <=? 1 + 1) with false in H2. cbv iota in H2.
  destruct H2 as [Hs2 Hp2]. rewrite Hs1 in Hs2.
  set (st2 := _update_levels_with_hysteresis now2 rks2 st1) in *.
  assert (counter_get (promotion_counters st2) sym = 2) as Hc2.
  { unfold counter_get. by rewrite Hp2. }
  pose proof (non_A_cycle now3 rks3 st2 sym r3 Hn3 Hi3 (Hcur _ Hs2)) as H3.
  cbv zeta in H3. rewrite He3, Hc2 in H3.
  change (3 <=? 2 + 1) with true in H3. cbv iota in H3.
  done.
Qed.

(** The three-way test of the loop body never reaches its last branch: a
    level is either different from ["A"] or equal to it. *)
Lemma hysteresis_step_two_way (ls : LoopState) (sym : string) (r : MarketRanking) :
  hysteresis_step ls (sym, r)
  = if negb (level_eqb (current_level_of (ls_st ls) sym) LvA)
    then promotion_branch ls sym (current_level_of (ls_st ls) sym) (rank r) (r_spread_bps r)
    else demotion_branch ls sym (current_level_of (ls_st ls) sym) (rank r) (r_spread_bps r).
Proof.
  unfold hysteresis_step. by destruct (current_level_of (ls_st ls) sym).
Qed.

(** C1: the direct rank mapping is not applied to a ranked market at a
    non-A level. A market at level D with rank 150 and spread 5, which the
    mapping sends to B, still holds level D, with its schedule entry
    untouched, after the pass. *)
Theorem level_D_rank_150_stays_D :
  let st := scheduled "X" LvD in
  let st' := _update_levels_with_hysteresis 0%Q (ranked "X" 150 (Some 5%Q)) st in
  _assign_level_from_rank "X" 150 (Some 5%Q) = LvB
  /\ schedules st' !! "X" = schedules st !! "X"
  /\ level <$> schedules st' !! "X" = Some LvD.
Proof. vm_compute. done. Qed.

(** C2: a market at level B with rank 50 whose spread is missing is not
    eligible in the sense of the specification, yet the promotion test
    counts each of its passes and the third pass promotes it to A at
    250 ms. *)
Theorem missing_spread_promoted_on_third_pass :
  let rks := ranked "X" 50 None in
  let st := scheduled "X" LvB in
  spec_eligible 50 None = false
  /\ promotion_condition 50 None = true
  /\ market_state (cycles 1 rks st) "X"
     = (Some (mkMarketSchedule "X" LvB 0 2000), Some 1, None)
  /\ market_state (cycles 2 rks st) "X"
     = (Some (mkMarketSchedule "X" LvB 0 2000), Some 2, None)
  /\ market_state (cycles 3 rks st) "X"
     = (Some (mkMarketSchedule "X" LvA 0 250), Some 0, None).
Proof. vm_compute. done. Qed.

(** ** Fallback safety *)

Lemma fallback_step_schedules (st : Collector) (m : MarketInfo) (sym : string) :
  schedules (fallback_step st m) !! sym
  = if is_safety_asset m && String.eqb (symbol_raw m) sym
    then lift_to_B sym <$> schedules st !! sym
    else schedules st !! sym.
Proof.
  unfold fallback_step, lift_to_B.
  destruct (is_safety_asset m); simpl; [|done].
  destruct (String.eqb (symbol_raw m) sym) eqn:E.
  - apply String.eqb_eq in E. subst sym.
    destruct (schedules st !! symbol_raw m) as [sc|] eqn:Es; simpl; [|by rewrite Es].
    destruct (level sc); simpl; rewrite ?lookup_insert_eq, ?Es; done.
  - apply String.eqb_neq in E.
    destruct (schedules st !! symbol_raw m) as [sc|]; [|done].
    destruct (level sc); simpl; rewrite ?lookup_insert_ne by done; done.
Qed.

Lemma lift_to_B_idem (sym : string) (sc : MarketSchedule) :
  lift_to_B sym (lift_to_B sym sc) = lift_to_B sym sc.
Proof. unfold lift_to_B. by destruct (level sc) eqn:E; simpl; rewrite ?E. Qed.

Lemma fallback_fold_schedules (ms : list MarketInfo) (st : Collector) (sym : string) :
  schedules (fold_left fallback_step ms st) !! sym
  = if safety_symbol ms sym
    then lift_to_B sym <$> schedules st !! sym
    else schedules st !! sym.
Proof.
  revert st. induction ms as [|m ms IH]; intros st; simpl; [done|].
  rewrite IH, fallback_step_schedules.
  destruct (is_safety_asset m && String.eqb (symbol_raw m) sym); simpl; [|done].
  destruct (safety_symbol ms sym); [|done].
  destruct (schedules st !! sym) as [sc|]; simpl; [|done].
  by rewrite lift_to_B_idem.
Qed.

(** The floor the fallback does enforce: a safety asset that has a schedule
    entry holds A or B afterwards; an entry at C or D becomes exactly the
    B entry, an entry at A or B is kept. An asset without an entry gets
    none. *)
Lemma fallback_floor (rks : list (string * MarketRanking)) (st : Collector)
    (m : MarketInfo) :
  m ∈ markets st -> is_safety_asset m = true ->
  match schedules st !! symbol_raw m with
  | Some sc =>
      exists sc', schedules (_apply_fallback_safety rks st) !! symbol_raw m = Some sc'
        /\ (level sc' = LvA \/ level sc' = LvB)
        /\ (level sc = LvA \/ level sc = LvB -> sc' = sc)
        /\ (level sc = LvC \/ level sc = LvD ->
            sc' = mkMarketSchedule (symbol_raw m) LvB 0 LEVEL_B_INTERVAL_MS)
  | None => schedules (_apply_fallback_safety rks st) !! symbol_raw m = None
  end.
Proof.
  intros Hin Hsafe. unfold _apply_fallback_safety. rewrite fallback_fold_schedules.
  assert (safety_symbol (markets st) (symbol_raw m) = true) as ->.
  { unfold safety_symbol. apply existsb_exists. exists m.
    split; [by apply list_elem_of_In|]. by rewrite Hsafe, String.eqb_refl. }
  destruct (schedules st !! symbol_raw m) as [sc|]; simpl; [|done].
  exists (lift_to_B (symbol_raw m) sc). split; [done|].
  unfold lift_to_B. destruct (level sc) eqn:E; simpl; rewrite ?E;
    repeat split; auto; intros [?|?]; congruence.
Qed.

(** C3: safety assets without a schedule entry are not lifted to B by a
    refresh. BTC ranked 350 gets level D; BTC absent from the rankings map
    gets level D; under an empty rankings map BTC is left without any
    schedule. *)
Theorem safety_asset_without_schedule_not_lifted :
  is_safety_asset (perp "BTC") = true
  /\ rank <$> dict_get (_calculate_rankings (QueryRows big_rows)) "BTC" = Some 350
  /\ level <$> schedules (_refresh_rankings 0%Q (QueryRows big_rows)
                            (with_markets big_catalog empty_collector)) !! "BTC"
     = Some LvD
  /\ level <$> schedules (_refresh_rankings 0%Q (QueryRows [row "ETH" 1%Q (Some 5%Q)])
                            (with_markets [perp "BTC"; perp "ETH"] empty_collector)) !! "BTC"
     = Some LvD
  /\ schedules (_refresh_rankings 0%Q QueryRaised
                  (with_markets [perp "BTC"; perp "ETH"] empty_collector)) !! "BTC"
     = None.
Proof. vm_compute. done. Qed.

(** ** Sorting keeps the elements *)

Section StableSortFacts.
Context {T : Type} (before : T -> T -> bool).

Lemma sort_insert_perm (x : T) (l : list T) : sort_insert before x l ≡ₚ x :: l.
Proof.
  induction l as [|y l IH]; simpl; [done|].
  destruct (before y x); [|done].
  rewrite IH. apply Permutation_swap.
Qed.

Lemma stable_sort_perm (l : list T) : stable_sort before l ≡ₚ l.
Proof.
  induction l as [|x l IH]; simpl; [done|].
  by rewrite sort_insert_perm, IH.
Qed.
End StableSortFacts.

(** ** Percentile rank *)

Lemma count_if_perm {T : Type} (p : T -> bool) (l1 l2 : list T) :
  l1 ≡ₚ l2 -> count_if p l1 = count_if p l2.
Proof. induction 1; simpl; lia. Qed.

Lemma count_if_ext {T : Type} (p q : T -> bool) (l : list T) :
  (forall x, p x = q x) -> count_if p l = count_if q l.
Proof. intros H. induction l as [|x l IH]; simpl; [done|]. by rewrite H, IH. Qed.

Lemma count_if_app {T : Type} (p : T -> bool) (l1 l2 : list T) :
  count_if p (l1 ++ l2) = count_if p l1 + count_if p l2.
Proof. induction l1 as [|x l1 IH]; simpl; lia. Qed.

Lemma count_if_all {T : Type} (p : T -> bool) (l : list T) :
  Forall (fun x => p x = true) l -> count_if p l = Z.of_nat (length l).
Proof. induction 1 as [|x l Hx _ IH]; simpl; [done|]. rewrite Hx, IH. lia. Qed.

Lemma count_if_none {T : Type} (p : T -> bool) (l : list T) :
  Forall (fun x => p x = false) l -> count_if p l = 0.
Proof. induction 1 as [|x l Hx _ IH]; simpl; [done|]. rewrite Hx, IH. lia. Qed.

Lemma Qltb_lt (x y : Q) : Qltb x y = true <-> (x < y)%Q.
Proof.
  unfold Qltb. rewrite negb_true_iff. split.
  - intros H. apply Qnot_le_lt. intros Hle. apply Qle_bool_iff in Hle. congruence.
  - intros H. destruct (Qle_bool y x) eqn:E; [|done].
    apply Qle_bool_iff in E. by apply Qlt_not_le in H.
Qed.

Lemma Qgtb_gt (x y : Q) : Qgtb x y = true <-> (y < x)%Q.
Proof. apply (Qltb_lt y x). Qed.

(** The result in terms of the list as given: sorting changes no count. *)
Lemma percentile_rank_unfold (v : Q) (S : list Q) :
  S ≠ [] ->
  _calculate_percentile_rank v S
  = ((inject_Z (count_if (fun s => Qltb s v) S)
      + inject_Z (count_if (fun s => Qeq_bool s v) S) / 2)
     / inject_Z (Z.of_nat (length S)))%Q.
Proof.
  intros Hne. destruct S as [|x S]; [done|].
  unfold _calculate_percentile_rank.
  rewrite !(count_if_perm _ _ _ (stable_sort_perm Qltb (x :: S))).
  by rewrite (Permutation_length (stable_sort_perm Qltb (x :: S))).
Qed.

(** C4, as the code has it: for [v] an element of [S] the percentile is
    [(count(s < v) + count(s == v)/2) / |S|]; equal values get the same
    percentile; and when [v] is strictly greater than every other element
    the percentile is [(|S| - 1/2) / |S|], which is below 1. *)
Theorem percentile_rank_mid_rank (v : Q) (S : list Q) :
  v ∈ S ->
  (_calculate_percentile_rank v S
   == (inject_Z (count_if (fun s => Qltb s v) S)
       + inject_Z (count_if (fun s => Qeq_bool s v) S) / 2)
      / inject_Z (Z.of_nat (length S)))%Q
  /\ (forall w, w ∈ S -> (w == v)%Q ->
      (_calculate_percentile_rank w S == _calculate_percentile_rank v S)%Q)
  /\ (strict_maximum_of v S ->
      (_calculate_percentile_rank v S
       == (inject_Z (Z.of_nat (length S)) - 1 / 2) / inject_Z (Z.of_nat (length S)))%Q
      /\ (_calculate_percentile_rank v S < 1)%Q).
Proof.
  intros Hin.
  assert (S ≠ []) as Hne by (intros ->; by apply elem_of_nil in Hin).
  split; [by rewrite percentile_rank_unfold|]. split.
  - intros w _ Hwv. rewrite !percentile_rank_unfold by done.
    rewrite (count_if_ext (fun s => Qltb s w) (fun s => Qltb s v)),
            (count_if_ext (fun s => Qeq_bool s w) (fun s => Qeq_bool s v)); [done| |].
    + intros s. by rewrite Hwv.
    + intros s. unfold Qltb. by rewrite Hwv.
  - intros (l1 & l2 & -> & Hall).
    apply Forall_app in Hall as [H1 H2].
    rewrite percentile_rank_unfold by done.
    set (n := Z.of_nat (length (l1 ++ v :: l2))).
    assert (0 < n) as Hpos by (subst n; rewrite length_app; simpl; lia).
    assert (count_if (fun s => Qltb s v) (l1 ++ v :: l2) = n - 1) as ->.
    { rewrite count_if_app. simpl.
      rewrite !count_if_all.
      - unfold Qltb. rewrite (proj2 (Qle_bool_iff v v) (Qle_refl v)).
        subst n. rewrite length_app. simpl. lia.
      - eapply Forall_impl; [exact H2|]. intros s Hs. by apply Qltb_lt.
      - eapply Forall_impl; [exact H1|]. intros s Hs. by apply Qltb_lt. }
    assert (count_if (fun s => Qeq_bool s v) (l1 ++ v :: l2) = 1) as ->.
    { rewrite count_if_app. simpl. rewrite Qeq_bool_refl.
      rewrite !count_if_none; [lia| |].
      - eapply Forall_impl; [exact H2|]. intros s Hs. simpl.
        destruct (Qeq_bool s v) eqn:E; [|done].
        apply Qeq_bool_iff in E. by apply Qlt_not_eq in Hs.
      - eapply Forall_impl; [exact H1|]. intros s Hs. simpl.
        destruct (Qeq_bool s v) eqn:E; [|done].
        apply Qeq_bool_iff in E. by apply Qlt_not_eq in Hs. }
    assert (0 < inject_Z n)%Q as HposQ.
    { change 0%Q with (inject_Z 0). by rewrite <- Zlt_Qlt. }
    assert (inject_Z (n - 1) + inject_Z 1 / 2 == inject_Z n - 1 / 2)%Q as Heq.
    { unfold Z.sub. rewrite inject_Z_plus, inject_Z_opp.
      change (inject_Z 1) with 1%Q. generalize (inject_Z n). intros q. field. }
    rewrite Heq. split; [reflexivity|].
    apply Qlt_shift_div_r; [done|].
    generalize (inject_Z n). intros q.
    rewrite Qmult_1_l. apply Qlt_minus_iff.
    assert (q + - (q - 1 / 2) == 1 # 2)%Q as -> by field. done.
Qed.

(** A strict maximum of three values gets 5/6. *)
Lemma percentile_rank_mid_rank_witness :
  3%Q ∈ [1%Q; 2%Q; 3%Q]
  /\ (_calculate_percentile_rank 3 [1; 2; 3] == (2 + 1 / 2) / 3)%Q.
Proof.
  assert (3%Q ∈ [1%Q; 2%Q; 3%Q]) as Hin by (repeat constructor).
  split; [exact Hin|].
  exact (proj1 (percentile_rank_mid_rank 3%Q [1%Q; 2%Q; 3%Q] Hin)).
Defined.

(** C4 as stated fails: 3 is strictly greater than every other element of
    [1; 2; 3], and its percentile is 5/6, not 1.0. *)
Lemma percentile_of_strict_maximum_is_not_one :
  strict_maximum_of 3%Q [1%Q; 2%Q; 3%Q]
  /\ (_calculate_percentile_rank 3 [1; 2; 3] == 5 # 6)%Q
  /\ ~ (_calculate_percentile_rank 3 [1; 2; 3] == 1)%Q.
Proof.
  split; [|split].
  - exists [1%Q; 2%Q], []. split; [done|]. by repeat constructor.
  - by vm_compute.
  - by vm_compute.
Qed.

(** ** Sorting orders the elements and is stable *)

Section StableSortOrder.
Context {T : Type} (before : T -> T -> bool).

(** Where [sort_insert] puts the new element: after the longest prefix
    of elements that go strictly ahead of it. *)
Lemma sort_insert_split (x : T) (l : list T) :
  exists l1 l2,
    l = l1 ++ l2 /\ sort_insert before x l = l1 ++ x :: l2
    /\ Forall (fun y => before y x = true) l1
    /\ (forall y, head l2 = Some y -> before y x = false).
Proof.
  induction l as [|y l (l1 & l2 & -> & Hins & Hall & Hhd)]; simpl.
  - exists [], []. by repeat split.
  - destruct (before y x) eqn:E.
    + exists (y :: l1), l2. rewrite Hins. repeat split; [by constructor | done].
    + exists [], (y :: l1 ++ l2). repeat split; [done|].
      intros y' Hy'. simpl in Hy'. by simplify_eq.
Qed.

(** Positions across an insertion. *)
Lemma lookup_insert_middle (l1 l2 : list T) (x : T) (p : nat) (c : T) :
  (l1 ++ l2) !! p = Some c ->
  (l1 ++ x :: l2) !! (if decide (p < length l1)%nat then p else S p) = Some c.
Proof.
  intros H. case_decide as Hp.
  - rewrite lookup_app_l in H by done. by rewrite lookup_app_l.
  - rewrite lookup_app_r in H by lia. rewrite lookup_app_r by lia.
    replace (S p - length l1)%nat with (S (p - length l1)) by lia. done.
Qed.

(** Stability: if [a] stands before [b] in the input and [b] does not go
    strictly ahead of [a], then [a] stands before [b] in the output. *)
Lemma stable_sort_stable (l : list T) (i j : nat) (a b : T) :
  (i < j)%nat -> l !! i = Some a -> l !! j = Some b -> before b a = false ->
  exists i' j', (i' < j')%nat
    /\ stable_sort before l !! i' = Some a /\ stable_sort before l !! j' = Some b.
Proof.
  revert i j. induction l as [|x l IH]; intros i j Hij Ha Hb Hba; [done|].
  simpl. destruct (sort_insert_split x (stable_sort before l))
    as (l1 & l2 & Hsplit & -> & Hall & _).
  destruct j as [|j]; [lia|]. simpl in Hb.
  destruct i as [|i]; simpl in Ha.
  - injection Ha as ->.
    assert (b ∈ l1 ++ l2) as Hin.
    { rewrite <- Hsplit, stable_sort_perm. by eapply list_elem_of_lookup_2. }
    apply list_elem_of_lookup_1 in Hin as [p Hp].
    assert (length l1 <= p)%nat as Hge.
    { destruct (decide (p < length l1)%nat) as [Hlt|]; [|lia].
      rewrite lookup_app_l in Hp by done.
      rewrite Forall_forall in Hall.
      apply list_elem_of_lookup_2, Hall in Hp. congruence. }
    exists (length l1), (S p). split; [lia|]. split.
    + by rewrite list_lookup_middle.
    + pose proof (lookup_insert_middle l1 l2 a p b Hp) as H.
      by rewrite decide_False in H by lia.
  - destruct (IH i j ltac:(lia) Ha Hb Hba) as (i' & j' & Hij' & Hi' & Hj').
    rewrite Hsplit in Hi', Hj'.
    eexists _, _. split; [|split; by eapply lookup_insert_middle].
    repeat case_decide; lia.
Qed.

Hypothesis not_before_trans : forall a b c,
  before b a = false -> before c b = false -> before c a = false.
Hypothesis before_asym : forall a b, before a b = true -> before b a = false.

(** No element of the output goes strictly ahead of an earlier one. *)
Lemma stable_sort_sorted (l : list T) :
  StronglySorted (fun a b => before b a = false) (stable_sort before l).
Proof.
  induction l as [|x l IH]; simpl; [constructor|].
  destruct (sort_insert_split x (stable_sort before l))
    as (l1 & l2 & Hsplit & -> & Hall & Hhd).
  rewrite Hsplit in IH. apply StronglySorted_app in IH as (Hcross & Hs1 & Hs2).
  apply StronglySorted_app. split; [|split; [done|]].
  - intros y1 y2 Hy1 Hy2. apply elem_of_cons in Hy2 as [-> | Hy2]; [|by apply Hcross].
    rewrite Forall_forall in Hall. by apply before_asym, Hall.
  - apply StronglySorted_cons. split; [|done].
    destruct l2 as [|y l2]; [constructor|].
    apply StronglySorted_cons in Hs2 as [Hy _].
    specialize (Hhd y eq_refl).
    constructor; [done|].
    eapply Forall_impl; [exact Hy|]. intros z Hz. simpl in Hz. by eapply not_before_trans.
Qed.

Lemma stable_sort_sorted_lookup (l : list T) (i j : nat) (a b : T) :
  (i < j)%nat -> stable_sort before l !! i = Some a -> stable_sort before l !! j = Some b ->
  before b a = false.
Proof.
  intros Hij Ha Hb. pose proof (stable_sort_sorted l) as Hs.
  rewrite <- (take_drop j (stable_sort before l)) in Hs.
  apply StronglySorted_app in Hs as (Hcross & _ & _).
  apply Hcross.
  - apply list_elem_of_lookup. exists i. rewrite lookup_take_lt; done.
  - apply list_elem_of_lookup. exists 0%nat. rewrite lookup_drop.
    by replace (j + 0)%nat with j by lia.
Qed.
End StableSortOrder.

(** ** Rankings *)

Lemma dict_set_fresh {V : Type} (d : list (string * V)) (k : string) (v : V) :
  k ∉ dict_keys d -> dict_set d k v = d ++ [(k, v)].
Proof.
  unfold dict_keys. induction d as [|[k' v'] d IH]; simpl; intros Hk; [done|].
  apply not_elem_of_cons in Hk as [Hne Hk].
  destruct (String.eqb k' k) eqn:E; [apply String.eqb_eq in E; congruence|].
  by rewrite IH.
Qed.

Lemma group_latest_NoDup (latest_samples : list MarketSample) :
  NoDup (dict_keys (group_latest latest_samples)).
Proof.
  unfold group_latest.
  assert (NoDup (dict_keys ([] : list (string * MarketSample)))) as H by constructor.
  revert H. generalize ([] : list (string * MarketSample)).
  induction latest_samples as [|s rows IH]; intros acc Hacc; simpl; [done|].
  apply IH. destruct (dict_mem acc (m_symbol_raw s)) eqn:E; [done|].
  apply dict_mem_false_keys in E. rewrite dict_set_fresh by done.
  unfold dict_keys in *. rewrite fmap_app. simpl.
  apply NoDup_app. split; [done|]. split; [|apply NoDup_singleton].
  intros k Hk Hk'. apply list_elem_of_singleton in Hk'. by subst.
Qed.

Lemma score_fold (volumes ois spreads : list Q) (market_data : list (string * MarketSample))
    (acc_r : list (string * MarketRanking)) (acc_s : list (string * Q)) :
  NoDup (dict_keys acc_r ++ dict_keys market_data) ->
  fold_left (score_step volumes ois spreads) market_data (acc_r, acc_s)
  = (acc_r ++ (initial_ranking volumes ois spreads <$> market_data),
     acc_s ++ (scored volumes ois spreads <$> market_data)).
Proof.
  revert acc_r acc_s. induction market_data as [|[k smp] md IH]; intros acc_r acc_s Hnd; simpl.
  - by rewrite !app_nil_r.
  - unfold dict_keys in Hnd. simpl in Hnd.
    apply NoDup_app in Hnd as (Hr & Hdisj & Hmd).
    apply NoDup_cons in Hmd as [Hk Hmd].
    assert (k ∉ dict_keys acc_r) as Hfresh.
    { intros Hin. apply (Hdisj k Hin). by left. }
    rewrite dict_set_fresh by done. rewrite IH.
    + unfold initial_ranking, scored. simpl. by rewrite <- !app_assoc.
    + unfold dict_keys. rewrite fmap_app. simpl. rewrite <- app_assoc. simpl.
      apply NoDup_app. split; [done|]. split; [|by apply NoDup_cons].
      intros k' Hk'. apply Hdisj in Hk'. done.
Qed.

Lemma dict_alter_lookup {V : Type} (f : V -> V) (k : string) (d : list (string * V))
    (j : nat) (k' : string) (v' : V) :
  dict_alter f k d !! j = Some (k', v') ->
  exists v, d !! j = Some (k', v) /\ v' = if String.eqb k' k then f v else v.
Proof.
  unfold dict_alter. rewrite list_lookup_fmap.
  destruct (d !! j) as [[k0 v0]|]; simpl; [|done].
  destruct (String.eqb k0 k) eqn:E; intros H; injection H as <- <-;
    exists v0; by rewrite E.
Qed.

Lemma dict_alter_keys {V : Type} (f : V -> V) (k : string) (d : list (string * V)) :
  dict_keys (dict_alter f k d) = dict_keys d.
Proof.
  unfold dict_keys, dict_alter. rewrite <- list_fmap_compose.
  apply list_fmap_ext. intros _ [k' v] _. simpl. by destruct (String.eqb k' k).
Qed.

Lemma assign_ranks_keys (srt : list (string * Q)) (start : Z)
    (rk : list (string * MarketRanking)) :
  dict_keys (assign_ranks srt start rk) = dict_keys rk.
Proof.
  revert start rk. induction srt as [|[k s] srt IH]; intros start rk; simpl; [done|].
  rewrite IH. destruct (dict_mem rk k); [apply dict_alter_keys | done].
Qed.

(** What the rank loop leaves in each slot of the rankings map. *)
Lemma assign_ranks_lookup (srt : list (string * Q)) (start : Z)
    (rk : list (string * MarketRanking)) (j : nat) (k : string) (r' : MarketRanking) :
  NoDup srt.*1 ->
  assign_ranks srt start rk !! j = Some (k, r') ->
  exists r, rk !! j = Some (k, r)
    /\ (forall p s, srt !! p = Some (k, s) -> r' = with_rank (start + Z.of_nat p) r)
    /\ (k ∉ srt.*1 -> r' = r).
Proof.
  revert start rk. induction srt as [|[k0 s0] srt IH]; intros start rk Hnd Hlk; simpl in *.
  - exists r'. split; [done|]. split; [intros p s Hp; by destruct p | done].
  - apply NoDup_cons in Hnd as [Hk0 Hnd].
    apply IH in Hlk as (r1 & Hr1 & Hin & Hout); [|done].
    assert (exists r, rk !! j = Some (k, r)
                      /\ r1 = if String.eqb k k0 then with_rank start r else r)
      as (r & Hr & Hr1eq).
    { destruct (dict_mem rk k0) eqn:Em.
      - by apply dict_alter_lookup in Hr1.
      - exists r1. split; [done|].
        destruct (String.eqb k k0) eqn:E; [|done].
        apply String.eqb_eq in E. subst k0.
        apply dict_mem_false_keys in Em. exfalso. apply Em.
        unfold dict_keys. change k with ((k, r1).1).
        apply list_elem_of_fmap_2. by eapply list_elem_of_lookup_2. }
    exists r. split; [done|]. split.
    + intros [|p] s Hp; simpl in Hp.
      * injection Hp as -> ->. rewrite String.eqb_refl in Hr1eq.
        rewrite (Hout Hk0), Hr1eq. f_equal. lia.
      * assert (k ≠ k0) as Hne.
        { intros ->. apply Hk0. change k0 with ((k0, s).1).
          apply list_elem_of_fmap_2. by eapply list_elem_of_lookup_2. }
        apply String.eqb_neq in Hne. rewrite Hne in Hr1eq. subst r1.
        rewrite (Hin p s Hp). f_equal. lia.
    + intros Hnot. apply not_elem_of_cons in Hnot as [Hne Hnot].
      apply String.eqb_neq in Hne. rewrite Hne in Hr1eq. subst r1. by apply Hout.
Qed.

Lemma NoDup_keys_lookup {V : Type} (d : list (string * V)) (i j : nat) (k : string)
    (v w : V) :
  NoDup d.*1 -> d !! i = Some (k, v) -> d !! j = Some (k, w) -> i = j.
Proof.
  intros Hnd Hi Hj. apply (NoDup_lookup d.*1 i j k Hnd).
  - by rewrite list_lookup_fmap, Hi.
  - by rewrite list_lookup_fmap, Hj.
Qed.

Lemma Qgtb_false (x y : Q) : Qgtb x y = false <-> (x <= y)%Q.
Proof. unfold Qgtb. rewrite negb_false_iff. apply Qle_bool_iff. Qed.

Lemma score_before_not_trans (a b c : string * Q) :
  score_before b a = false -> score_before c b = false -> score_before c a = false.
Proof.
  unfold score_before. rewrite !Qgtb_false. intros H1 H2. by eapply Qle_trans.
Qed.

Lemma score_before_asym (a b : string * Q) :
  score_before a b = true -> score_before b a = false.
Proof.
  unfold score_before. rewrite Qgtb_gt, Qgtb_false. apply Qlt_le_weak.
Qed.

Lemma sorted_scores_keys (md : list (string * MarketSample)) :
  (sorted_scores md).*1 ≡ₚ dict_keys md.
Proof.
  unfold sorted_scores, market_scores_of, dict_keys. rewrite stable_sort_perm.
  rewrite <- list_fmap_compose. done.
Qed.

(** The rank of a market is one more than its position in the sorted
    score list, and its score is the one that was sorted. *)
Lemma rank_market_data_lookup (md : list (string * MarketSample)) (j : nat) (k : string)
    (r' : MarketRanking) :
  NoDup (dict_keys md) ->
  rank_market_data md !! j = Some (k, r') ->
  exists (s : Q) (p : nat),
    market_scores_of md !! j = Some (k, s)
    /\ sorted_scores md !! p = Some (k, s)
    /\ (forall i' s', sorted_scores md !! i' = Some (k, s') -> i' = p)
    /\ rank r' = 1 + Z.of_nat p /\ score r' = s.
Proof.
  intros Hnd. unfold rank_market_data.
  rewrite score_fold by done. simpl.
  fold (market_scores_of md). fold (sorted_scores md).
  assert (NoDup (sorted_scores md).*1) as Hnds by (by rewrite sorted_scores_keys).
  intros Hlk. apply assign_ranks_lookup in Hlk as (r & Hr & Hin & _); [|done].
  rewrite list_lookup_fmap in Hr.
  destruct (md !! j) as [[k0 smp]|] eqn:Emd; simpl in Hr; [|done].
  unfold initial_ranking in Hr. simpl in Hr. injection Hr as -> <-.
  set (sc := sample_score _ _ _ smp) in *.
  assert (market_scores_of md !! j = Some (k, sc)) as Hj.
  { unfold market_scores_of. by rewrite list_lookup_fmap, Emd. }
  assert ((k, sc) ∈ sorted_scores md) as Hmem.
  { unfold sorted_scores. rewrite stable_sort_perm. by eapply list_elem_of_lookup_2. }
  apply list_elem_of_lookup_1 in Hmem as [p Hp].
  exists sc, p. split; [done|]. split; [done|]. split.
  - intros i' s' Hi'. by eapply NoDup_keys_lookup.
  - by rewrite (Hin p sc Hp).
Qed.

Lemma rank_market_data_keys (md : list (string * MarketSample)) :
  NoDup (dict_keys md) -> dict_keys (rank_market_data md) = dict_keys md.
Proof.
  intros Hnd. unfold rank_market_data. rewrite score_fold by done. simpl.
  rewrite assign_ranks_keys. unfold dict_keys. rewrite <- list_fmap_compose. done.
Qed.

Lemma rank_market_data_ranks (md : list (string * MarketSample)) :
  NoDup (dict_keys md) ->
  let rks := rank_market_data md in
  NoDup (dict_keys rks)
  /\ (fun kv => rank kv.2) <$> rks ≡ₚ seqZ 1 (Z.of_nat (length rks))
  /\ (forall i j ki ri kj rj,
        rks !! i = Some (ki, ri) -> rks !! j = Some (kj, rj) ->
        rank ri < rank rj -> (score rj <= score ri)%Q)
  /\ (forall i j ki ri kj rj,
        rks !! i = Some (ki, ri) -> rks !! j = Some (kj, rj) ->
        (i < j)%nat -> (score ri == score rj)%Q -> rank ri < rank rj).
Proof.
  intros Hnd rks.
  assert (dict_keys rks = dict_keys md) as Hkeys by (by apply rank_market_data_keys).
  assert (NoDup (dict_keys rks)) as Hndr by (by rewrite Hkeys).
  assert (length rks = length (sorted_scores md)) as Hlen.
  { transitivity (length (dict_keys rks)); [unfold dict_keys; by rewrite length_fmap|].
    rewrite Hkeys, <- (Permutation_length (sorted_scores_keys md)). by rewrite length_fmap. }
  split; [done|]. split; [|split].
  - apply NoDup_Permutation.
    + apply NoDup_fmap_2_strong; [|by eapply NoDup_fmap_1].
      intros [kx rx] [ky ry] Hx Hy Heq. simpl in Heq.
      apply list_elem_of_lookup_1 in Hx as [jx Hx]. apply list_elem_of_lookup_1 in Hy as [jy Hy].
      destruct (rank_market_data_lookup md jx kx rx Hnd Hx) as (sx & px & _ & Hpx & _ & Hrx & _).
      destruct (rank_market_data_lookup md jy ky ry Hnd Hy) as (sy & py & _ & Hpy & _ & Hry & _).
      assert (px = py) as -> by lia. rewrite Hpx in Hpy. injection Hpy as -> ->.
      assert (jx = jy) as -> by (by eapply NoDup_keys_lookup).
      congruence.
    + apply NoDup_seqZ.
    + intros x. rewrite elem_of_seqZ, list_elem_of_fmap. split.
      * intros ([k r] & -> & Hin). simpl.
        apply list_elem_of_lookup_1 in Hin as [j Hj].
        destruct (rank_market_data_lookup md j k r Hnd Hj) as (s & p & _ & Hp & _ & Hr & _).
        apply lookup_lt_Some in Hp. lia.
      * intros [Hlo Hhi].
        destruct (lookup_lt_is_Some_2 (sorted_scores md) (Z.to_nat (x - 1)) ltac:(lia))
          as [[k s] Hp].
        assert (k ∈ dict_keys rks) as Hk.
        { rewrite Hkeys, <- sorted_scores_keys. change k with ((k, s).1).
          apply list_elem_of_fmap_2. by eapply list_elem_of_lookup_2. }
        unfold dict_keys in Hk. apply list_elem_of_fmap in Hk as ([k' r] & Hkk & Hin).
        simpl in Hkk. subst k'. exists (k, r). split; [|done]. simpl.
        apply list_elem_of_lookup_1 in Hin as [j Hj].
        destruct (rank_market_data_lookup md j k r Hnd Hj) as (s' & p' & _ & _ & Huniq & Hr & _).
        rewrite Hr, <- (Huniq _ _ Hp). lia.
  - intros i j ki ri kj rj Hi Hj Hlt.
    destruct (rank_market_data_lookup md i ki ri Hnd Hi) as (si & pi & _ & Hpi & _ & Hri & <-).
    destruct (rank_market_data_lookup md j kj rj Hnd Hj) as (sj & pj & _ & Hpj & _ & Hrj & <-).
    assert (pi < pj)%nat as Hp by lia.
    pose proof (stable_sort_sorted_lookup score_before score_before_not_trans
                  score_before_asym _ pi pj _ _ Hp Hpi Hpj) as Hord.
    unfold score_before in Hord. simpl in Hord. by apply Qgtb_false in Hord.
  - intros i j ki ri kj rj Hi Hj Hlt Heq.
    destruct (rank_market_data_lookup md i ki ri Hnd Hi)
      as (si & pi & Hmi & Hpi & Hui & Hri & Hsi).
    destruct (rank_market_data_lookup md j kj rj Hnd Hj)
      as (sj & pj & Hmj & Hpj & Huj & Hrj & Hsj).
    destruct (stable_sort_stable score_before (market_scores_of md) i j
                (ki, si) (kj, sj) Hlt Hmi Hmj)
      as (i' & j' & Hij' & Hi' & Hj').
    + unfold score_before. simpl. apply Qgtb_false. rewrite <- Hsi, <- Hsj, Heq. apply Qle_refl.
    + fold (sorted_scores md) in Hi', Hj'.
      rewrite Hri, Hrj, <- (Hui _ _ Hi'), <- (Huj _ _ Hj'). lia.
Qed.

Lemma group_latest_keys (latest_samples : list MarketSample) :
  dict_keys (group_latest latest_samples) = first_seen [] (m_symbol_raw <$> latest_samples).
Proof.
  unfold group_latest.
  change (first_seen [] (m_symbol_raw <$> latest_samples))
    with (dict_keys ([] : list (string * MarketSample))
          ++ first_seen (dict_keys ([] : list (string * MarketSample)))
               (m_symbol_raw <$> latest_samples)).
  generalize ([] : list (string * MarketSample)).
  induction latest_samples as [|s rows IH]; intros acc; simpl.
  - by rewrite app_nil_r.
  - rewrite IH. destruct (dict_mem acc (m_symbol_raw s)) eqn:E.
    + rewrite bool_decide_true; [done|].
      destruct (decide (m_symbol_raw s ∈ dict_keys acc)) as [|Hn]; [done|].
      apply dict_mem_false_keys in Hn. congruence.
    + apply dict_mem_false_keys in E. rewrite bool_decide_false by done.
      rewrite dict_set_fresh by done. unfold dict_keys. rewrite fmap_app. simpl.
      by rewrite <- app_assoc.
Qed.

(** C5, as the code has it: the ranks of a rankings map are a permutation
    of 1..N without duplicates or gaps, a lower rank never has a lower
    score, and markets with equal scores are ranked in their insertion
    order, which is the order in which their symbols first appear in the
    newest-first list of recent samples. *)
Theorem calculate_rankings_ranks (q : QueryResult) :
  let rks := _calculate_rankings q in
  dict_keys rks = first_seen [] (m_symbol_raw <$> query_rows q)
  /\ NoDup (dict_keys rks)
  /\ (fun kv => rank kv.2) <$> rks ≡ₚ seqZ 1 (Z.of_nat (length rks))
  /\ (forall i j ki ri kj rj,
        rks !! i = Some (ki, ri) -> rks !! j = Some (kj, rj) ->
        rank ri < rank rj -> (score rj <= score ri)%Q)
  /\ (forall i j ki ri kj rj,
        rks !! i = Some (ki, ri) -> rks !! j = Some (kj, rj) ->
        (i < j)%nat -> (score ri == score rj)%Q -> rank ri < rank rj).
Proof.
  destruct q as [|rows]; simpl.
  - split; [done|]. split; [constructor|]. split; [done|].
    split; intros i j ? ? ? ? Hi; by destruct i.
  - split.
    + rewrite rank_market_data_keys by apply group_latest_NoDup. apply group_latest_keys.
    + apply rank_market_data_ranks, group_latest_NoDup.
Qed.

(** C5 as stated fails on the order of ties: AAA is discovered before BBB,
    the two have equal scores, and BBB, whose latest sample is the newer
    one, gets rank 1. *)
Lemma ties_do_not_follow_discovery_order :
  let st := with_markets [perp "AAA"; perp "BBB"] empty_collector in
  let q := QueryRows [row_at 2000 "BBB" 7%Q (Some 5%Q); row_at 1000 "AAA" 7%Q (Some 5%Q)] in
  let rks := rankings (_refresh_rankings 0%Q q st) in
  symbol_raw <$> markets st = ["AAA"; "BBB"]
  /\ (score <$> dict_get rks "AAA") = (score <$> dict_get rks "BBB")
  /\ rank <$> dict_get rks "BBB" = Some 1
  /\ rank <$> dict_get rks "AAA" = Some 2.
Proof. vm_compute. done. Qed.

(** ** Spread filter *)

(** C6: when the snapshot yields a computed spread above 30,
    [collect_sample] returns no sample, counts the rejection, and nothing
    is buffered; when the computed spread is at most 30 the sample, which
    carries that spread, is returned and buffered. *)
Theorem spread_filter (now_ms : Z) (market : MarketInfo) (snapshot : Snapshot)
    (st : Collector) (s : Q) :
  br_spread_bps (read_book snapshot) = Some s ->
  ((30 < s)%Q ->
     (collect_sample now_ms market snapshot st).1 = None
     /\ skipped_spread_gt_30 (collect_sample now_ms market snapshot st).2
        = skipped_spread_gt_30 st + 1
     /\ buffer (sample_and_buffer now_ms market snapshot st) = buffer st)
  /\ ((s <= 30)%Q ->
     exists sample,
       collect_sample now_ms market snapshot st = (Some sample, st)
       /\ spread_bps sample = Some s
       /\ buffer (sample_and_buffer now_ms market snapshot st) = buffer st ++ [sample]).
Proof.
  intros Hs. split; intros Hcmp.
  - assert (Qgtb s SPREAD_BPS_IGNORE_THRESHOLD = true) as Hgt by (by apply Qgtb_gt).
    unfold sample_and_buffer, collect_sample. rewrite Hs, Hgt. by simpl.
  - assert (Qgtb s SPREAD_BPS_IGNORE_THRESHOLD = false) as Hle by (by apply Qgtb_false).
    unfold sample_and_buffer, collect_sample. rewrite Hs, Hle.
    eexists. split; [reflexivity|]. split; [reflexivity|]. by simpl.
Qed.

(** A book at 9984.5 / 10015.5 has spread 31 and is dropped; a book at
    9985.005 / 10014.995 has spread 29.99 and is buffered. *)
Lemma spread_filter_witness :
  (exists s, br_spread_bps (read_book (Book [quoted (99845 # 10)] [quoted (100155 # 10)])) = Some s
             /\ (s == 31)%Q
             /\ buffer (sample_and_buffer 0 (perp "BTC")
                          (Book [quoted (99845 # 10)] [quoted (100155 # 10)]) empty_collector) = [])
  /\ (exists s, br_spread_bps (read_book (Book [quoted (9985005 # 1000)] [quoted (10014995 # 1000)]))
                = Some s
                /\ (s == 2999 # 100)%Q
                /\ length (buffer (sample_and_buffer 0 (perp "BTC")
                                     (Book [quoted (9985005 # 1000)] [quoted (10014995 # 1000)])
                                     empty_collector)) = 1%nat).
Proof.
  split.
  - eexists. split; [reflexivity|]. split; [reflexivity|].
    destruct (spread_filter 0 (perp "BTC") (Book [quoted (99845 # 10)] [quoted (100155 # 10)])
                empty_collector _ eq_refl) as [Hhigh _].
    destruct (Hhigh eq_refl) as (_ & _ & Hbuf). exact Hbuf.
  - eexists. split; [reflexivity|]. split; [reflexivity|].
    destruct (spread_filter 0 (perp "BTC")
                (Book [quoted (9985005 # 1000)] [quoted (10014995 # 1000)])
                empty_collector _ eq_refl) as [_ Hlow].
    destruct Hlow as (sample & _ & _ & Hbuf).
    + unfold Qle. simpl. lia.
    + rewrite Hbuf. reflexivity.
Defined.

(** ** Buffer flush *)

Lemma flush_buffer_raised (st : Collector) (db newer : list MarketSample) :
  buffer st <> [] ->
  flush_buffer InsertRaised newer st db
  = (0,
     record_insert 0
       (set_buffer (newer ++ buffer st) (Z.of_nat (length (newer ++ buffer st)))
          (set_buffer newer (Z.of_nat (length newer)) st)),
     db).
Proof. unfold flush_buffer. by destruct (buffer st). Qed.

Lemma flush_buffer_committed (st : Collector) (db newer : list MarketSample) :
  buffer st <> [] ->
  flush_buffer Committed newer st db
  = (Z.of_nat (length (buffer st)),
     record_insert (Z.of_nat (length (buffer st)))
       (set_buffer newer (Z.of_nat (length newer)) st),
     db ++ buffer st).
Proof. unfold flush_buffer. by destruct (buffer st). Qed.

(** C7: when the batch insert fails, the table is unchanged and the live
    buffer holds the swapped-out batch again, after the entries that arrived
    meanwhile: nothing lost, nothing doubled. A following flush that
    succeeds persists exactly the buffer it finds. *)
Theorem flush_failure_requeues_batch (st : Collector)
    (db newer newer' : list MarketSample) :
  buffer st <> [] ->
  let r1 := flush_buffer InsertRaised newer st db in
  let r2 := flush_buffer Committed newer' r1.1.2 r1.2 in
  r1.1.1 = 0
  /\ r1.2 = db
  /\ buffer r1.1.2 = newer ++ buffer st
  /\ buffer r1.1.2 ≡ₚ buffer st ++ newer
  /\ r2.1.1 = Z.of_nat (length (buffer r1.1.2))
  /\ r2.2 = db ++ buffer r1.1.2
  /\ r2.2 ≡ₚ db ++ buffer st ++ newer
  /\ buffer r2.1.2 = newer'.
Proof.
  intros Hne. simpl. rewrite flush_buffer_raised by done. simpl.
  rewrite flush_buffer_committed.
  - simpl. repeat split; try done.
    + apply Permutation_app_comm.
    + apply Permutation_app_head, Permutation_app_comm.
  - simpl. intros H. apply app_eq_nil in H as [_ H]. done.
Qed.

Lemma flush_failure_requeues_batch_witness :
  let s1 := row "BTC" 1%Q None in
  let s2 := row "ETH" 2%Q None in
  let st := set_buffer [s1; s2] 2 empty_collector in
  buffer st <> []
  /\ buffer (flush_buffer InsertRaised [] st []).1.2 = [s1; s2]
  /\ (flush_buffer Committed [] (flush_buffer InsertRaised [] st []).1.2 []).2 = [s1; s2].
Proof.
  simpl.
  assert (buffer (set_buffer [row "BTC" 1%Q None; row "ETH" 2%Q None] 2 empty_collector) <> [])
    as Hne by (simpl; discriminate).
  split; [exact Hne|].
  destruct (flush_failure_requeues_batch _ [] [] [] Hne) as (_ & _ & H3 & _ & _ & H6 & _).
  split; [exact H3 | exact H6].
Defined.

(** ** Storage reads *)

(** C8, as the code has it. A read run through [_retry_on_lock] with the
    default arguments makes at most three attempts: a locked error on the
    first is followed by a sleep of 0.2 s, a locked error on the second by a
    sleep of 0.5 s, and whatever the third attempt does is the outcome; an
    error that is not a locked error is let through at once. The 24h row
    count makes one attempt, never sleeps, and turns any error into 0. *)
Theorem read_retry_discipline :
  (forall (X : Type) (func : nat -> Attempt X),
     let tr := _retry_on_lock func default_max_retries default_delays in
     (forall x, func 0%nat = Returned x -> tr = mkReadTrace (Some (Returned x)) [] 1)
     /\ (forall msg, func 0%nat = Raised msg -> is_locked_error msg = false ->
         tr = mkReadTrace (Some (Raised msg)) [] 1)
     /\ (forall m0, func 0%nat = Raised m0 -> is_locked_error m0 = true ->
         (forall x, func 1%nat = Returned x ->
            tr = mkReadTrace (Some (Returned x)) [(2 # 10)%Q] 2)
         /\ (forall m1, func 1%nat = Raised m1 -> is_locked_error m1 = false ->
             tr = mkReadTrace (Some (Raised m1)) [(2 # 10)%Q] 2)
         /\ (forall m1, func 1%nat = Raised m1 -> is_locked_error m1 = true ->
             tr = mkReadTrace (Some (func 2%nat)) [(2 # 10)%Q; (5 # 10)%Q] 3)))
  /\ (forall count_query : nat -> Attempt Z,
        rt_calls (get_db_rows_24h count_query) = 1%nat
        /\ rt_sleeps (get_db_rows_24h count_query) = []
        /\ (forall count, count_query 0%nat = Returned count ->
            rt_result (get_db_rows_24h count_query) = Some (Returned count))
        /\ (forall msg, count_query 0%nat = Raised msg ->
            rt_result (get_db_rows_24h count_query) = Some (Returned 0))).
Proof.
  split.
  - intros X func. unfold _retry_on_lock, default_max_retries, default_delays. simpl.
    split; [|split].
    + intros x ->. done.
    + intros msg -> ->. done.
    + intros m0 -> ->. simpl. split; [|split].
      * intros x ->. done.
      * intros m1 -> ->. done.
      * intros m1 -> ->. simpl. destruct (func 2%nat) as [x|m2]; [done|].
        by destruct (is_locked_error m2).
  - intros count_query. unfold get_db_rows_24h.
    destruct (count_query 0%nat); simpl; repeat split; intros; congruence.
Qed.

(** C8 as stated fails on the 24h row count: when the count query hits a
    locked error once and would succeed on a second attempt, the row count
    makes no second attempt and no sleep and reports 0, where the same
    query run through [_retry_on_lock] returns the count. And against a
    store that stays locked the retry helper sleeps 0.2 s and 0.5 s only. *)
Lemma row_count_does_not_retry :
  let count_query := fun k : nat =>
    match k with O => Raised "database is locked" | _ => Returned 42 end in
  is_locked_error "database is locked" = true
  /\ get_db_rows_24h count_query = mkReadTrace (Some (Returned 0)) [] 1
  /\ _retry_on_lock count_query default_max_retries default_delays
     = mkReadTrace (Some (Returned 42)) [(2 # 10)%Q] 2
  /\ rt_sleeps (_retry_on_lock (fun _ => @Raised Z "database is locked")
                  default_max_retries default_delays)
     = [(2 # 10)%Q; (5 # 10)%Q].
Proof. vm_compute. done. Qed.

(** ** Scheduler *)

Lemma due_step_spec (now_ms : Z) (st : Collector) (due : list MarketInfo)
    (market : MarketInfo) :
  (due_step now_ms (st, due) market).2
  = due ++ (if due_now now_ms st market then [market] else [])
  /\ forall sym,
       schedules (due_step now_ms (st, due) market).1 !! sym
       = if decide (sym = symbol_raw market)
         then advance_if_due now_ms <$> schedules st !! sym
         else schedules st !! sym.
Proof.
  unfold due_step, due_now, advance_if_due.
  destruct (schedules st !! symbol_raw market) as [sc|] eqn:E; simpl.
  - destruct (next_due_ms sc <=? now_ms) eqn:Edue; simpl.
    + split; [done|]. intros sym. case_decide as Hs.
      * subst. rewrite lookup_insert_eq, E. simpl. by rewrite Edue.
      * by rewrite lookup_insert_ne.
    + split; [by rewrite app_nil_r|]. intros sym. case_decide as Hs; [|done].
      subst. rewrite E. simpl. by rewrite Edue.
  - split; [done|]. intros sym. case_decide as Hs; [|done]. subst. by rewrite E.
Qed.

Lemma due_fold_spec (now_ms : Z) (ms : list MarketInfo) (st : Collector)
    (due : list MarketInfo) :
  NoDup (symbol_raw <$> ms) ->
  (fold_left (due_step now_ms) ms (st, due)).2
  = due ++ List.filter (due_now now_ms st) ms
  /\ forall sym,
       schedules (fold_left (due_step now_ms) ms (st, due)).1 !! sym
       = if decide (sym ∈ symbol_raw <$> ms)
         then advance_if_due now_ms <$> schedules st !! sym
         else schedules st !! sym.
Proof.
  revert st due. induction ms as [|m ms IH]; intros st due Hnd; cbn [fold_left List.filter].
  - split; [by rewrite app_nil_r|]. intros sym. simpl.
    destruct (decide (sym ∈ [])) as [H|]; [by apply elem_of_nil in H | done].
  - apply NoDup_cons in Hnd as [Hm Hnd].
    destruct (due_step_spec now_ms st due m) as [Hdue Hsch].
    destruct (due_step now_ms (st, due) m) as [st1 due1] eqn:Estep. simpl in Hdue, Hsch.
    destruct (IH st1 due1 Hnd) as [IHdue IHsch]. split.
    + rewrite IHdue, Hdue, <- app_assoc. f_equal.
      assert (List.filter (due_now now_ms st1) ms = List.filter (due_now now_ms st) ms) as ->.
      { apply filter_ext_in. intros m' Hm'. unfold due_now. rewrite Hsch.
        case_decide as Heq; [|done]. exfalso. apply Hm. rewrite <- Heq.
        apply list_elem_of_fmap_2. by apply list_elem_of_In. }
      by destruct (due_now now_ms st m).
    + intros sym. rewrite IHsch, Hsch.
      destruct (decide (sym = symbol_raw m)) as [->|Hne].
      * destruct (decide (symbol_raw m ∈ symbol_raw <$> ms)) as [Hin|_]; [done|].
        destruct (decide (symbol_raw m ∈ symbol_raw <$> m :: ms)) as [_|Hnin]; [done|].
        exfalso. apply Hnin. by left.
      * destruct (decide (sym ∈ symbol_raw <$> ms)) as [Hin|Hnin];
          destruct (decide (sym ∈ symbol_raw <$> m :: ms)) as [Hin'|Hnin']; try done.
        -- exfalso. apply Hnin'. by right.
        -- exfalso. apply elem_of_cons in Hin' as [?|?]; done.
Qed.

Lemma advance_if_due_idem (now_ms : Z) (sc : MarketSchedule) :
  advance_if_due now_ms (advance_if_due now_ms sc) = advance_if_due now_ms sc.
Proof.
  unfold advance_if_due. destruct (next_due_ms sc <=? now_ms) eqn:E; simpl.
  - by destruct (now_ms + interval_ms sc <=? now_ms).
  - by rewrite E.
Qed.

(** The schedule map after the loop, for any catalog. *)
Lemma due_fold_schedules (now_ms : Z) (ms : list MarketInfo) (st : Collector)
    (due : list MarketInfo) (sym : string) :
  schedules (fold_left (due_step now_ms) ms (st, due)).1 !! sym
  = if decide (sym ∈ symbol_raw <$> ms)
    then advance_if_due now_ms <$> schedules st !! sym
    else schedules st !! sym.
Proof.
  revert st due. induction ms as [|m ms IH]; intros st due; cbn [fold_left].
  - simpl. destruct (decide (sym ∈ [])) as [H|]; [by apply elem_of_nil in H | done].
  - destruct (due_step_spec now_ms st due m) as [_ Hsch].
    destruct (due_step now_ms (st, due) m) as [st1 due1] eqn:Estep. simpl in Hsch.
    rewrite IH, Hsch. rewrite fmap_cons.
    destruct (decide (sym = symbol_raw m)) as [->|Hne].
    + rewrite (decide_True (P := symbol_raw m ∈ symbol_raw m :: _)) by (by left).
      destruct (decide (symbol_raw m ∈ symbol_raw <$> ms)); [|done].
      destruct (schedules st !! symbol_raw m) as [sc|]; [|done]. simpl.
      by rewrite advance_if_due_idem.
    + destruct (decide (sym ∈ symbol_raw <$> ms)) as [Hin|Hnin].
      * by rewrite decide_True by (by right).
      * rewrite decide_False; [done|]. intros H. apply elem_of_cons in H as [?|?]; done.
Qed.

(** A market that is due after a step of the loop was due before it. *)
Lemma due_now_after_step (now_ms : Z) (st st1 : Collector) (m0 m : MarketInfo) :
  (forall sym, schedules st1 !! sym
               = if decide (sym = symbol_raw m0)
                 then advance_if_due now_ms <$> schedules st !! sym
                 else schedules st !! sym) ->
  due_now now_ms st1 m = true -> due_now now_ms st m = true.
Proof.
  intros Hsch. unfold due_now. rewrite Hsch. case_decide; [|done].
  destruct (schedules st !! symbol_raw m) as [sc|]; [|done]. simpl.
  unfold advance_if_due. destruct (next_due_ms sc <=? now_ms) eqn:E; [done|]. by rewrite E.
Qed.

(** The list returned by the loop, for any catalog. *)
Lemma due_fold_returned (now_ms : Z) (ms : list MarketInfo) (st : Collector)
    (due : list MarketInfo) :
  exists fired,
    (fold_left (due_step now_ms) ms (st, due)).2 = due ++ fired
    /\ fired `sublist_of` ms
    /\ (forall m, m ∈ fired -> due_now now_ms st m = true)
    /\ (forall m, m ∈ ms -> schedules st !! symbol_raw m = None -> m ∈ fired)
    /\ (forall pre m post, ms = pre ++ m :: post ->
          symbol_raw m ∉ symbol_raw <$> pre -> due_now now_ms st m = true -> m ∈ fired).
Proof.
  revert st due. induction ms as [|m0 ms IH]; intros st due; cbn [fold_left].
  - exists []. rewrite app_nil_r. split; [done|]. split; [done|].
    split; [intros m Hm; by apply elem_of_nil in Hm|].
    split; [intros m Hm; by apply elem_of_nil in Hm|].
    intros pre m post Hnil. by destruct pre.
  - destruct (due_step_spec now_ms st due m0) as [Hdue Hsch].
    destruct (due_step now_ms (st, due) m0) as [st1 due1] eqn:Estep. simpl in Hdue, Hsch.
    destruct (IH st1 due1) as (fired & Hf & Hsub & Hall & Hnone & Hfirst).
    exists ((if due_now now_ms st m0 then [m0] else []) ++ fired).
    split; [by rewrite Hf, Hdue, <- app_assoc|].
    split; [destruct (due_now now_ms st m0); simpl;
            [by apply sublist_skip | by apply sublist_cons]|].
    split; [|split].
    + intros m Hm. apply elem_of_app in Hm as [Hm|Hm].
      * destruct (due_now now_ms st m0) eqn:E; [|by apply elem_of_nil in Hm].
        apply list_elem_of_singleton in Hm. by subst.
      * eapply due_now_after_step; [exact Hsch|]. by apply Hall.
    + intros m Hm Hs. apply elem_of_cons in Hm as [-> | Hm].
      * unfold due_now. rewrite Hs. apply elem_of_app. left. by left.
      * apply elem_of_app. right. apply Hnone; [done|]. rewrite Hsch, Hs. by case_decide.
    + intros pre m post Hms Hpre Hd. destruct pre as [|p pre]; simpl in Hms.
      * injection Hms as <- <-. rewrite Hd. apply elem_of_app. left. by left.
      * injection Hms as <- ->. apply elem_of_app. right.
        apply (Hfirst pre m post eq_refl).
        -- intros Hin. apply Hpre. rewrite fmap_cons. by right.
        -- unfold due_now in *. rewrite Hsch. rewrite decide_False; [done|].
           intros Heq. apply Hpre. rewrite fmap_cons, Heq. by left.
Qed.

(** C9, as the code has it, for any catalog. The markets returned are
    catalog markets, in catalog order, each without a schedule or with its
    due time come. Every catalog market without a schedule is returned, and
    so is every scheduled market whose due time has come and that is the
    first catalog entry with its symbol; hence, with one catalog entry per
    symbol, a market is returned exactly when it has no schedule or its due
    time has come. A scheduled market whose due time has come has its due
    time set to [now_ms + interval_ms], the rest of its schedule kept; a
    scheduled market that is not due keeps its schedule; a symbol without a
    schedule stays without one; and symbols outside the catalog are not
    touched. *)
Theorem due_markets_selection (now_ms : Z) (st : Collector) :
  let st' := (_get_markets_due_for_sampling now_ms st).1 in
  let due_markets := (_get_markets_due_for_sampling now_ms st).2 in
  due_markets `sublist_of` markets st
  /\ (forall m, m ∈ due_markets ->
      m ∈ markets st
      /\ (schedules st !! symbol_raw m = None
          \/ exists sc, schedules st !! symbol_raw m = Some sc /\ next_due_ms sc <= now_ms))
  /\ (forall m, m ∈ markets st -> schedules st !! symbol_raw m = None -> m ∈ due_markets)
  /\ (forall pre m post sc, markets st = pre ++ m :: post ->
      symbol_raw m ∉ symbol_raw <$> pre ->
      schedules st !! symbol_raw m = Some sc -> next_due_ms sc <= now_ms ->
      m ∈ due_markets)
  /\ (NoDup (symbol_raw <$> markets st) ->
      (forall m, m ∈ due_markets <->
         m ∈ markets st
         /\ (schedules st !! symbol_raw m = None
             \/ exists sc, schedules st !! symbol_raw m = Some sc
                           /\ next_due_ms sc <= now_ms))
      /\ due_markets = List.filter (due_now now_ms st) (markets st))
  /\ (forall m sc, m ∈ markets st -> schedules st !! symbol_raw m = Some sc ->
      next_due_ms sc <= now_ms ->
      schedules st' !! symbol_raw m
      = Some (mkMarketSchedule (s_symbol_raw sc) (level sc)
                (now_ms + interval_ms sc) (interval_ms sc)))
  /\ (forall m sc, m ∈ markets st -> schedules st !! symbol_raw m = Some sc ->
      now_ms < next_due_ms sc ->
      schedules st' !! symbol_raw m = Some sc)
  /\ (forall sym, schedules st !! sym = None -> schedules st' !! sym = None)
  /\ (forall sym, sym ∉ symbol_raw <$> markets st ->
      schedules st' !! sym = schedules st !! sym).
Proof.
  cbv zeta. unfold _get_markets_due_for_sampling.
  destruct (due_fold_returned now_ms (markets st) st [])
    as (fired & Hf & Hsub & Hall & Hnone & Hfirst).
  rewrite Hf. cbn [app].
  pose proof (due_fold_schedules now_ms (markets st) st []) as Hsch.
  assert (forall m, due_now now_ms st m = true ->
            schedules st !! symbol_raw m = None
            \/ exists sc, schedules st !! symbol_raw m = Some sc /\ next_due_ms sc <= now_ms)
    as Hdue.
  { intros m. unfold due_now. destruct (schedules st !! symbol_raw m) as [sc|]; [|by left].
    intros Hle. right. exists sc. split; [done|]. by apply Z.leb_le. }
  split; [done|]. split; [|split; [done|split; [|split]]].
  - intros m Hm. split; [|by apply Hdue, Hall].
    eapply elem_of_submseteq; [exact Hm|]. by apply sublist_submseteq.
  - intros pre m post sc Hms Hpre Hsc Hle. apply (Hfirst pre m post Hms Hpre).
    unfold due_now. rewrite Hsc. by apply Z.leb_le.
  - intros Hnd. destruct (due_fold_spec now_ms (markets st) st [] Hnd) as [Hfilter _].
    rewrite Hf in Hfilter. cbn [app] in Hfilter. split; [|done].
    intros m. rewrite Hfilter, list_elem_of_In, filter_In, <- list_elem_of_In.
    split; intros [Hin H]; (split; [done|]); [by apply Hdue|].
    unfold due_now. destruct H as [-> | (sc & -> & Hle)]; [done|]. by apply Z.leb_le.
  - repeat split.
    + intros m sc Hin Hsc Hle. rewrite Hsch, decide_True by (by apply list_elem_of_fmap_2).
      rewrite Hsc. simpl. unfold advance_if_due.
      by rewrite (proj2 (Z.leb_le _ _) Hle).
    + intros m sc Hin Hsc Hlt. rewrite Hsch, decide_True by (by apply list_elem_of_fmap_2).
      rewrite Hsc. simpl. unfold advance_if_due.
      by rewrite (proj2 (Z.leb_gt _ _) Hlt).
    + intros sym Hnone'. rewrite Hsch, Hnone'. by case_decide.
    + intros sym Hnot. by rewrite Hsch, decide_False.
Qed.

Lemma due_markets_selection_witness :
  let st := with_markets [perp "BTC"; perp "ETH"; perp "SOL"]
              (set_schedules
                 (<["BTC" := mkMarketSchedule "BTC" LvA 1000 250]>
                    (<["ETH" := mkMarketSchedule "ETH" LvB 5000 2000]> ∅))
                 empty_collector) in
  NoDup (symbol_raw <$> markets st)
  /\ (_get_markets_due_for_sampling 1200 st).2 = [perp "BTC"; perp "SOL"]
  /\ schedules (_get_markets_due_for_sampling 1200 st).1 !! "BTC"
     = Some (mkMarketSchedule "BTC" LvA 1450 250).
Proof.
  simpl.
  assert (NoDup (symbol_raw <$>
                   markets (with_markets [perp "BTC"; perp "ETH"; perp "SOL"]
                              (set_schedules
                                 (<["BTC" := mkMarketSchedule "BTC" LvA 1000 250]>
                                    (<["ETH" := mkMarketSchedule "ETH" LvB 5000 2000]> ∅))
                                 empty_collector)))) as Hnd.
  { apply (bool_decide_unpack _). by vm_compute. }
  split; [exact Hnd|].
  destruct (due_markets_selection 1200
              (with_markets [perp "BTC"; perp "ETH"; perp "SOL"]
                 (set_schedules
                    (<["BTC" := mkMarketSchedule "BTC" LvA 1000 250]>
                       (<["ETH" := mkMarketSchedule "ETH" LvB 5000 2000]> ∅))
                    empty_collector)))
    as (_ & _ & _ & _ & Hone & Hadv & _).
  destruct (Hone Hnd) as [_ Hdue].
  split.
  - rewrite Hdue. reflexivity.
  - apply (Hadv (perp "BTC") (mkMarketSchedule "BTC" LvA 1000 250)).
    + by left.
    + reflexivity.
    + simpl. lia.
Defined.

(** C9 as stated fails when two catalog entries carry one symbol: a spot
    pair named BTC comes before the perp BTC, their common schedule is due
    at 1200, and the call returns the spot entry only; the perp, due when
    the call began, finds the due time already moved to 1450. *)
Lemma later_entry_of_due_symbol_is_skipped :
  let spot_btc := mkMarketInfo "BTC" "USDC" SPOT "USDC" "BTC" in
  let st := with_markets [spot_btc; perp "BTC"]
              (set_schedules {[ "BTC" := mkMarketSchedule "BTC" LvA 1000 250 ]}
                 empty_collector) in
  perp "BTC" ∈ markets st
  /\ (exists sc, schedules st !! symbol_raw (perp "BTC") = Some sc
                 /\ next_due_ms sc <= 1200)
  /\ (_get_markets_due_for_sampling 1200 st).2 = [spot_btc]
  /\ (perp "BTC" ∉ (_get_markets_due_for_sampling 1200 st).2)
  /\ schedules (_get_markets_due_for_sampling 1200 st).1 !! "BTC"
     = Some (mkMarketSchedule "BTC" LvA 1450 250).
Proof.
  cbv zeta. split; [right; by left|].
  split; [eexists; split; [reflexivity|simpl; lia]|].
  assert ((_get_markets_due_for_sampling 1200
             (with_markets [mkMarketInfo "BTC" "USDC" SPOT "USDC" "BTC"; perp "BTC"]
                (set_schedules {[ "BTC" := mkMarketSchedule "BTC" LvA 1000 250 ]}
                   empty_collector))).2
          = [mkMarketInfo "BTC" "USDC" SPOT "USDC" "BTC"]) as Hdue by reflexivity.
  split; [exact Hdue|]. split; [|reflexivity].
  rewrite Hdue. intros H. apply list_elem_of_singleton in H. discriminate H.
Qed.

(** ** Level assignment and demotion *)

Ltac rank_cases rk :=
  destruct (rk <=? 100) eqn:?E1; [apply Z.leb_le in E1 | apply Z.leb_gt in E1];
  [|destruct (rk <=? 200) eqn:?E2; [apply Z.leb_le in E2 | apply Z.leb_gt in E2];
    [|destruct (rk <=? 300) eqn:?E3; [apply Z.leb_le in E3 | apply Z.leb_gt in E3];
      [|destruct (rk <=? 400) eqn:?E4]]].

Ltac table_rows :=
  repeat split; try done; try lia; try tauto; intros; try lia;
  repeat match goal with
         | H : _ \/ _ |- _ => destruct H
         | H : _ /\ _ |- _ => destruct H
         end;
  try lia; try done; auto.

(** X1: the level table of [_assign_level_from_rank]. Level A needs rank
    at most 100 and a spread that is present and at most 15; a top-100 rank
    without such a spread gets B; ranks 101..200 get B, 201..300 get C and
    every rank above 300 gets D. The symbol plays no part. *)
Theorem assign_level_table (sym : string) (rk : Z) (spread : option Q) :
  let l := _assign_level_from_rank sym rk spread in
  let tight := exists s, spread = Some s /\ (s <= 15)%Q in
  (l = LvA <-> rk <= 100 /\ tight)
  /\ (l = LvB <-> (rk <= 100 /\ ~ tight) \/ (100 < rk <= 200))
  /\ (l = LvC <-> 200 < rk <= 300)
  /\ (l = LvD <-> 300 < rk).
Proof.
  simpl. unfold _assign_level_from_rank, SPREAD_BPS_NO_A_THRESHOLD.
  destruct spread as [s|].
  - destruct (Qgtb s 15) eqn:Es.
    + apply Qgtb_gt, Qlt_not_le in Es.
      assert (~ exists s0, Some s = Some s0 /\ (s0 <= 15)%Q) as Hnt.
      { intros (s0 & [= <-] & H). done. }
      rank_cases rk; table_rows.
    + apply Qgtb_false in Es.
      assert (exists s0, Some s = Some s0 /\ (s0 <= 15)%Q) as Ht by eauto.
      rank_cases rk; table_rows.
  - assert (~ exists s0, @None Q = Some s0 /\ (s0 <= 15)%Q) as Hnt.
    { intros (s0 & [=] & _). }
    rank_cases rk; table_rows.
Qed.

(** A demotion never lands on A: whenever the demotion test holds, the
    level the rank mapping gives is B, C or D. *)
Lemma demotion_target_below_A (sym : string) (rk : Z) (spread : option Q) :
  demotion_condition rk spread = true -> _assign_level_from_rank sym rk spread ≠ LvA.
Proof.
  unfold demotion_condition, _assign_level_from_rank, SPREAD_BPS_NO_A_THRESHOLD.
  intros Hd. apply orb_true_iff in Hd as [Hd|Hd].
  - apply Z.ltb_lt in Hd.
    assert ((rk <=? 100) = false) as -> by (apply Z.leb_gt; lia).
    repeat case_match; done.
  - destruct spread as [s|]; [|done]. apply Qgtb_gt in Hd.
    assert (Qgtb s 15 = true) as ->.
    { apply Qgtb_gt. eapply Qlt_trans; [|exact Hd]. reflexivity. }
    repeat case_match; done.
Qed.

(** X2: one pass over a ranked market at level A. A pass that meets the
    demotion test adds one to the demotion counter, and the pass that takes
    it to 3 replaces the schedule by the entry of the rank mapping, which is
    never A, and clears the counter; a pass that does not meet the test
    clears the counter. Until then the schedule entry is kept, and the
    promotion counter is never touched. *)
Theorem level_A_pass (now : Q) (rks : list (string * MarketRanking)) (st : Collector)
    (sym : string) (r : MarketRanking) :
  NoDup (dict_keys rks) -> (sym, r) ∈ rks ->
  current_level_of st sym = LvA ->
  let st' := _update_levels_with_hysteresis now rks st in
  let c := counter_get (demotion_counters st) sym in
  let target := _assign_level_from_rank sym (rank r) (r_spread_bps r) in
  promotion_counters st' !! sym = promotion_counters st !! sym
  /\ if demotion_condition (rank r) (r_spread_bps r) then
       if 3 <=? c + 1 then
         schedules st' !! sym
         = Some (mkMarketSchedule sym target 0 (_get_interval_for_level target))
         /\ target ≠ LvA
         /\ demotion_counters st' !! sym = Some 0
       else
         schedules st' !! sym = schedules st !! sym
         /\ demotion_counters st' !! sym = Some (c + 1)
     else
       schedules st' !! sym = schedules st !! sym
       /\ demotion_counters st' !! sym = Some 0.
Proof.
  intros Hnd Hin Hlvl. cbv zeta.
  pose proof (update_levels_at now rks st sym r Hnd Hin) as H.
  pose proof (f_equal (fun x => x.1.1) H) as Hs.
  pose proof (f_equal (fun x => x.1.2) H) as Hp.
  pose proof (f_equal (fun x => x.2) H) as Hd.
  cbv beta in Hs, Hp, Hd. unfold market_state in Hs, Hp, Hd.
  cbn [fst snd] in Hs, Hp, Hd.
  rewrite Hs, Hp, Hd. clear H Hs Hp Hd.
  pose proof (demotion_target_below_A sym (rank r) (r_spread_bps r)) as Htarget.
  unfold hysteresis_step; simpl. rewrite Hlvl. simpl.
  unfold demotion_branch, demotion_condition in *. simpl.
  destruct (120 <? rank r); simpl.
  - rewrite counter_get_insert.
    destruct (3 <=? counter_get (demotion_counters st) sym + 1); simpl;
      rewrite ?lookup_insert_eq; auto.
  - destruct (match r_spread_bps r with Some s => Qgtb s 20 | None => false end); simpl.
    + rewrite counter_get_insert.
      destruct (3 <=? counter_get (demotion_counters st) sym + 1); simpl;
        rewrite ?lookup_insert_eq; auto.
    + rewrite lookup_insert_eq. auto.
Qed.

(** Three passes with rank 130 take a market from A to B. *)
Lemma level_A_pass_witness :
  let rks := ranked "X" 130 (Some 5%Q) in
  let st := cycles 2 rks (scheduled "X" LvA) in
  demotion_counters st !! "X" = Some 2
  /\ schedules (_update_levels_with_hysteresis 0%Q rks st) !! "X"
     = Some (mkMarketSchedule "X" LvB 0 2000).
Proof.
  cbv zeta. split; [by vm_compute|].
  assert (NoDup (dict_keys (ranked "X" 130 (Some 5%Q)))) as Hnd.
  { apply (bool_decide_unpack _). by vm_compute. }
  assert (("X", mkMarketRanking "X" 130 (1 # 2)%Q None None (Some 5%Q)) ∈ ranked "X" 130 (Some 5%Q))
    as Hin by (by left).
  assert (current_level_of (cycles 2 (ranked "X" 130 (Some 5%Q)) (scheduled "X" LvA)) "X" = LvA)
    as Hlvl by (by vm_compute).
  destruct (level_A_pass 0%Q _ _ "X" _ Hnd Hin Hlvl) as [_ H].
  assert (counter_get
            (demotion_counters (cycles 2 (ranked "X" 130 (Some 5%Q)) (scheduled "X" LvA))) "X" = 2)
    as Hc by (by vm_compute).
  rewrite Hc in H.
  change (demotion_condition
            (rank (mkMarketRanking "X" 130 (1 # 2)%Q None None (Some 5%Q)))
            (r_spread_bps (mkMarketRanking "X" 130 (1 # 2)%Q None None (Some 5%Q))))
    with true in H.
  change (3 <=? 2 + 1) with true in H. cbv iota in H.
  destruct H as (Hs & _ & _). rewrite Hs. by vm_compute.
Defined.

(** ** Invariants of the schedule map *)

Lemma fold_left_preserves {S X : Type} (P : S -> Prop) (f : S -> X -> S) (l : list X) (s : S) :
  (forall s x, P s -> P (f s x)) -> P s -> P (fold_left f l s).
Proof. intros Hf. revert s. induction l as [|x l IH]; simpl; auto. Qed.

Lemma map_wf_insert (m : gmap string MarketSchedule) (k : string) (sc : MarketSchedule) :
  map_wf m -> s_symbol_raw sc = k -> interval_ms sc = _get_interval_for_level (level sc) ->
  map_wf (<[k := sc]> m).
Proof.
  intros Hm Hk Hi k' sc' Hlk. destruct (decide (k = k')) as [<-|Hne].
  - rewrite lookup_insert_eq in Hlk. by injection Hlk as <-.
  - rewrite lookup_insert_ne in Hlk by done. by apply Hm.
Qed.

Lemma hysteresis_step_wf (ls : LoopState) (item : string * MarketRanking) :
  map_wf (schedules (ls_st ls)) -> map_wf (schedules (ls_st (hysteresis_step ls item))).
Proof.
  destruct item as [sym r]. intros Hwf.
  unfold hysteresis_step, promotion_branch, demotion_branch, direct_branch.
  repeat case_match; simplify_eq/=; try done; by apply map_wf_insert.
Qed.

Lemma update_levels_wf (now : Q) (rks : list (string * MarketRanking)) (st : Collector) :
  map_wf (schedules st) -> map_wf (schedules (_update_levels_with_hysteresis now rks st)).
Proof.
  intros Hwf. unfold _update_levels_with_hysteresis. simpl.
  apply (fold_left_preserves (fun ls => map_wf (schedules (ls_st ls)))).
  - intros ls item. apply hysteresis_step_wf.
  - simpl. by case_match.
Qed.

Lemma fallback_step_wf (st : Collector) (m : MarketInfo) :
  map_wf (schedules st) -> map_wf (schedules (fallback_step st m)).
Proof.
  intros Hwf. unfold fallback_step.
  repeat case_match; simpl; try done; by apply map_wf_insert.
Qed.

Lemma init_schedule_step_wf (rks : list (string * MarketRanking)) (st : Collector)
    (m : MarketInfo) :
  map_wf (schedules st) -> map_wf (schedules (init_schedule_step rks st m)).
Proof.
  intros Hwf. unfold init_schedule_step.
  repeat case_match; simpl; try done; by apply map_wf_insert.
Qed.

Lemma due_step_wf (now_ms : Z) (acc : Collector * list MarketInfo) (m : MarketInfo) :
  map_wf (schedules acc.1) -> map_wf (schedules (due_step now_ms acc m).1).
Proof.
  destruct acc as [st due]. simpl. intros Hwf. unfold due_step.
  destruct (schedules st !! symbol_raw m) as [sc|] eqn:E; [|done].
  destruct (next_due_ms sc <=? now_ms); [|done]. simpl.
  destruct (Hwf _ _ E) as [Hk Hi]. by apply map_wf_insert.
Qed.

(** X4: a ranking refresh and a due-market selection keep the schedule map
    well formed: every entry stays stored under its own symbol with the
    interval of its level, so every interval is 250 ms at level A and
    2000 ms at B, C and D. *)
Theorem schedules_wf_preserved (now : Q) (q : QueryResult) (now_ms : Z) (st : Collector) :
  schedules_wf st ->
  schedules_wf (_refresh_rankings now q st)
  /\ schedules_wf (_get_markets_due_for_sampling now_ms st).1
  /\ (forall k sc, schedules (_refresh_rankings now q st) !! k = Some sc ->
      interval_ms sc = if level_eqb (level sc) LvA then 250 else 2000).
Proof.
  intros Hwf.
  assert (schedules_wf (_refresh_rankings now q st)) as Hr.
  { unfold _refresh_rankings, refresh_with.
    destruct (_calculate_rankings q) as [|item rks].
    - unfold _apply_fallback_safety.
      apply (fold_left_preserves (fun s => map_wf (schedules s))); [|done].
      intros s x. apply fallback_step_wf.
    - apply (fold_left_preserves (fun s => map_wf (schedules s))).
      { intros s x. apply init_schedule_step_wf. }
      unfold _apply_fallback_safety.
      apply (fold_left_preserves (fun s => map_wf (schedules s))).
      { intros s x. apply fallback_step_wf. }
      by apply update_levels_wf. }
  split; [done|]. split.
  - unfold _get_markets_due_for_sampling.
    apply (fold_left_preserves (fun acc => map_wf (schedules acc.1))); [|done].
    intros acc m. apply due_step_wf.
  - intros k sc Hlk. destruct (Hr k sc Hlk) as [_ ->]. by destruct (level sc).
Qed.

Lemma schedules_wf_preserved_witness :
  schedules_wf (scheduled "X" LvC)
  /\ schedules_wf (_refresh_rankings 0%Q (QueryRows [row "X" 1%Q (Some 5%Q)])
                     (scheduled "X" LvC)).
Proof.
  assert (schedules_wf (scheduled "X" LvC)) as Hwf.
  { intros k sc Hlk. unfold scheduled in Hlk. simpl in Hlk.
    apply lookup_singleton_Some in Hlk as [<- <-]. done. }
  split; [exact Hwf|].
  exact (proj1 (schedules_wf_preserved 0%Q (QueryRows [row "X" 1%Q (Some 5%Q)]) 0 _ Hwf)).
Defined.

(** ** Which markets are scheduled after a refresh *)

Lemma hysteresis_step_is_Some (ls : LoopState) (item : string * MarketRanking) (k : string) :
  is_Some (schedules (ls_st ls) !! k) ->
  is_Some (schedules (ls_st (hysteresis_step ls item)) !! k).
Proof.
  destruct item as [sym r]. intros Hk.
  unfold hysteresis_step, promotion_branch, demotion_branch, direct_branch.
  repeat case_match; simplify_eq/=; try done;
    (destruct (decide (sym = k)) as [->|Hne];
     [rewrite lookup_insert_eq; eauto | by rewrite lookup_insert_ne]).
Qed.

Lemma hysteresis_step_markets (ls : LoopState) (item : string * MarketRanking) :
  markets (ls_st (hysteresis_step ls item)) = markets (ls_st ls).
Proof.
  destruct item as [sym r].
  unfold hysteresis_step, promotion_branch, demotion_branch, direct_branch.
  by repeat case_match; simplify_eq/=.
Qed.

Lemma update_levels_markets (now : Q) (rks : list (string * MarketRanking)) (st : Collector) :
  markets (_update_levels_with_hysteresis now rks st) = markets st.
Proof.
  unfold _update_levels_with_hysteresis. simpl.
  apply (fold_left_preserves (fun ls => markets (ls_st ls) = markets st)).
  - intros ls item <-. apply hysteresis_step_markets.
  - simpl. by case_match.
Qed.

Lemma update_levels_is_Some (now : Q) (rks : list (string * MarketRanking)) (st : Collector)
    (k : string) :
  is_Some (schedules st !! k) ->
  is_Some (schedules (_update_levels_with_hysteresis now rks st) !! k).
Proof.
  intros Hk. unfold _update_levels_with_hysteresis. simpl.
  apply (fold_left_preserves (fun ls => is_Some (schedules (ls_st ls) !! k))).
  - intros ls item. apply hysteresis_step_is_Some.
  - simpl. by case_match.
Qed.

Lemma fallback_markets (rks : list (string * MarketRanking)) (st : Collector) :
  markets (_apply_fallback_safety rks st) = markets st.
Proof.
  unfold _apply_fallback_safety. generalize (markets st) at 1 as ms.
  intros ms. apply (fold_left_preserves (fun s => markets s = markets st)); [|done].
  intros s m <-. unfold fallback_step. by repeat case_match.
Qed.

Lemma fallback_is_Some (rks : list (string * MarketRanking)) (st : Collector) (k : string) :
  is_Some (schedules st !! k) -> is_Some (schedules (_apply_fallback_safety rks st) !! k).
Proof.
  intros [sc Hk]. unfold _apply_fallback_safety.
  rewrite fallback_fold_schedules, Hk. by case_match.
Qed.

Lemma init_step_is_Some (rks : list (string * MarketRanking)) (st : Collector)
    (m : MarketInfo) (k : string) :
  is_Some (schedules st !! k) \/ k = symbol_raw m ->
  is_Some (schedules (init_schedule_step rks st m) !! k).
Proof.
  intros Hk. unfold init_schedule_step.
  destruct (schedules st !! symbol_raw m) as [sc|] eqn:E.
  - destruct Hk as [Hk | ->]; [done | by rewrite E].
  - simpl. destruct (decide (symbol_raw m = k)) as [<-|Hne].
    + rewrite lookup_insert_eq. eauto.
    + rewrite lookup_insert_ne by done. by destruct Hk as [Hk | ->].
Qed.

Lemma init_fold_is_Some (rks : list (string * MarketRanking)) (ms : list MarketInfo)
    (st : Collector) (k : string) :
  is_Some (schedules st !! k) \/ k ∈ symbol_raw <$> ms ->
  is_Some (schedules (fold_left (init_schedule_step rks) ms st) !! k).
Proof.
  revert st. induction ms as [|m ms IH]; intros st Hk; simpl.
  - destruct Hk as [Hk|Hk]; [done | by apply elem_of_nil in Hk].
  - apply IH. destruct Hk as [Hk|Hk].
    + left. apply init_step_is_Some. by left.
    + rewrite fmap_cons in Hk. apply elem_of_cons in Hk as [->|Hk]; [|by right].
      left. apply init_step_is_Some. by right.
Qed.

(** X5: a refresh never drops a schedule entry, and a refresh that has a
    non-empty rankings map leaves every market of the catalog with a
    schedule entry. *)
Theorem refresh_schedules_catalog (now : Q) (q : QueryResult) (st : Collector) :
  (forall k, is_Some (schedules st !! k) ->
             is_Some (schedules (_refresh_rankings now q st) !! k))
  /\ (_calculate_rankings q ≠ [] ->
      forall m, m ∈ markets st ->
                is_Some (schedules (_refresh_rankings now q st) !! symbol_raw m)).
Proof.
  unfold _refresh_rankings, refresh_with.
  destruct (_calculate_rankings q) as [|item rks].
  - split; [|done]. intros k Hk. by apply fallback_is_Some.
  - split.
    + intros k Hk. apply init_fold_is_Some. left.
      by apply fallback_is_Some, update_levels_is_Some.
    + intros _ m Hm. apply init_fold_is_Some. right.
      rewrite fallback_markets, update_levels_markets. simpl.
      by apply list_elem_of_fmap_2.
Qed.

(** X6: what the fallback does. A safety asset of the catalog that has a
    schedule entry holds A or B afterwards: an entry at A or B is kept as it
    is, an entry at C or D becomes the B entry with 2000 ms. It never creates
    an entry, it leaves the entries of symbols that no safety asset of the
    catalog carries as they are, and it touches no counter. *)
Theorem fallback_safety_effect (rks : list (string * MarketRanking)) (st : Collector) :
  let st' := _apply_fallback_safety rks st in
  (forall m sc, m ∈ markets st -> is_safety_asset m = true ->
     schedules st !! symbol_raw m = Some sc ->
     exists sc', schedules st' !! symbol_raw m = Some sc'
       /\ (level sc' = LvA \/ level sc' = LvB)
       /\ (level sc = LvA \/ level sc = LvB -> sc' = sc)
       /\ (level sc = LvC \/ level sc = LvD ->
           sc' = mkMarketSchedule (symbol_raw m) LvB 0 LEVEL_B_INTERVAL_MS))
  /\ (forall sym, schedules st !! sym = None -> schedules st' !! sym = None)
  /\ (forall sym,
        (forall m, m ∈ markets st -> symbol_raw m = sym -> is_safety_asset m = false) ->
        schedules st' !! sym = schedules st !! sym)
  /\ promotion_counters st' = promotion_counters st
  /\ demotion_counters st' = demotion_counters st.
Proof.
  cbv zeta. split; [|split; [|split]].
  - intros m sc Hin Hsafe Hsc.
    pose proof (fallback_floor rks st m Hin Hsafe) as H. by rewrite Hsc in H.
  - intros sym Hnone. unfold _apply_fallback_safety.
    rewrite fallback_fold_schedules, Hnone. by case_match.
  - intros sym Hno. unfold _apply_fallback_safety. rewrite fallback_fold_schedules.
    assert (safety_symbol (markets st) sym = false) as ->; [|done].
    unfold safety_symbol. apply not_true_is_false. intros Hex.
    apply existsb_exists in Hex as (m & Hm & Hb).
    apply andb_true_iff in Hb as [Hs He]. apply String.eqb_eq in He.
    apply list_elem_of_In in Hm. rewrite (Hno m Hm He) in Hs. done.
  - unfold _apply_fallback_safety. generalize (markets st) as ms. intros ms.
    apply (fold_left_preserves
             (fun s => promotion_counters s = promotion_counters st
                       /\ demotion_counters s = demotion_counters st)); [|done].
    intros s m [<- <-]. unfold fallback_step. by repeat case_match.
Qed.

(** ** No market fires twice within its interval *)

Lemma due_fold_markets (now_ms : Z) (ms : list MarketInfo) (acc : Collector * list MarketInfo) :
  markets (fold_left (due_step now_ms) ms acc).1 = markets acc.1.
Proof.
  apply (fold_left_preserves (fun a => markets a.1 = markets acc.1)); [|done].
  intros [s d] m <-. unfold due_step. by repeat case_match.
Qed.

(** X7: with one catalog entry per symbol, a scheduled market returned by a
    selection at [now_ms] is not returned by a following selection at any
    instant before [now_ms + interval_ms]. *)
Theorem no_double_fire (now_ms now' : Z) (st : Collector) (m : MarketInfo)
    (sc : MarketSchedule) :
  NoDup (symbol_raw <$> markets st) ->
  m ∈ (_get_markets_due_for_sampling now_ms st).2 ->
  schedules st !! symbol_raw m = Some sc ->
  now' < now_ms + interval_ms sc ->
  m ∉ (_get_markets_due_for_sampling now' (_get_markets_due_for_sampling now_ms st).1).2.
Proof.
  intros Hnd Hdue Hsc Hlt. unfold _get_markets_due_for_sampling in *.
  destruct (due_fold_spec now_ms (markets st) st [] Hnd) as [Hd1 Hs1].
  set (st1 := (fold_left (due_step now_ms) (markets st) (st, [])).1) in *.
  assert (markets st1 = markets st) as Hm by apply due_fold_markets.
  rewrite Hd1 in Hdue. simpl in Hdue.
  apply list_elem_of_In, filter_In in Hdue as [Hin Hnow].
  apply list_elem_of_In in Hin.
  unfold due_now in Hnow. rewrite Hsc in Hnow.
  assert (schedules st1 !! symbol_raw m
          = Some (mkMarketSchedule (s_symbol_raw sc) (level sc)
                    (now_ms + interval_ms sc) (interval_ms sc))) as Hsc1.
  { rewrite Hs1. destruct (decide (symbol_raw m ∈ symbol_raw <$> markets st)) as [_|Hn].
    - rewrite Hsc. simpl. unfold advance_if_due. by rewrite Hnow.
    - exfalso. apply Hn. by apply list_elem_of_fmap_2. }
  rewrite Hm.
  assert (NoDup (symbol_raw <$> markets st1)) as Hnd1 by (by rewrite Hm).
  destruct (due_fold_spec now' (markets st1) st1 [] Hnd1) as [Hd2 _].
  rewrite Hm in Hd2. rewrite Hd2. simpl.
  intros Hin2. apply list_elem_of_In, filter_In in Hin2 as [_ Hnow2].
  unfold due_now in Hnow2. rewrite Hsc1 in Hnow2. simpl in Hnow2.
  apply Z.leb_le in Hnow2. lia.
Qed.

Lemma no_double_fire_witness :
  let st := with_markets [perp "BTC"]
              (set_schedules {[ "BTC" := mkMarketSchedule "BTC" LvA 1000 250 ]}
                 empty_collector) in
  (_get_markets_due_for_sampling 1200 st).2 = [perp "BTC"]
  /\ perp "BTC" ∉ (_get_markets_due_for_sampling 1449
                     (_get_markets_due_for_sampling 1200 st).1).2.
Proof.
  cbv zeta. split; [reflexivity|].
  apply (no_double_fire 1200 1449 _ (perp "BTC") (mkMarketSchedule "BTC" LvA 1000 250)).
  - apply (bool_decide_unpack _). by vm_compute.
  - by left.
  - reflexivity.
  - simpl. lia.
Defined.

(** ** Sampler *)






(** X9: the book reading. Bid, ask and mid are all present or all absent;
    when present, bid and ask are positive, the mid is their mean, and the
    spread is present too (the test [mid > 0] cannot fail) with
    [spread = (ask - bid) / mid * 10000], which lies strictly between
    -20000 and 20000 and is negative exactly for a crossed book. The stale
    mark is set by the reading only when the fetch raised. *)
Theorem book_reading_facts (snapshot : Snapshot) :
  let rd := read_book snapshot in
  match br_bid rd, br_ask rd, br_mid rd, br_spread_bps rd with
  | Some b, Some a, Some m, Some s =>
      (0 < b)%Q /\ (0 < a)%Q /\ (m == (b + a) / 2)%Q
      /\ (s == (a - b) / m * 10000)%Q
      /\ (-20000 < s)%Q /\ (s < 20000)%Q
      /\ ((s < 0)%Q <-> (a < b)%Q)
      /\ br_stale_flag rd = false
  | None, None, None, None => br_stale_flag rd = true <-> snapshot = FetchRaised
  | _, _, _, _ => False
  end.
Proof.
  destruct snapshot as [| |bids asks]; simpl; [done | done |].
  destruct (_best_price bids true) as [b|]; [|done].
  destruct (_best_price asks false) as [a|]; [|done].
  destruct (negb (Qeq_bool b 0) && negb (Qeq_bool a 0) && Qgtb b 0 && Qgtb a 0) eqn:E;
    simpl; [|done].
  apply andb_true_iff in E as [E Ha]. apply andb_true_iff in E as [_ Hb].
  apply Qgtb_gt in Ha, Hb.
  assert (0 < (b + a) / 2)%Q as Hm.
  { apply Qlt_shift_div_l; [done|]. lra. }
  assert (Qgtb ((b + a) / 2) 0 = true) as -> by (by apply Qgtb_gt).
  split; [done|]. split; [done|]. split; [reflexivity|]. split; [reflexivity|].
  assert (2 * ((b + a) / 2) == b + a)%Q as Hm2 by field.
  set (m := ((b + a) / 2)%Q) in *. clearbody m.
  assert ((a - b) / m == - ((b - a) / m))%Q as He.
  { field. intros H0. rewrite H0 in Hm. by apply Qlt_irrefl in Hm. }
  assert ((a - b) / m < 2)%Q as Hup.
  { apply Qlt_shift_div_r; [done|]. lra. }
  assert ((b - a) / m < 2)%Q as Hlow.
  { apply Qlt_shift_div_r; [done|]. lra. }
  split; [lra|]. split; [lra|]. split; [|done].
  split.
  - intros Hs. destruct (Qlt_le_dec a b) as [|Hle]; [done|]. exfalso.
    assert (0 <= (a - b) / m)%Q as H0.
    { apply Qle_shift_div_l; [done|]. lra. }
    lra.
  - intros Hab.
    assert ((a - b) / m < 0)%Q as H0.
    { apply Qlt_shift_div_r; [done|]. lra. }
    lra.
Qed.

(** The reading has bid, ask, mid and spread together or none of them, and
    with them no stale mark. *)
Lemma read_book_shape (snapshot : Snapshot) :
  match br_bid (read_book snapshot), br_ask (read_book snapshot),
        br_mid (read_book snapshot), br_spread_bps (read_book snapshot) with
  | Some _, Some _, Some _, Some _ => br_stale_flag (read_book snapshot) = false
  | None, None, None, None => True
  | _, _, _, _ => False
  end.
Proof.
  destruct snapshot as [| |bids asks]; simpl; [done | done |].
  destruct (_best_price bids true) as [b|]; [|done].
  destruct (_best_price asks false) as [a|]; [|done].
  destruct (negb (Qeq_bool b 0) && negb (Qeq_bool a 0) && Qgtb b 0 && Qgtb a 0) eqn:E;
    simpl; [|done].
  apply andb_true_iff in E as [E Ha]. apply andb_true_iff in E as [_ Hb].
  apply Qgtb_gt in Ha, Hb.
  assert (Qgtb ((b + a) / 2) 0 = true) as ->; [|done].
  apply Qgtb_gt. apply Qlt_shift_div_l; [done|]. lra.
Qed.

(** [collect_sample] either rejects, counting it, or returns a sample and
    leaves the collector alone. *)
Lemma collect_sample_cases (now_ms : Z) (market : MarketInfo) (snapshot : Snapshot)
    (st : Collector) :
  (collect_sample now_ms market snapshot st
   = (None, set_skipped_spread_gt_30 (skipped_spread_gt_30 st + 1) st))
  \/ (exists sample, collect_sample now_ms market snapshot st = (Some sample, st)).
Proof. unfold collect_sample. case_match; [by left | right; eauto]. Qed.

(** X10: what a returned sample carries. It copies the identity of the
    market, variant included, and the clock reading; its spread, if present, is at most 30; it
    is marked stale exactly when bid or ask is missing; a market without a
    ranking entry is recorded at level D with no score, whatever its
    schedule says; a spot market gets no mark price, funding or open
    interest; and the collector is left as it was. *)
Theorem returned_sample_facts (now_ms : Z) (market : MarketInfo) (snapshot : Snapshot)
    (st : Collector) (sample : MarketSample) :
  (collect_sample now_ms market snapshot st).1 = Some sample ->
  (collect_sample now_ms market snapshot st).2 = st
  /\ ts_ms sample = now_ms
  /\ m_symbol_raw sample = symbol_raw market /\ m_base sample = base market
  /\ m_quote sample = quote market /\ m_market_type sample = market_type market
  /\ m_variant sample = variant market
  /\ (forall s, spread_bps sample = Some s -> (s <= 30)%Q)
  /\ (stale_flag sample = true <-> bid sample = None \/ ask sample = None)
  /\ (dict_get (rankings st) (symbol_raw market) = None ->
      m_level sample = LvD /\ m_score sample = None)
  /\ (market_type market = SPOT ->
      mark_price sample = None /\ funding_rate sample = None
      /\ open_interest_usd sample = None).
Proof.
  unfold collect_sample.
  pose proof (read_book_shape snapshot) as Hrd.
  assert (forall t, (match t with PERP => @None Q | SPOT => None end) = None) as Hnone
    by (by intros []).
  destruct (br_spread_bps (read_book snapshot)) as [s|] eqn:Es.
  - unfold SPREAD_BPS_IGNORE_THRESHOLD. destruct (Qgtb s 30) eqn:Egt; simpl; [done|].
    apply Qgtb_false in Egt. intros [= <-]. simpl.
    destruct (br_bid (read_book snapshot)) as [b|], (br_ask (read_book snapshot)) as [a|],
      (br_mid (read_book snapshot)) as [m|]; try done.
    rewrite Hrd.
    repeat split; try done; intros; simplify_eq/=; try done;
      try (by destruct select (_ \/ _)); try (by case_match);
      try (by select (dict_get _ _ = None) (fun H => rewrite H)).
  - simpl. intros [= <-]. simpl.
    destruct (br_bid (read_book snapshot)) as [b|], (br_ask (read_book snapshot)) as [a|],
      (br_mid (read_book snapshot)) as [m|]; try done.
    repeat split; try done; intros; simplify_eq/=; try done; auto;
      try (by case_match); try (by select (dict_get _ _ = None) (fun H => rewrite H)).
Qed.

Lemma returned_sample_facts_witness :
  exists sample,
    (collect_sample 7 (perp "BTC") (Book [quoted 10000] [quoted 10001]) empty_collector).1 = Some sample
    /\ stale_flag sample = false /\ m_level sample = LvD.
Proof.
  eexists. split; [reflexivity|].
  destruct (returned_sample_facts 7 (perp "BTC") (Book [quoted 10000] [quoted 10001]) empty_collector
              _ eq_refl) as (_ & _ & _ & _ & _ & _ & _ & _ & _ & Hlvl & _).
  split; [reflexivity|]. exact (proj1 (Hlvl eq_refl)).
Defined.

(** ** Fan-out of a tick *)

Lemma gather_fold_spec (tasks : list (Z * MarketInfo * Snapshot)) (st : Collector)
    (acc : list (option MarketSample)) :
  exists rs,
    (fold_left gather_step tasks (st, acc)).2 = acc ++ rs
    /\ length rs = length tasks
    /\ buffer (fold_left gather_step tasks (st, acc)).1 = buffer st
    /\ schedules (fold_left gather_step tasks (st, acc)).1 = schedules st
    /\ skipped_spread_gt_30 (fold_left gather_step tasks (st, acc)).1
       = skipped_spread_gt_30 st + Z.of_nat (length (List.filter is_rejected rs))
    /\ rows_buffered (fold_left gather_step tasks (st, acc)).1 = rows_buffered st.
Proof.
  revert st acc. induction tasks as [|[[now_ms m] snap] tasks IH]; intros st acc.
  - exists []. simpl. rewrite app_nil_r. repeat split; lia.
  - change (fold_left gather_step ((now_ms, m, snap) :: tasks) (st, acc))
      with (fold_left gather_step tasks
              ((collect_sample now_ms m snap st).2,
               acc ++ [(collect_sample now_ms m snap st).1])).
    destruct (collect_sample_cases now_ms m snap st) as [Hc | [sample Hc]];
      rewrite Hc; cbn [fst snd].
    + destruct (IH (set_skipped_spread_gt_30 (skipped_spread_gt_30 st + 1) st)
                  (acc ++ [None])) as (rs & H1 & Hlen & H2 & H3 & H4 & H5).
      exists (None :: rs). rewrite H1, H2, H3, H4, H5, <- app_assoc. simpl.
      repeat split; try done; lia.
    + destruct (IH st (acc ++ [Some sample])) as (rs & H1 & Hlen & H2 & H3 & H4 & H5).
      exists (Some sample :: rs). rewrite H1, H2, H3, H4, H5, <- app_assoc. simpl.
      repeat split; try done; lia.
Qed.




(** ** Buffer flush, in general *)

(** X12: every flush conserves the samples. With an empty buffer it does
    nothing at all: no insert is tried and no metric moves. Otherwise the
    table and the buffer afterwards hold, between them, exactly the table,
    the batch and the entries that arrived meanwhile; the value returned is
    the number of rows the table gained; one insert is counted; and a
    flush that commits leaves only the entries that arrived meanwhile in
    the buffer; and [rows_buffered] is the length of the buffer
    afterwards. *)
Theorem flush_conserves_samples (outcome : InsertOutcome) (newer : list MarketSample)
    (st : Collector) (db : list MarketSample) :
  let r := flush_buffer outcome newer st db in
  (buffer st = [] -> r = (0, st, db))
  /\ (buffer st <> [] ->
      r.2 ++ buffer r.1.2 ≡ₚ db ++ buffer st ++ newer
      /\ Z.of_nat (length r.2) = Z.of_nat (length db) + r.1.1
      /\ inserts_count r.1.2 = inserts_count st + 1
      /\ rows_inserted r.1.2 = rows_inserted st + r.1.1
      /\ (outcome = Committed -> r.2 = db ++ buffer st /\ buffer r.1.2 = newer)
      /\ rows_buffered r.1.2 = Z.of_nat (length (buffer r.1.2))).
Proof.
  cbv zeta. split.
  - intros Hb. unfold flush_buffer. by rewrite Hb.
  - intros Hne. destruct outcome.
    + rewrite flush_buffer_committed by done. simpl.
      split; [by rewrite <- app_assoc|]. split; [rewrite length_app; lia|].
      repeat split; try done.
    + rewrite flush_buffer_raised by done. simpl.
      split; [apply Permutation_app_head, Permutation_app_comm|].
      split; [lia|]. repeat split; try done; lia.
Qed.

(** X13: the buffer counter follows the buffer. [add_to_buffer] appends the
    sample at the end and sets [rows_buffered] to the new length, and the
    sampling part of a tick keeps the two equal. *)
Theorem rows_buffered_tracks_buffer (st : Collector) :
  (forall sample,
     buffer (add_to_buffer sample st) = buffer st ++ [sample]
     /\ rows_buffered (add_to_buffer sample st)
        = Z.of_nat (length (buffer (add_to_buffer sample st))))
  /\ (rows_buffered st = Z.of_nat (length (buffer st)) ->
      forall tasks,
        rows_buffered (collect_due tasks st)
        = Z.of_nat (length (buffer (collect_due tasks st)))).
Proof.
  split; [done|]. intros Hinv tasks. unfold collect_due.
  destruct tasks as [|t tasks]; [done|].
  destruct (gather_fold_spec (t :: tasks) st []) as (rs & _ & _ & Hb & _ & _ & Hr).
  assert (forall rs s, rows_buffered s = Z.of_nat (length (buffer s)) ->
            rows_buffered (fold_left buffer_step rs s)
            = Z.of_nat (length (buffer (fold_left buffer_step rs s)))) as Hf.
  { clear. induction rs as [|[x|] rs IH]; intros s Hs.
    - exact Hs.
    - simpl. apply IH. reflexivity.
    - simpl. by apply IH. }
  apply Hf. by rewrite Hr, Hb.
Qed.

(** ** Retention *)

(** X14: [cleanup_old_data] does nothing until [cleanup_sec] has passed
    since the last run; otherwise it records the run and, when the delete
    commits, keeps exactly the rows with [ts_ms >= cutoff] in their order,
    a row at the cutoff included; when the delete fails the table is
    unchanged but the run is still recorded. After a delete that commits,
    the 24h row count taken at the same instant is the size of the table. *)
Theorem cleanup_keeps_last_24h (now cleanup_sec last_cleanup_time : Q)
    (outcome : DeleteOutcome) (db : list MarketSample) :
  let r := cleanup_old_data now cleanup_sec outcome last_cleanup_time db in
  ((now - last_cleanup_time < cleanup_sec)%Q -> r = (last_cleanup_time, db))
  /\ ((cleanup_sec <= now - last_cleanup_time)%Q ->
      r.1 = now
      /\ (outcome = DeleteRaised -> r.2 = db)
      /\ (outcome = Deleted ->
          r.2 = List.filter (fun s => cutoff_24h_ms now <=? ts_ms s) db
          /\ (forall s, s ∈ r.2 <-> s ∈ db /\ cutoff_24h_ms now <= ts_ms s)
          /\ rt_result (get_db_rows_24h (count_query_24h now r.2))
             = Some (Returned (Z.of_nat (length r.2))))).
Proof.
  cbv zeta. unfold cleanup_old_data. split.
  - intros Hlt. apply Qltb_lt in Hlt. by rewrite Hlt.
  - intros Hle.
    assert (Qltb (now - last_cleanup_time) cleanup_sec = false) as ->.
    { unfold Qltb. apply negb_false_iff, Qle_bool_iff. done. }
    destruct outcome; simpl; (split; [done|]); (split; [done|]); [|done].
    intros _.
    assert (List.filter (fun s => negb (ts_ms s <? cutoff_24h_ms now)) db
            = List.filter (fun s => cutoff_24h_ms now <=? ts_ms s) db) as ->.
    { apply filter_ext. intros s. rewrite Z.leb_antisym. done. }
    split; [done|]. split.
    + intros s. rewrite list_elem_of_In, filter_In, <- list_elem_of_In, Z.leb_le. done.
    + unfold get_db_rows_24h, count_query_24h. simpl. do 3 f_equal.
      induction db as [|s db IH]; simpl; [done|].
      destruct (cutoff_24h_ms now <=? ts_ms s) eqn:E; simpl; [rewrite E; simpl|]; by rewrite IH.
Qed.

(** ** Status documents *)



Lemma rank_before_not_trans (a b c : MarketRanking) :
  rank_before b a = false -> rank_before c b = false -> rank_before c a = false.
Proof. unfold rank_before. rewrite !Z.ltb_ge. lia. Qed.

Lemma rank_before_asym (a b : MarketRanking) :
  rank_before a b = true -> rank_before b a = false.
Proof. unfold rank_before. rewrite Z.ltb_lt, Z.ltb_ge. lia. Qed.

Lemma StronglySorted_seqZ (m : Z) (n : nat) : StronglySorted Z.le (seqZ m (Z.of_nat n)).
Proof.
  revert m. induction n as [|n IH]; intros m.
  - rewrite seqZ_nil by lia. constructor.
  - rewrite seqZ_cons by lia. replace (Z.pred (Z.of_nat (S n))) with (Z.of_nat n) by lia.
    constructor; [apply IH|]. apply Forall_forall. intros x Hx.
    apply elem_of_seqZ in Hx. lia.
Qed.

Lemma take_seqZ (m : Z) (k n : nat) :
  take k (seqZ m (Z.of_nat n)) = seqZ m (Z.of_nat (Nat.min k n)).
Proof.
  destruct (decide (k <= n)%nat) as [Hle|Hgt].
  - replace (Z.of_nat n) with (Z.of_nat k + Z.of_nat (n - k)) by lia.
    rewrite seqZ_app by lia. rewrite take_app_length'.
    + by rewrite Nat.min_l.
    + rewrite length_seqZ. lia.
  - rewrite take_ge by (rewrite length_seqZ; lia). by rewrite Nat.min_r by lia.
Qed.

Lemma rank_market_data_symbol (md : list (string * MarketSample)) (k : string)
    (r : MarketRanking) :
  NoDup (dict_keys md) -> (k, r) ∈ rank_market_data md -> r_symbol_raw r = k.
Proof.
  intros Hnd Hin. unfold rank_market_data in Hin. rewrite score_fold in Hin by done.
  simpl in Hin. apply list_elem_of_lookup_1 in Hin as [j Hj].
  assert (forall srt start rk j k r',
            assign_ranks srt start rk !! j = Some (k, r') ->
            exists r0, rk !! j = Some (k, r0) /\ r_symbol_raw r' = r_symbol_raw r0) as Hspec.
  { clear. induction srt as [|[k0 s0] srt IH]; intros start rk j k r' Hlk; simpl in Hlk.
    - eauto.
    - apply IH in Hlk as (r1 & Hr1 & ->).
      destruct (dict_mem rk k0); [|eauto].
      apply dict_alter_lookup in Hr1 as (r0 & Hr0 & ->). exists r0. split; [done|].
      by case_match. }
  apply Hspec in Hj as (r0 & Hr0 & ->).
  rewrite list_lookup_fmap in Hr0.
  destruct (md !! j) as [[k' smp]|]; simpl in Hr0; [|done].
  unfold initial_ranking in Hr0. simpl in Hr0. by injection Hr0 as -> <-.
Qed.

(** X16: the leaderboard of a collector whose rankings map is the one
    [_calculate_rankings] produced lists the ranks 1, 2, ... up to 400 or
    to the number of ranked markets, in that order; each row shows the rank
    and score of the rankings entry of its symbol; and the truncation flag
    is set exactly when more than 400 markets are ranked. *)
Theorem leaderboard_lists_top_ranks (q : QueryResult) (st : Collector) :
  rankings st = _calculate_rankings q ->
  lb_rank <$> top_400 st
  = seqZ 1 (Z.of_nat (Nat.min 400 (length (rankings st))))
  /\ (forall row, row ∈ top_400 st ->
      exists r, (lb_symbol_raw row, r) ∈ rankings st
                /\ rank r = lb_rank row /\ score r = lb_score row)
  /\ (truncated st = true <-> (400 < length (rankings st))%nat).
Proof.
  intros Hrk.
  assert (NoDup (dict_keys (rankings st))
          /\ (fun kv => rank kv.2) <$> rankings st ≡ₚ seqZ 1 (Z.of_nat (length (rankings st)))
          /\ forall k r, (k, r) ∈ rankings st -> r_symbol_raw r = k) as (Hnd & Hperm & Hsym).
  { rewrite Hrk. destruct q as [|rows]; simpl.
    - split; [constructor|]. split; [done|]. intros k r H. by apply elem_of_nil in H.
    - pose proof (group_latest_NoDup rows) as Hmd.
      destruct (rank_market_data_ranks _ Hmd) as (H1 & H2 & _).
      split; [done|]. split; [done|]. intros k r. by apply rank_market_data_symbol. }
  set (sorted := stable_sort rank_before (rankings st).*2).
  assert (sorted ≡ₚ (rankings st).*2) as Hsp by apply stable_sort_perm.
  assert (rank <$> sorted = seqZ 1 (Z.of_nat (length (rankings st)))) as Hranks.
  { apply (StronglySorted_unique Z.le).
    - eapply StronglySorted_fmap;
        [|apply (stable_sort_sorted rank_before rank_before_not_trans rank_before_asym)].
      intros x y Hxy. unfold rank_before in Hxy. by apply Z.ltb_ge in Hxy.
    - apply StronglySorted_seqZ.
    - rewrite Hsp, <- Hperm, <- list_fmap_compose. done. }
  split; [|split].
  - unfold top_400. fold sorted. rewrite <- list_fmap_compose.
    change (lb_rank ∘ _) with rank.
    rewrite fmap_take, Hranks. apply take_seqZ.
  - intros row Hrow. unfold top_400 in Hrow. fold sorted in Hrow.
    apply list_elem_of_fmap in Hrow as (r & -> & Hr). simpl.
    assert (r ∈ (rankings st).*2) as Hin.
    { rewrite <- Hsp. apply elem_of_take in Hr as (i & Hi & _).
      by eapply list_elem_of_lookup_2. }
    apply list_elem_of_fmap in Hin as ([k r'] & Heq & Hin). simpl in Heq. subst r'.
    exists r. rewrite (Hsym k r Hin). done.
  - unfold truncated. rewrite Z.ltb_lt. lia.
Qed.

Lemma leaderboard_lists_top_ranks_witness :
  let q := QueryRows [row "BBB" 1%Q (Some 5%Q); row "AAA" 2%Q (Some 5%Q)] in
  let st := set_rankings (_calculate_rankings q) empty_collector in
  rankings st = _calculate_rankings q
  /\ lb_symbol_raw <$> top_400 st = ["AAA"; "BBB"]
  /\ lb_rank <$> top_400 st = [1; 2].
Proof.
  cbv zeta. split; [reflexivity|]. split; [by vm_compute|].
  rewrite (proj1 (leaderboard_lists_top_ranks
                    (QueryRows [row "BBB" 1%Q (Some 5%Q); row "AAA" 2%Q (Some 5%Q)])
                    (set_rankings
                       (_calculate_rankings
                          (QueryRows [row "BBB" 1%Q (Some 5%Q); row "AAA" 2%Q (Some 5%Q)]))
                       empty_collector) eq_refl)).
  by vm_compute.
Defined.

(** ** The retry helper, for any arguments *)




(** X18: the edges of [_retry_on_lock]. With [max_retries] at most 0 it
    never calls [func] and returns [None]. With an empty delay list and
    more than one attempt allowed, a locked error on the first call is
    replaced by the index error of the delay lookup, after that one call
    and without a sleep. With one attempt allowed the first call is the
    only one, whatever it does. *)
Theorem retry_on_lock_edges {X : Type} (func : nat -> Attempt X) (delays : list Q) :
  (forall max_retries, max_retries <= 0 ->
     _retry_on_lock func max_retries delays = mkReadTrace None [] 0)
  /\ (forall max_retries, 2 <= max_retries -> raises_locked (func 0%nat) = true ->
      _retry_on_lock func max_retries []
      = mkReadTrace (Some (Raised "list index out of range")) [] 1)
  /\ _retry_on_lock func 1 delays = mkReadTrace (Some (func 0%nat)) [] 1.
Proof.
  split; [|split].
  - intros n Hn. unfold _retry_on_lock. by replace (Z.to_nat n) with 0%nat by lia.
  - intros n Hn Hl. unfold _retry_on_lock.
    destruct (Z.to_nat n) as [|k] eqn:Ek; [lia|]. simpl.
    unfold raises_locked in Hl. destruct (func 0%nat) as [x|msg]; [done|].
    rewrite Hl. case_match eqn:E; [done|]. apply Z.ltb_ge in E. lia.
  - unfold _retry_on_lock. simpl. destruct (func 0%nat) as [x|msg]; [done|].
    by destruct (is_locked_error msg).
Qed.

(** ** Insert metrics *)

Lemma py_sum_scaled (a : Q) (l : list Q) (acc1 acc2 : Q) :
  (acc1 == acc2 * a)%Q ->
  (fold_left Qplus ((fun ti => ti * a)%Q <$> l) acc1 == fold_left Qplus l acc2 * a)%Q.
Proof.
  revert acc1 acc2. induction l as [|x l IH]; intros acc1 acc2 Hacc; simpl; [done|].
  apply IH. rewrite Hacc. ring.
Qed.

(** X19: what [get_inserts_per_sec_avg] reports. The durations cancel: when
    the recorded durations add up to a positive time and rows have been
    inserted, the figure is [rows_inserted / max(inserts_count, 1)], the
    average number of rows per insert, whatever the durations are. It is 0
    when nothing is recorded, when the durations add up to 0, or when no
    row has been inserted. *)
Theorem inserts_per_sec_avg_is_rows_per_insert (m : SampleMetrics.t) :
  let total_time := SampleMetrics.py_sum (SampleMetrics.insert_times m) in
  let avg := SampleMetrics.get_inserts_per_sec_avg m in
  (SampleMetrics.insert_times m = [] -> avg = 0%Q)
  /\ ((total_time == 0)%Q -> (avg == 0)%Q)
  /\ ((0 < total_time)%Q -> SampleMetrics.rows_inserted m <= 0 -> (avg == 0)%Q)
  /\ ((0 < total_time)%Q -> 0 < SampleMetrics.rows_inserted m ->
      (avg == inject_Z (SampleMetrics.rows_inserted m)
              / inject_Z (Z.max (SampleMetrics.inserts_count m) 1))%Q).
Proof.
  cbv zeta. unfold SampleMetrics.get_inserts_per_sec_avg.
  split; [by intros ->|].
  destruct (SampleMetrics.insert_times m) as [|d0 ds] eqn:Et.
  { split; [done|]. split; intros H; by apply Qlt_irrefl in H. }
  set (times := d0 :: ds) in *.
  set (per := (inject_Z (SampleMetrics.rows_inserted m)
               / inject_Z (Z.max (SampleMetrics.inserts_count m) 1))%Q).
  set (tt := SampleMetrics.py_sum times).
  assert (SampleMetrics.py_sum ((fun ti => ti * per)%Q <$> times) == tt * per)%Q as Hrows.
  { unfold SampleMetrics.py_sum. apply py_sum_scaled. ring. }
  set (tr := SampleMetrics.py_sum ((fun ti => ti * per)%Q <$> times)) in *.
  assert (0 < inject_Z (Z.max (SampleMetrics.inserts_count m) 1))%Q as Hden.
  { change 0%Q with (inject_Z 0). rewrite <- Zlt_Qlt. lia. }
  split; [|split].
  - intros H0. apply Qeq_bool_iff in H0. by rewrite H0.
  - intros Hpos Hrows0.
    destruct (Qeq_bool tt 0) eqn:E0; [done|].
    destruct (Qgtb tr 0) eqn:Eg; [|done]. exfalso.
    apply Qgtb_gt in Eg. rewrite Hrows in Eg.
    assert (per <= 0)%Q as Hper.
    { unfold per. apply Qle_shift_div_r; [done|]. rewrite Qmult_0_l.
      change 0%Q with (inject_Z 0). by rewrite <- Zle_Qle. }
    assert (tt * per <= 0)%Q as Hle.
    { rewrite <- (Qmult_0_r tt). apply Qmult_le_l; done. }
    by apply Qlt_not_le in Eg.
  - intros Hpos Hrows1.
    destruct (Qeq_bool tt 0) eqn:E0.
    { apply Qeq_bool_iff in E0. rewrite E0 in Hpos. by apply Qlt_irrefl in Hpos. }
    assert (0 < per)%Q as Hper.
    { unfold per. apply Qlt_shift_div_l; [done|]. rewrite Qmult_0_l.
      change 0%Q with (inject_Z 0). by rewrite <- Zlt_Qlt. }
    assert (Qgtb tr 0 = true) as ->.
    { apply Qgtb_gt. rewrite Hrows. rewrite <- (Qmult_0_r tt). by apply Qmult_lt_l. }
    rewrite Hrows. field. intros H0. rewrite H0 in Hpos. by apply Qlt_irrefl in Hpos.
Qed.

(** X20: [record_insert] adds the rows, counts the insert and appends the
    duration at the end of the deque, which afterwards holds at most 100
    durations: all of the earlier ones if there were fewer than 100, else
    the latest 99 of them. *)
Theorem record_insert_keeps_last_100 (rows : Z) (duration : Q) (m : SampleMetrics.t) :
  let m' := SampleMetrics.record_insert rows duration m in
  SampleMetrics.rows_inserted m' = SampleMetrics.rows_inserted m + rows
  /\ SampleMetrics.inserts_count m' = SampleMetrics.inserts_count m + 1
  /\ (length (SampleMetrics.insert_times m') <= 100)%nat
  /\ last (SampleMetrics.insert_times m') = Some duration
  /\ SampleMetrics.insert_times m'
     = drop (length (SampleMetrics.insert_times m) - 99) (SampleMetrics.insert_times m)
       ++ [duration].
Proof.
  cbv zeta. unfold SampleMetrics.record_insert, SampleMetrics.deque_append. simpl.
  set (d := SampleMetrics.insert_times m).
  assert (drop (length (d ++ [duration]) - 100) (d ++ [duration])
          = drop (length d - 99) d ++ [duration]) as ->.
  { rewrite length_app. simpl.
    replace (length d + 1 - 100)%nat with (length d - 99)%nat by lia.
    rewrite drop_app_le; [done|]. lia. }
  repeat split; try done.
  - rewrite length_app, length_drop. simpl. lia.
  - apply last_snoc.
Qed.

(** ** Percentile and score, ranges and order *)

Lemma count_if_nonneg {T : Type} (p : T -> bool) (l : list T) : 0 <= count_if p l.
Proof. induction l as [|x l IH]; simpl; [lia|]. case_match; lia. Qed.

(** Two tests that never hold together and both imply a third. *)
Lemma count_if_disjoint_le {T : Type} (p q r : T -> bool) (l : list T) :
  (forall x, p x = true -> q x = false) ->
  (forall x, p x = true -> r x = true) -> (forall x, q x = true -> r x = true) ->
  count_if p l + count_if q l <= count_if r l.
Proof.
  intros Hpq Hpr Hqr. induction l as [|x l IH]; simpl; [lia|].
  specialize (Hpq x). specialize (Hpr x). specialize (Hqr x).
  destruct (p x), (q x), (r x); try lia; naive_solver.
Qed.

Lemma count_if_le_length {T : Type} (p q : T -> bool) (l : list T) :
  (forall x, p x = true -> q x = false) ->
  count_if p l + count_if q l <= Z.of_nat (length l).
Proof.
  intros Hpq. rewrite <- (count_if_all (fun _ => true) l) by (by apply Forall_true).
  by apply count_if_disjoint_le.
Qed.

Lemma Qltb_Qeq_disjoint (v x : Q) : Qltb x v = true -> Qeq_bool x v = false.
Proof.
  intros Hlt. apply Qltb_lt in Hlt. destruct (Qeq_bool x v) eqn:E; [|done].
  apply Qeq_bool_iff in E. by apply Qlt_not_eq in Hlt.
Qed.

Lemma inject_Z_pos_nonzero (n : Z) : 0 < n -> ~ (inject_Z n == 0)%Q.
Proof.
  intros Hn H0. change 0%Q with (inject_Z 0) in H0.
  apply (proj1 (inject_Z_injective n 0)) in H0. lia.
Qed.

(** The mid-rank expression on integer counts, compared in [Q]. *)
Lemma mid_rank_le (b1 e1 b2 e2 n : Z) :
  0 < n -> 2 * b1 + e1 <= 2 * b2 + e2 ->
  ((inject_Z b1 + inject_Z e1 / 2) / inject_Z n
   <= (inject_Z b2 + inject_Z e2 / 2) / inject_Z n)%Q.
Proof.
  intros Hn Hle.
  assert (0 < inject_Z n)%Q as HnQ.
  { change 0%Q with (inject_Z 0). by rewrite <- Zlt_Qlt. }
  assert (inject_Z (2 * b1 + e1) <= inject_Z (2 * b2 + e2))%Q as HQ by (by rewrite <- Zle_Qle).
  rewrite !inject_Z_plus, !inject_Z_mult in HQ. change (inject_Z 2) with 2%Q in HQ.
  apply Qle_shift_div_l; [done|].
  assert ((inject_Z b1 + inject_Z e1 / 2) / inject_Z n * inject_Z n
          == inject_Z b1 + inject_Z e1 / 2)%Q as ->.
  { field. intros H0. rewrite H0 in HnQ. by apply Qlt_irrefl in HnQ. }
  assert (forall x y, x + y / 2 == (2 * x + y) / 2)%Q as Hhalf by (intros; field).
  rewrite !Hhalf. apply Qle_shift_div_l; [done|].
  assert (forall z, z / 2 * 2 == z)%Q as H2 by (intros; field).
  by rewrite H2.
Qed.

(** The percentile rank is a share: between 0 and 1. *)
Lemma percentile_rank_range (v : Q) (S : list Q) :
  (0 <= _calculate_percentile_rank v S)%Q /\ (_calculate_percentile_rank v S <= 1)%Q.
Proof.
  destruct S as [|x S]; [by split|].
  set (l := x :: S).
  assert (l ≠ []) as Hne by done.
  assert (0 < Z.of_nat (length l)) as Hlen by (simpl; lia).
  rewrite !percentile_rank_unfold by done.
  pose proof (count_if_nonneg (fun s => Qltb s v) l) as Hb.
  pose proof (count_if_nonneg (fun s => Qeq_bool s v) l) as He.
  pose proof (count_if_le_length (fun s => Qltb s v) (fun s => Qeq_bool s v) l
                (Qltb_Qeq_disjoint v)) as Hsum.
  split.
  - assert (0 == (inject_Z 0 + inject_Z 0 / 2) / inject_Z (Z.of_nat (length l)))%Q as ->.
    { change (inject_Z 0) with 0%Q. field. by apply inject_Z_pos_nonzero. }
    apply mid_rank_le; lia.
  - assert (1 == (inject_Z (Z.of_nat (length l)) + inject_Z 0 / 2)
                 / inject_Z (Z.of_nat (length l)))%Q as ->.
    { change (inject_Z 0) with 0%Q. field. by apply inject_Z_pos_nonzero. }
    apply mid_rank_le; lia.
Qed.

(** X21: the percentile rank lies between 0 and 1 and follows the order of
    the values: a larger value never gets a smaller percentile in the same
    list. *)
Theorem percentile_rank_monotone (v w : Q) (S : list Q) :
  (0 <= _calculate_percentile_rank v S)%Q
  /\ (_calculate_percentile_rank v S <= 1)%Q
  /\ ((v <= w)%Q -> (_calculate_percentile_rank v S <= _calculate_percentile_rank w S)%Q).
Proof.
  destruct S as [|x S]; [by repeat split|].
  set (l := x :: S).
  assert (l ≠ []) as Hne by done.
  assert (0 < Z.of_nat (length l)) as Hlen by (simpl; lia).
  rewrite !percentile_rank_unfold by done.
  pose proof (count_if_nonneg (fun s => Qltb s v) l) as Hb.
  pose proof (count_if_nonneg (fun s => Qeq_bool s v) l) as He.
  pose proof (count_if_le_length (fun s => Qltb s v) (fun s => Qeq_bool s v) l
                (Qltb_Qeq_disjoint v)) as Hsum.
  split; [|split].
  - assert (0 == (inject_Z 0 + inject_Z 0 / 2) / inject_Z (Z.of_nat (length l)))%Q as ->.
    { change (inject_Z 0) with 0%Q. field. by apply inject_Z_pos_nonzero. }
    apply mid_rank_le; lia.
  - assert (1 == (inject_Z (Z.of_nat (length l)) + inject_Z 0 / 2)
                 / inject_Z (Z.of_nat (length l)))%Q as ->.
    { change (inject_Z 0) with 0%Q. field. by apply inject_Z_pos_nonzero. }
    apply mid_rank_le; lia.
  - intros Hvw. apply mid_rank_le; [done|].
    destruct (Qle_lt_or_eq _ _ Hvw) as [Hlt | Heq].
    + pose proof (count_if_disjoint_le (fun s => Qltb s v) (fun s => Qeq_bool s v)
                    (fun s => Qltb s w) l (Qltb_Qeq_disjoint v)) as Hd.
      pose proof (count_if_nonneg (fun s => Qeq_bool s w) l) as Hew.
      assert (count_if (fun s => Qltb s v) l + count_if (fun s => Qeq_bool s v) l
              <= count_if (fun s => Qltb s w) l) as Hd'.
      { apply Hd.
        - intros s Hs. apply Qltb_lt in Hs. apply Qltb_lt. by eapply Qlt_trans.
        - intros s Hs. apply Qeq_bool_iff in Hs. apply Qltb_lt. by rewrite Hs. }
      lia.
    + rewrite (count_if_ext (fun s => Qltb s v) (fun s => Qltb s w)),
              (count_if_ext (fun s => Qeq_bool s v) (fun s => Qeq_bool s w)); [lia| |].
      * intros s. by rewrite Heq.
      * intros s. unfold Qltb. by rewrite Heq.
Qed.

Lemma percentile_or_zero_range (x : Q) (xs : list Q) :
  (0 <= percentile_or_zero x xs)%Q /\ (percentile_or_zero x xs <= 1)%Q.
Proof.
  unfold percentile_or_zero. destruct xs as [|y ys]; [done|].
  apply percentile_rank_range.
Qed.

(** ** Which sample a ranking is built from *)

Lemma dict_get_app_fresh {V : Type} (d : list (string * V)) (k' k : string) (v : V) :
  dict_get (d ++ [(k', v)]) k
  = match dict_get d k with
    | Some x => Some x
    | None => if String.eqb k' k then Some v else None
    end.
Proof.
  induction d as [|[k0 v0] d IH]; simpl; [by destruct (String.eqb k' k)|].
  by destruct (String.eqb k0 k).
Qed.

Lemma group_latest_get (latest_samples : list MarketSample) (k : string) :
  dict_get (group_latest latest_samples) k
  = List.find (fun s => String.eqb (m_symbol_raw s) k) latest_samples.
Proof.
  unfold group_latest.
  change (List.find (fun s => String.eqb (m_symbol_raw s) k) latest_samples)
    with (match dict_get ([] : list (string * MarketSample)) k with
          | Some x => Some x
          | None => List.find (fun s => String.eqb (m_symbol_raw s) k) latest_samples
          end).
  generalize ([] : list (string * MarketSample)).
  induction latest_samples as [|s rows IH]; intros acc; simpl.
  - by destruct (dict_get acc k).
  - rewrite IH. destruct (dict_mem acc (m_symbol_raw s)) eqn:Em.
    + destruct (dict_get acc k) eqn:Eg; [done|].
      destruct (String.eqb (m_symbol_raw s) k) eqn:E; [|done].
      apply String.eqb_eq in E. subst k. unfold dict_mem in Em. by rewrite Eg in Em.
    + apply dict_mem_false_keys in Em. rewrite dict_set_fresh by done.
      rewrite dict_get_app_fresh. destruct (dict_get acc k); [done|].
      by destruct (String.eqb (m_symbol_raw s) k).
Qed.

Lemma dict_get_fmap_keyed {V W : Type} (f : string * V -> string * W)
    (d : list (string * V)) (k : string) :
  (forall kv, (f kv).1 = kv.1) ->
  dict_get (f <$> d) k = (fun v => (f (k, v)).2) <$> dict_get d k.
Proof.
  intros Hf. induction d as [|[k0 v0] d IH]; simpl; [done|].
  specialize (Hf (k0, v0)) as Hk. destruct (f (k0, v0)) as [k1 w] eqn:Ef. simpl in Hk. subst k1.
  destruct (String.eqb k0 k) eqn:E; [|done].
  apply String.eqb_eq in E. subst k0. simpl. by rewrite Ef.
Qed.

Lemma dict_get_alter {V : Type} (f : V -> V) (k' k : string) (d : list (string * V)) :
  dict_get (dict_alter f k' d) k
  = (if String.eqb k k' then f else id) <$> dict_get d k.
Proof.
  unfold dict_alter. induction d as [|[k0 v0] d IH]; simpl; [done|].
  destruct (String.eqb k0 k') eqn:E1; simpl; destruct (String.eqb k0 k) eqn:E2; try done.
  - apply String.eqb_eq in E1, E2. subst. by rewrite String.eqb_refl.
  - apply String.eqb_eq in E2. subst k0. by rewrite E1.
Qed.

Lemma assign_ranks_get (srt : list (string * Q)) (start : Z)
    (rk : list (string * MarketRanking)) (k : string) :
  match dict_get (assign_ranks srt start rk) k, dict_get rk k with
  | Some r', Some r =>
      r_symbol_raw r' = r_symbol_raw r /\ score r' = score r
      /\ r_volume_24h_usd r' = r_volume_24h_usd r
      /\ r_open_interest_usd r' = r_open_interest_usd r
      /\ r_spread_bps r' = r_spread_bps r
  | None, None => True
  | _, _ => False
  end.
Proof.
  revert start rk. induction srt as [|[k0 s0] srt IH]; intros start rk; simpl.
  - by destruct (dict_get rk k).
  - specialize (IH (start + 1)
                  (if dict_mem rk k0 then dict_alter (with_rank start) k0 rk else rk)).
    destruct (dict_get (assign_ranks srt (start + 1) _) k) as [r'|];
      destruct (dict_mem rk k0); try rewrite dict_get_alter in IH;
      destruct (dict_get rk k) as [r|]; simpl in IH; try done.
    destruct (String.eqb k k0); simpl in IH; done.
Qed.

(** X23: a symbol is ranked exactly when the query returned a sample of
    it, and its ranking carries the symbol and the volume, open interest and
    spread of the first such sample, which is the newest one. *)
Theorem ranking_uses_newest_sample (latest_samples : list MarketSample) (k : string) :
  match dict_get (_calculate_rankings (QueryRows latest_samples)) k,
        List.find (fun s => String.eqb (m_symbol_raw s) k) latest_samples with
  | Some r, Some sample =>
      r_symbol_raw r = k
      /\ r_volume_24h_usd r = volume_24h_usd sample
      /\ r_open_interest_usd r = open_interest_usd sample
      /\ r_spread_bps r = spread_bps sample
  | None, None => True
  | _, _ => False
  end.
Proof.
  simpl. unfold rank_market_data.
  rewrite score_fold by apply group_latest_NoDup. simpl.
  match goal with
  | |- context [assign_ranks ?srt 1 ?rk] => pose proof (assign_ranks_get srt 1 rk k) as H
  end.
  rewrite dict_get_fmap_keyed in H by done.
  rewrite group_latest_get in H.
  destruct (dict_get (assign_ranks _ 1 _) k) as [r'|];
    destruct (List.find _ latest_samples) as [sample|]; simpl in H; try done.
  destruct H as (-> & _ & -> & -> & ->). done.
Qed.

(** X22: the score of a ranked market is 0.6 times the volume percentile
    plus 0.3 times the open-interest percentile minus 0.1 times the spread
    percentile of its newest sample, each taken among the values present in
    the newest samples of all symbols, with a missing value read as 0 and
    the percentile as 0 when no symbol has the metric. Each percentile
    lies between 0 and 1, so the score lies between -0.1 and 0.9. *)
Theorem sample_score_range (latest_samples : list MarketSample) (k : string) :
  match dict_get (_calculate_rankings (QueryRows latest_samples)) k,
        List.find (fun s => String.eqb (m_symbol_raw s) k) latest_samples with
  | Some r, Some sample =>
      let newest := snd <$> group_latest latest_samples in
      let norm metric :=
        percentile_or_zero (default 0%Q (metric sample)) (collect_present metric newest) in
      score r
      = ((6 # 10) * norm volume_24h_usd + (3 # 10) * norm open_interest_usd
         - (1 # 10) * norm spread_bps)%Q
      /\ (forall metric, (0 <= norm metric)%Q /\ (norm metric <= 1)%Q)
      /\ (- (1 # 10) <= score r)%Q /\ (score r <= 9 # 10)%Q
  | None, None => True
  | _, _ => False
  end.
Proof.
  simpl. unfold rank_market_data.
  rewrite score_fold by apply group_latest_NoDup. simpl.
  match goal with
  | |- context [assign_ranks ?srt 1 ?rk] => pose proof (assign_ranks_get srt 1 rk k) as H
  end.
  rewrite dict_get_fmap_keyed in H by done.
  rewrite group_latest_get in H.
  destruct (dict_get (assign_ranks _ 1 _) k) as [r'|];
    destruct (List.find _ latest_samples) as [sample|]; simpl in H; try done.
  destruct H as (_ & -> & _). unfold sample_score. cbv zeta.
  split; [reflexivity|]. split; [intros metric; apply percentile_or_zero_range|].
  set (newest := snd <$> group_latest latest_samples).
  destruct (percentile_or_zero_range (default 0%Q (volume_24h_usd sample))
              (collect_present volume_24h_usd newest)) as [Hv0 Hv1].
  destruct (percentile_or_zero_range (default 0%Q (open_interest_usd sample))
              (collect_present open_interest_usd newest)) as [Ho0 Ho1].
  destruct (percentile_or_zero_range (default 0%Q (spread_bps sample))
              (collect_present spread_bps newest)) as [Hs0 Hs1].
  set (pv := percentile_or_zero _ (collect_present volume_24h_usd newest)) in *.
  set (po := percentile_or_zero _ (collect_present open_interest_usd newest)) in *.
  set (ps := percentile_or_zero _ (collect_present spread_bps newest)) in *.
  clearbody pv po ps. split; lra.
Qed.

(** ** Snapshot export *)

Lemma export_chunks_spec (chunk_size fuel : nat) (result : list MarketSample)
    (offset : nat) (written : list MarketSample) :
  (0 < chunk_size)%nat ->
  (length result - offset < fuel * chunk_size)%nat ->
  export_chunks chunk_size fuel result offset written = Some (written ++ drop offset result).
Proof.
  intros Hc. revert offset written.
  induction fuel as [|fuel IH]; intros offset written Hfuel; [lia|].
  simpl. unfold query_page.
  destruct (take chunk_size (drop offset result)) as [|x chunk] eqn:Ech.
  - assert (drop offset result = []) as ->; [|by rewrite app_nil_r].
    destruct (drop offset result) as [|y rest]; [done|].
    destruct chunk_size; [lia | simpl in Ech; discriminate].
  - assert (S (length chunk) = Nat.min chunk_size (length result - offset)) as Hlen.
    { change (S (length chunk)) with (length (x :: chunk)).
      by rewrite <- Ech, length_take, length_drop. }
    destruct (S (length chunk) <? chunk_size)%nat eqn:Elt.
    + apply Nat.ltb_lt in Elt. rewrite <- Ech, take_ge; [done|]. rewrite length_drop. lia.
    + apply Nat.ltb_ge in Elt. rewrite <- Ech, IH.
      * rewrite <- app_assoc. f_equal. f_equal.
        rewrite <- drop_drop. by rewrite take_drop.
      * simpl in Hfuel. lia.
Qed.

(** X24: the chunk loop of [_export_raw_csv] writes every row of its query
    result once and in order, 1000 at a time, provided the query returns
    the same result each time it is run; it needs one round per started
    thousand, and one more when the count is a multiple of 1000. *)
Theorem export_raw_csv_writes_all (fuel : nat) (result : list MarketSample) :
  (length result / 1000 < fuel)%nat ->
  _export_raw_csv fuel result = Some result.
Proof.
  intros Hfuel. unfold _export_raw_csv.
  rewrite export_chunks_spec; [done | lia |].
  rewrite Nat.sub_0_r.
  pose proof (Nat.div_mod_eq (length result) 1000) as Hdm.
  pose proof (Nat.mod_upper_bound (length result) 1000). lia.
Qed.

Lemma export_raw_csv_writes_all_witness :
  _export_raw_csv 1 [row "BTC" 1%Q None; row "ETH" 2%Q None]
  = Some [row "BTC" 1%Q None; row "ETH" 2%Q None].
Proof.
  apply export_raw_csv_writes_all. simpl. lia.
Defined.

Lemma fold_min_spec (l : list MarketSample) (m : Z) :
  let r := fold_left (fun m x => Z.min m (ts_ms x)) l m in
  r <= m /\ (forall s, s ∈ l -> r <= ts_ms s) /\ (r = m \/ exists s, s ∈ l /\ ts_ms s = r).
Proof.
  revert m. induction l as [|x l IH]; intros m; simpl.
  - split; [lia|]. split; [|by left]. intros s Hs. by apply elem_of_nil in Hs.
  - destruct (IH (Z.min m (ts_ms x))) as (H1 & H2 & H3). split; [lia|]. split.
    + intros s Hs. apply elem_of_cons in Hs as [->|Hs]; [lia | by apply H2].
    + destruct H3 as [H3 | (s & Hs & Hts)].
      * destruct (Z.min_spec m (ts_ms x)) as [[_ Hm]|[_ Hm]];
          [left; lia | right; exists x; split; [by left | lia]].
      * right. exists s. split; [by right | done].
Qed.

Lemma fold_max_spec (l : list MarketSample) (m : Z) :
  let r := fold_left (fun m x => Z.max m (ts_ms x)) l m in
  m <= r /\ (forall s, s ∈ l -> ts_ms s <= r) /\ (r = m \/ exists s, s ∈ l /\ ts_ms s = r).
Proof.
  revert m. induction l as [|x l IH]; intros m; simpl.
  - split; [lia|]. split; [|by left]. intros s Hs. by apply elem_of_nil in Hs.
  - destruct (IH (Z.max m (ts_ms x))) as (H1 & H2 & H3). split; [lia|]. split.
    + intros s Hs. apply elem_of_cons in Hs as [->|Hs]; [lia | by apply H2].
    + destruct H3 as [H3 | (s & Hs & Hts)].
      * destruct (Z.max_spec m (ts_ms x)) as [[_ Hm]|[_ Hm]];
          [right; exists x; split; [by left | lia] | left; lia].
      * right. exists s. split; [by right | done].
Qed.

(** X25: the gate of [export_universe_snapshot]. An empty table, and only
    an empty table, is skipped for lack of data. The cutoff of an export is
    24 hours before the newest sample: some row lies exactly 24 hours past
    it and none lies later. An export that is not forced goes ahead only
    when the table spans at least [min_window_hours]; when that is 24 or
    more, some row is as old as the cutoff, so the exported day is covered
    from its start. A forced export is never skipped for a small window. *)
Theorem export_gate_window (db : list MarketSample) (force : bool) (min_window_hours : Q) :
  let gate := export_gate (min_ts db) (max_ts db) force min_window_hours in
  (gate = SkippedNoData <-> db = [])
  /\ (forall cutoff wh, gate = Exporting cutoff wh ->
      (exists s, s ∈ db /\ ts_ms s = cutoff + 86400000)
      /\ (forall s, s ∈ db -> ts_ms s <= cutoff + 86400000)
      /\ (force = false -> (min_window_hours <= wh)%Q)
      /\ (force = false -> (24 <= min_window_hours)%Q ->
          exists s, s ∈ db /\ ts_ms s <= cutoff))
  /\ (force = true -> forall wh, gate <> SkippedWindowTooSmall wh).
Proof.
  cbv zeta. destruct db as [|s0 db].
  { simpl. split; [done|]. split; [done|]. by intros _ wh. }
  unfold min_ts, max_ts, export_gate.
  destruct (fold_min_spec db (ts_ms s0)) as (Hmn1 & Hmn2 & Hmn3).
  destruct (fold_max_spec db (ts_ms s0)) as (Hmx1 & Hmx2 & Hmx3).
  cbv zeta in Hmn1, Hmn2, Hmn3, Hmx1, Hmx2, Hmx3.
  set (mn := fold_left (fun m x => Z.min m (ts_ms x)) db (ts_ms s0)) in *.
  set (mx := fold_left (fun m x => Z.max m (ts_ms x)) db (ts_ms s0)) in *.
  assert (exists s, s ∈ s0 :: db /\ ts_ms s = mx) as Hmax.
  { destruct Hmx3 as [-> | (s & Hs & Hts)]; [exists s0 | exists s]; split; try done;
      [by left | by right]. }
  assert (exists s, s ∈ s0 :: db /\ ts_ms s = mn) as Hmin.
  { destruct Hmn3 as [-> | (s & Hs & Hts)]; [exists s0 | exists s]; split; try done;
      [by left | by right]. }
  assert (forall s, s ∈ s0 :: db -> ts_ms s <= mx) as Hub.
  { intros s Hs. apply elem_of_cons in Hs as [->|Hs]; [done | by apply Hmx2]. }
  split; [|split].
  - split; [|done]. by case_match.
  - intros cutoff wh Hgate.
    destruct (negb force && Qltb (inject_Z (mx - mn) / 3600000) min_window_hours) eqn:Eg;
      [done|]. injection Hgate as <- <-.
    split; [|split; [|split]].
    + destruct Hmax as (s & Hs & Hts). exists s. split; [done|]. lia.
    + intros s Hs. specialize (Hub s Hs). lia.
    + intros ->. simpl in Eg. unfold Qltb in Eg.
      by apply negb_false_iff, Qle_bool_iff in Eg.
    + intros -> H24. simpl in Eg. unfold Qltb in Eg.
      apply negb_false_iff, Qle_bool_iff in Eg.
      assert (24 <= inject_Z (mx - mn) / 3600000)%Q as Hwh by (by eapply Qle_trans).
      assert (inject_Z 86400000 <= inject_Z (mx - mn))%Q as HQ.
      { assert (inject_Z (mx - mn) == inject_Z (mx - mn) / 3600000 * 3600000)%Q as -> by field.
        change (inject_Z 86400000) with (24 * 3600000)%Q.
        apply Qmult_le_compat_r; [done | by unfold Qle]. }
      rewrite <- Zle_Qle in HQ.
      destruct Hmin as (s & Hs & Hts). exists s. split; [done|]. lia.
  - intros -> wh. simpl. done.
Qed.

(** ** What counts as a locked error *)

Lemma prefix_db_locked_contains_locked (s : string) :
  String.prefix "database is locked" s = true -> contains "locked" s = true.
Proof.
  intros H.
  do 18 (destruct s as [|? s]; [discriminate H|];
         cbn [String.prefix] in H;
         destruct (ascii_dec _ _) as [<-|]; [|discriminate H]).
  clear H. by destruct s.
Qed.

Lemma contains_db_locked_contains_locked (s : string) :
  contains "database is locked" s = true -> contains "locked" s = true.
Proof.
  induction s as [|c s IH].
  - intros H. discriminate H.
  - intros H. change (contains "database is locked" (String c s))
      with (String.prefix "database is locked" (String c s)
            || contains "database is locked" s) in H.
    apply orb_true_iff in H as [H|H].
    + by apply prefix_db_locked_contains_locked.
    + change (contains "locked" (String c s))
        with (String.prefix "locked" (String c s) || contains "locked" s).
      rewrite (IH H). apply orb_true_r.
Qed.

Lemma ascii_lower_idem (c : ascii) : ascii_lower (ascii_lower c) = ascii_lower c.
Proof.
  unfold ascii_lower. cbv zeta.
  destruct ((65 <=? nat_of_ascii c)%nat && (nat_of_ascii c <=? 90)%nat) eqn:E.
  - apply andb_true_iff in E as [E1 E2]. apply Nat.leb_le in E1, E2.
    rewrite nat_ascii_embedding by lia.
    assert ((nat_of_ascii c + 32 <=? 90)%nat = false) as -> by (apply Nat.leb_gt; lia).
    by rewrite andb_false_r.
  - by rewrite E.
Qed.

Lemma lower_idem (s : string) : lower (lower s) = lower s.
Proof. induction s as [|c s IH]; simpl; [done|]. by rewrite ascii_lower_idem, IH. Qed.

(** X26: an error is taken for a lock exactly when its text, put in lower
    case, contains "locked": the test for "database is locked" adds
    nothing, and the letter case of the text does not matter. *)
Theorem locked_error_test (msg : string) :
  is_locked_error msg = contains "locked" (lower msg)
  /\ is_locked_error (lower msg) = is_locked_error msg.
Proof.
  assert (forall m, is_locked_error m = contains "locked" (lower m)) as H.
  { intros m. unfold is_locked_error.
    destruct (contains "locked" (lower m)) eqn:E1; [done|]. simpl.
    destruct (contains "database is locked" (lower m)) eqn:E2; [|done].
    apply contains_db_locked_contains_locked in E2. congruence. }
  split; [apply H|]. by rewrite !H, lower_idem.
Qed.

Lemma three_passes_promote_witness :
  level <$> schedules (cycles 2 (ranked "X" 50 (Some 5%Q)) (scheduled "X" LvC)) !! "X"
    = Some LvC
  /\ level <$> schedules (cycles 3 (ranked "X" 50 (Some 5%Q)) (scheduled "X" LvC)) !! "X"
    = Some LvA.
Proof.
  destruct (three_passes_promote 0%Q 0%Q 0%Q
              (ranked "X" 50 (Some 5%Q)) (ranked "X" 50 (Some 5%Q))
              (ranked "X" 50 (Some 5%Q)) (scheduled "X" LvC) "X"
              (mkMarketRanking "X" 50 (1 # 2)%Q None None (Some 5%Q))
              (mkMarketRanking "X" 50 (1 # 2)%Q None None (Some 5%Q))
              (mkMarketRanking "X" 50 (1 # 2)%Q None None (Some 5%Q))
              (mkMarketSchedule "X" LvC 0 (_get_interval_for_level LvC)))
    as (_ & H2 & H3 & _).
  1-3: apply NoDup_singleton.
  1-3: apply list_elem_of_singleton; reflexivity.
  1-3: reflexivity.
  - reflexivity.
  - discriminate.
  - reflexivity.
  - split.
    + change (cycles 2 ?r ?s) with
        (_update_levels_with_hysteresis 0%Q r (_update_levels_with_hysteresis 0%Q r s)).
      by rewrite H2.
    + change (cycles 3 ?r ?s) with
        (_update_levels_with_hysteresis 0%Q r
           (_update_levels_with_hysteresis 0%Q r (_update_levels_with_hysteresis 0%Q r s))).
      by rewrite H3.
Defined.

(** ** The null rates of the report *)

Lemma bump_if_lookup_eq (missing : bool) (k : string) (c : gmap string Z) :
  bump_if missing k c !! k = if missing then Some (counter_get c k + 1) else c !! k.
Proof. unfold bump_if, bump. destruct missing; [|done]. by rewrite lookup_insert_eq. Qed.

Lemma bump_if_lookup_ne (missing : bool) (field k : string) (c : gmap string Z) :
  field <> k -> bump_if missing field c !! k = c !! k.
Proof. intros Hne. unfold bump_if, bump. destruct missing; [|done]. by rewrite lookup_insert_ne. Qed.

Ltac bump_lookups :=
  unfold counter_get;
  repeat (rewrite bump_if_lookup_eq || rewrite bump_if_lookup_ne by done);
  unfold counter_get;
  repeat (rewrite bump_if_lookup_ne by done).

Lemma null_step_lookup (c : gmap string Z) (sample : MarketSample) (k : string) :
  null_step c sample !! k
  = if lacks k sample then Some (counter_get c k + 1) else c !! k.
Proof.
  unfold null_step, lacks, column. cbv zeta.
  destruct (String.eqb k "bid") eqn:E1.
  { apply String.eqb_eq in E1 as ->. bump_lookups. by destruct (bid sample). }
  destruct (String.eqb k "ask") eqn:E2.
  { apply String.eqb_eq in E2 as ->. bump_lookups. by destruct (ask sample). }
  destruct (String.eqb k "mid") eqn:E3.
  { apply String.eqb_eq in E3 as ->. bump_lookups. by destruct (mid sample). }
  destruct (String.eqb k "spread_bps") eqn:E4.
  { apply String.eqb_eq in E4 as ->. bump_lookups. by destruct (spread_bps sample). }
  destruct (String.eqb k "volume_24h_usd") eqn:E5.
  { apply String.eqb_eq in E5 as ->. bump_lookups. by destruct (volume_24h_usd sample). }
  destruct (String.eqb k "open_interest_usd") eqn:E6.
  { apply String.eqb_eq in E6 as ->. bump_lookups.
    by destruct (open_interest_usd sample). }
  destruct (String.eqb k "funding_rate") eqn:E7.
  { apply String.eqb_eq in E7 as ->. bump_lookups. by destruct (funding_rate sample). }
  apply String.eqb_neq in E1, E2, E3, E4, E5, E6, E7.
  by rewrite !bump_if_lookup_ne by done.
Qed.

Lemma null_counts_fold (samples : list MarketSample) (c : gmap string Z) (k : string) :
  fold_left null_step samples c !! k
  = if 0 <? count_if (lacks k) samples
    then Some (counter_get c k + count_if (lacks k) samples)
    else c !! k.
Proof.
  revert c. induction samples as [|s samples IH]; intros c; [done|].
  cbn [fold_left count_if]. rewrite IH. unfold counter_get.
  rewrite null_step_lookup. unfold counter_get.
  pose proof (count_if_nonneg (lacks k) samples) as Hn.
  destruct (lacks k s).
  - assert ((0 <? 1 + count_if (lacks k) samples) = true) as -> by (apply Z.ltb_lt; lia).
    simpl. destruct (0 <? count_if (lacks k) samples) eqn:E.
    + f_equal. lia.
    + apply Z.ltb_ge in E. f_equal. lia.
  - by rewrite Z.add_0_l.
Qed.

Lemma count_if_le_len {T : Type} (p : T -> bool) (l : list T) :
  count_if p l <= Z.of_nat (length l).
Proof. induction l as [|x l IH]; simpl; [lia|]. case_match; lia. Qed.

(** X27: the null rates of the report. A field has an entry exactly when
    at least one sample of the last 24 hours lacks it: a field that is
    never missing is left out, not reported as 0. An entry is the share of
    samples lacking the field, greater than 0 and at most 1; no other key
    appears. *)
Theorem null_rates_reports_missing_only (samples : list MarketSample) (field : string) :
  let n := count_if (lacks field) samples in
  (null_rates samples !! field = None <-> n = 0)
  /\ (forall rate, null_rates samples !! field = Some rate ->
      (rate == inject_Z n / inject_Z (Z.of_nat (length samples)))%Q
      /\ (0 < rate)%Q /\ (rate <= 1)%Q
      /\ field ∈ ["bid"; "ask"; "mid"; "spread_bps"; "volume_24h_usd";
                  "open_interest_usd"; "funding_rate"]).
Proof.
  cbv zeta. unfold null_rates. cbv zeta. rewrite lookup_fmap.
  unfold null_counts. rewrite null_counts_fold.
  pose proof (count_if_nonneg (lacks field) samples) as Hn.
  pose proof (count_if_le_len (lacks field) samples) as Hl.
  destruct (0 <? count_if (lacks field) samples) eqn:E.
  - apply Z.ltb_lt in E. split; [split; [done|lia]|].
    intros rate Hr. simpl in Hr.
    assert ((0 <? Z.of_nat (length samples)) = true) as Ht by (apply Z.ltb_lt; lia).
    rewrite Ht in Hr. injection Hr as <-. unfold counter_get.
    rewrite lookup_empty. cbn [default]. rewrite Z.add_0_l.
    assert (0 < inject_Z (Z.of_nat (length samples)))%Q as Hpos.
    { change 0%Q with (inject_Z 0). rewrite <- Zlt_Qlt. lia. }
    split; [|split; [|split]].
    + reflexivity.
    + apply Qlt_shift_div_l; [done|]. rewrite Qmult_0_l.
      change 0%Q with (inject_Z 0). rewrite <- Zlt_Qlt. lia.
    + apply Qle_shift_div_r; [done|]. rewrite Qmult_1_l. rewrite <- Zle_Qle. lia.
    + destruct samples as [|s samples]; [simpl in E; lia|].
      assert (exists x, x ∈ s :: samples /\ lacks field x = true) as (x & _ & Hx).
      { clear -E. induction (s :: samples) as [|y l IH]; [simpl in E; lia|].
        simpl in E. destruct (lacks field y) eqn:Ey.
        - exists y. split; [left|done].
        - destruct IH as (x & Hx & Hlx); [lia|]. exists x. split; [by right|done]. }
      unfold lacks, column in Hx.
      repeat (match type of Hx with context [String.eqb field ?c] =>
                destruct (String.eqb field c) eqn:?
              end);
        try discriminate Hx;
        match goal with H : String.eqb field _ = true |- _ =>
          apply String.eqb_eq in H as ->
        end; set_solver.
  - apply Z.ltb_ge in E. rewrite lookup_empty. simpl. split; [split; [lia|done]|].
    intros rate Hr. discriminate Hr.
Qed.

(** ** Sampling and flush in one tick *)

Lemma collect_due_inserts_count (tasks : list (Z * MarketInfo * Snapshot))
    (st : Collector) :
  inserts_count (collect_due tasks st) = inserts_count st.
Proof.
  unfold collect_due. destruct tasks as [|t tasks]; [done|]. cbv zeta.
  apply (fold_left_preserves (fun s => inserts_count s = inserts_count st)).
  { intros s [x|]; [|done]. intros <-. reflexivity. }
  apply (fold_left_preserves
           (fun a : Collector * list (option MarketSample) =>
              inserts_count a.1 = inserts_count st)); [|done].
  intros [s acc] [[now_ms market] snapshot] Hs. cbn [fst] in Hs.
  unfold gather_step. cbn [fst snd].
  destruct (collect_sample_cases now_ms market snapshot s) as [->|(x & ->)]; by rewrite <- Hs.
Qed.

(** X28: the flush threshold of [run]. A tick flushes exactly when the
    buffer holds at least 50 samples after sampling. Below that the table
    is untouched and no insert is counted; at or above it one insert is
    counted, and a flush that commits empties the buffer while one that
    fails leaves at least 50 samples in it. Either way the table and the
    buffer afterwards hold between them the table, the old buffer and the
    samples accepted in the tick. *)
Theorem tick_flush_threshold (tasks : list (Z * MarketInfo * Snapshot))
    (outcome : InsertOutcome) (st : Collector) (db : list MarketSample) :
  let sampled := collect_due tasks st in
  let r := sample_and_flush tasks outcome st db in
  ((length (buffer sampled) < 50)%nat ->
     r = (sampled, db))
  /\ ((50 <= length (buffer sampled))%nat ->
      inserts_count r.1 = inserts_count st + 1
      /\ (outcome = Committed -> buffer r.1 = [] /\ r.2 = db ++ buffer sampled)
      /\ (outcome = InsertRaised -> r.2 = db /\ (50 <= length (buffer r.1))%nat))
  /\ r.2 ++ buffer r.1 ≡ₚ db ++ buffer sampled.
Proof.
  cbv zeta. unfold sample_and_flush. cbv zeta.
  pose proof (collect_due_inserts_count tasks st) as Hic.
  destruct (50 <=? Z.of_nat (length (buffer (collect_due tasks st)))) eqn:E.
  - apply Z.leb_le in E.
    assert (buffer (collect_due tasks st) <> []) as Hne.
    { intros H0. rewrite H0 in E. simpl in E. lia. }
    split; [intros; lia|]. destruct outcome.
    + rewrite flush_buffer_committed by done. cbn [fst snd]. split.
      * intros _. split; [simpl; lia|]. split; [done|intros; discriminate].
      * simpl. by rewrite app_nil_r.
    + rewrite flush_buffer_raised by done. cbn [fst snd]. split.
      * intros _. split; [simpl; lia|]. split; [intros; discriminate|].
        intros _. split; [done|]. simpl. lia.
      * done.
  - apply Z.leb_gt in E. split; [done|]. split; [intros; lia|]. done.
Qed.
